(** * llm-provider-auth: credential store, token refresh and request executor

    A shallow embedding of the Python sources [auth.py], [codex_auth.py],
    [copilot_auth.py], [chat_model.py], [chat_model_helpers.py],
    [codex_chat_model.py], [usage_helpers.py] and [chat_message_utils.py],
    with the properties of the credential lifecycle and of the retrying
    request executor stated over it.

    Conventions of the embedding
    - a Python [str] is a [string] holding its UTF-8 encoding, so a
      character is one byte below 128 or a lead byte followed by
      continuation bytes; [len] and slices count characters ([py_len],
      [py_take]); [int] is [Z]; a finite [float] (timestamps, durations) is
      a rational [Q], so arithmetic is exact;
    - a value obtained from [json.load]/[response.json()] is a [JSON] tree,
      a Python [dict] with string keys is a [gmap string JSON];
    - [time.time()], the file system and the network are inputs of the
      functions that read them and outputs of the functions that write them;
    - a raised exception is the [Raise] branch of [Exc];
    - logging and the metric counters ([_record_auth_metric]) have no
      influence on control flow and are left out. *)

From Stdlib Require Import ZArith QArith Qround Lqa Ascii.
From stdpp Require Import gmap strings list fin_maps pretty.

Set Default Proof Using "Type".
#[local] Set Warnings "-register-all".
#[local] Open Scope Z_scope.

(** ** Python values *)

Inductive JSON : Type :=
  | JNull
  | JBool (b : bool)
  | JInt (z : Z)
  | JFloat (q : Q)
  | JStr (s : string)
  | JArr (l : list JSON)
  | JObj (m : gmap string JSON).

(** A Python dict with string keys, as [json.load] produces it. *)
Abbreviation dict := (gmap string JSON).

(** Result of a call that may raise. *)
Inductive Exc (E A : Type) : Type :=
  | Return (a : A)
  | Raise (e : E).
Arguments Return {E A} a.
Arguments Raise {E A} e.

(** [bool(v)]: Python truthiness. *)
Definition truthy (v : JSON) : bool :=
  match v with
  | JNull => false
  | JBool b => b
  | JInt z => negb (z =? 0)
  | JFloat q => negb (Qeq_bool q 0)
  | JStr s => negb (String.eqb s "")
  | JArr l => negb (Nat.eqb (length l) 0)
  | JObj m => negb (Nat.eqb (size m) 0)
  end.

(** [a or b] *)
Definition py_or (a b : JSON) : JSON := if truthy a then a else b.

(** [d.get(k)] and [d.get(k, dflt)] on a dict. *)
Definition dget (k : string) (d : dict) : JSON := default JNull (d !! k).
Definition dget_or (k : string) (dflt : JSON) (d : dict) : JSON := default dflt (d !! k).

(** [v == s] for a string [s]: only a string equals a string. *)
Definition py_eq_str (v : JSON) (s : string) : bool :=
  match v with
  | JStr s' => String.eqb s' s
  | _ => false
  end.

(** A field typed [str | None], and its truthiness ([if auth.email:]). *)
Definition of_opt_str (o : option string) : JSON := from_option JStr JNull o.
Definition truthy_opt (o : option string) : bool := truthy (of_opt_str o).

(** [v == o] for [o : str | None]. *)
Definition py_eq_opt (v : JSON) (o : option string) : bool :=
  match o with
  | Some s => py_eq_str v s
  | None => match v with JNull => true | _ => false end
  end.

(** [next(((i, x) for i, x in enumerate(l) if P(x)), None)]: the first
    element satisfying [P], with its index. *)
Definition find_where {A} (P : A → bool) (l : list A) : option (nat * A) :=
  list_find (λ x, Is_true (P x)) l.

(** [next((i for i, x in enumerate(l) if P(x)), None)] *)
Definition index_where {A} (P : A → bool) (l : list A) : option nat :=
  fst <$> find_where P l.

(** [str(v)].  The text Python prints for a float or a container is left
    to [repr]. *)
Definition py_str (repr : JSON → string) (v : JSON) : string :=
  match v with
  | JStr s => s
  | JInt z => pretty z
  | JNull => "None"
  | JBool true => "True"
  | JBool false => "False"
  | _ => repr v
  end.

(** ** Strings: [len], slices, [strip], [lower], [in] *)

(** The code of a byte. *)
Definition code (c : ascii) : N := N_of_ascii c.

(** A continuation byte of a character of several bytes (10xxxxxx). *)
Definition is_continuation (c : ascii) : bool :=
  ((128 <=? code c) && (code c <? 192))%N.

(** [len(s)]: the characters of [s], one for each byte that is no
    continuation byte. *)
Fixpoint py_len (s : string) : nat :=
  match s with
  | String c s' => if is_continuation c then py_len s' else S (py_len s')
  | EmptyString => O
  end.

(** [s[:n]]: the first [n] characters of [s], each with its continuation
    bytes. *)
Fixpoint py_take (n : nat) (s : string) : string :=
  match s with
  | String c s' =>
      if is_continuation c then String c (py_take n s')
      else match n with
           | S n' => String c (py_take n' s')
           | O => EmptyString
           end
  | EmptyString => EmptyString
  end.

(** [list(s)]: the characters of [s], each a string of its own. *)
Fixpoint py_chars (s : string) : list string :=
  match s with
  | String c s' =>
      let continued := match s' with
                       | String c' _ => is_continuation c'
                       | EmptyString => false
                       end in
      match py_chars s' with
      | char :: chars =>
          if continued then String c char :: chars
          else String c EmptyString :: char :: chars
      | [] => [String c EmptyString]
      end
  | EmptyString => []
  end.

(** The double quote, and [s] between double quotes. *)
Definition dquote : string := String "034"%char EmptyString.
Definition quoted (s : string) : string := dquote +:+ s +:+ dquote.

(** [c.isspace()] for a character of one byte: U+0009 to U+000D, U+001C to
    U+0020. *)
Definition is_space (c : ascii) : bool :=
  ((9 <=? code c) && (code c <=? 13) || (28 <=? code c) && (code c <=? 32))%N.

(** [c.isspace()] for a character of two bytes: U+0085 and U+00A0. *)
Definition is_space2 (c1 c2 : ascii) : bool :=
  ((code c1 =? 194) && ((code c2 =? 133) || (code c2 =? 160)))%N.

(** [c.isspace()] for a character of three bytes: U+1680, U+2000 to U+200A,
    U+2028, U+2029, U+202F, U+205F and U+3000. *)
Definition is_space3 (c1 c2 c3 : ascii) : bool :=
  ((code c1 =? 225) && (code c2 =? 154) && (code c3 =? 128)
   || (code c1 =? 226) && (code c2 =? 128)
      && ((128 <=? code c3) && (code c3 <=? 138)
          || (code c3 =? 168) || (code c3 =? 169) || (code c3 =? 175))
   || (code c1 =? 226) && (code c2 =? 129) && (code c3 =? 159)
   || (code c1 =? 227) && (code c2 =? 128) && (code c3 =? 128))%N.

(** [s.lstrip()] *)
Fixpoint lstrip (s : string) : string :=
  match s with
  | String c1 s1 =>
      if is_space c1 then lstrip s1
      else match s1 with
           | String c2 s2 =>
               if is_space2 c1 c2 then lstrip s2
               else match s2 with
                    | String c3 s3 => if is_space3 c1 c2 c3 then lstrip s3 else s
                    | EmptyString => s
                    end
           | EmptyString => s
           end
  | EmptyString => EmptyString
  end.

(** [s.rstrip()]: the characters of [s] up to the point from which only
    whitespace follows. *)
Fixpoint rstrip (s : string) : string :=
  match s with
  | String c s' => if String.eqb (lstrip s) "" then EmptyString else String c (rstrip s')
  | EmptyString => EmptyString
  end.

(** [s.strip()] *)
Definition strip (s : string) : string := rstrip (lstrip s).

(** [c.lower()] for a character of one byte: A to Z. *)
Definition lower_char (c : ascii) : ascii :=
  if ((65 <=? code c) && (code c <=? 90))%N then ascii_of_N (code c + 32) else c.

(** The second byte of [c.lower()] for a character whose first byte is 195:
    the accented capitals U+00C0 to U+00DE, the multiplication sign
    apart. *)
Definition lower_latin (c : ascii) : ascii :=
  if ((128 <=? code c) && (code c <=? 158) && negb (code c =? 151))%N
  then ascii_of_N (code c + 32)
  else c.

(** [s.lower()] for text of ASCII and Latin-1 characters; [after_195] tells
    that the byte before was 195. *)
Fixpoint lower_from (after_195 : bool) (s : string) : string :=
  match s with
  | String c s' =>
      String (if after_195 then lower_latin c else lower_char c)
             (lower_from (code c =? 195)%N s')
  | EmptyString => EmptyString
  end.

Definition lower (s : string) : string := lower_from false s.

(** [needle in hay] for two strings. *)
Definition str_contains (needle hay : string) : bool :=
  match String.index 0 needle hay with
  | Some _ => true
  | None => false
  end.

(** [s in (t1, t2, ...)] for strings. *)
Definition str_in (s : string) (ts : list string) : bool :=
  existsb (String.eqb s) ts.

(** [", ".join(parts)] *)
Definition join (sep : string) (parts : list string) : string :=
  String.concat sep parts.

(** [len(l)] as a Python int. *)
Definition len {A} (l : list A) : Z := Z.of_nat (length l).

(** [s.replace(old, "")] for a non-empty [old]: the occurrences of [old],
    found from the left and not overlapping, are dropped.  [skip] counts
    the characters of the current occurrence still to drop. *)
Fixpoint remove_all_from (old : string) (skip : nat) (s : string) : string :=
  match s with
  | EmptyString => EmptyString
  | String c s' =>
      match skip with
      | S skip => remove_all_from old skip s'
      | O => if String.prefix old s
             then remove_all_from old (String.length old - 1) s'
             else String c (remove_all_from old 0 s')
      end
  end.

Definition remove_all (old s : string) : string := remove_all_from old 0 s.

(** [s.split(sep, 1)[0]] for a one-character [sep]: what comes before the
    first [sep], all of [s] when it has none. *)
Fixpoint before_first (sep : ascii) (s : string) : string :=
  match s with
  | EmptyString => EmptyString
  | String c s' => if Ascii.eqb c sep then EmptyString else String c (before_first sep s')
  end.

(** [s.rstrip(sep)] for a one-character [sep]. *)
Fixpoint lstrip_char (sep : ascii) (s : string) : string :=
  match s with
  | String c s' => if Ascii.eqb c sep then lstrip_char sep s' else s
  | EmptyString => EmptyString
  end.

Definition rstrip_char (sep : ascii) (s : string) : string :=
  String.rev (lstrip_char sep (String.rev s)).

(** ** Storage records shared by the three providers

    [AccountStorage] (auth.py), [CodexAccountStorage] (codex_auth.py) and
    [CopilotAccountStorage] (copilot_auth.py) are the same dataclass up to
    the default of [version]; one record stands for the three. *)

Record AccountStorage : Type := mkStorage {
  version : Z;
  accounts : list dict;
  active_index : Z;
}.

(** [0 <= self.active_index < len(self.accounts)] *)
Definition index_in_range (s : AccountStorage) : bool :=
  (0 <=? active_index s) && (active_index s <? len (accounts s)).

(** [get_active_account], identical in the three classes
    (auth.py:112, codex_auth.py:92, copilot_auth.py:76). *)
Definition get_active_account (self : AccountStorage) : option dict :=
  if index_in_range self
  then accounts self !! Z.to_nat (active_index self)
  else match accounts self with
       | [] => None
       | first :: _ => Some first
       end.

(** A file holding the accounts document: absent, unreadable
    ([json.JSONDecodeError], [OSError]) or holding a storage. *)
Inductive File : Type :=
  | NoFile
  | BadFile
  | GoodFile (s : AccountStorage).

Definition read_file (f : File) : option AccountStorage :=
  match f with
  | GoodFile s => Some s
  | _ => None
  end.

(** The loop shared by [remove_account], [remove_codex_account] and
    [remove_copilot_account]: the first account whose [key] equals
    [ident] is popped and an index at or beyond the new length is
    lowered.  [None] when the loop finds no such account. *)
Definition storage_remove (key ident : string) (storage : AccountStorage)
  : option AccountStorage :=
  match index_where (λ acc, py_eq_str (dget key acc) ident) (accounts storage) with
  | None => None
  | Some i =>
      let accs := delete i (accounts storage) in
      Some {| version := version storage;
              accounts := accs;
              active_index :=
                if len accs <=? active_index storage
                then Z.max 0 (len accs - 1)
                else active_index storage |}
  end.

(** The loop shared by the three [set_active_*] functions. *)
Definition storage_set_active (key ident : string) (storage : AccountStorage)
  : option AccountStorage :=
  match index_where (λ acc, py_eq_str (dget key acc) ident) (accounts storage) with
  | None => None
  | Some i => Some {| version := version storage;
                      accounts := accounts storage;
                      active_index := Z.of_nat i |}
  end.

(** ** Values at their annotated types

    A dataclass field annotated [str], [str | None] or [float] holds what
    the caller passes; the records of the embedding are typed, so a value
    outside the annotation has no image there ([None]). *)

Definition as_str (v : JSON) : option string :=
  match v with
  | JStr s => Some s
  | _ => None
  end.

Definition as_opt_str (v : JSON) : option (option string) :=
  match v with
  | JStr s => Some (Some s)
  | JNull => Some None
  | _ => None
  end.

Definition as_float (v : JSON) : option Q :=
  match v with
  | JFloat q => Some q
  | JInt z => Some (inject_Z z)
  | _ => None
  end.

(** ** auth.py: Antigravity credentials and their store *)

Module auth.

(** [ANTIGRAVITY_DEFAULT_PROJECT_ID] (constants.py) *)
Definition ANTIGRAVITY_DEFAULT_PROJECT_ID : string := "rising-fact-p41fc".

Record AntigravityAuth : Type := mkAuth {
  access_token : string;
  refresh_token : string;
  expires_at : Q;
  email : option string;
  project_id : option string;
  managed_project_id : option string;
}.

(** [is_expired]: [time.time() >= (self.expires_at - buffer_seconds)],
    with [now] the value of [time.time()]. *)
Definition is_expired (self : AntigravityAuth) (buffer_seconds : Z) (now : Q) : bool :=
  Qle_bool (expires_at self - inject_Z buffer_seconds) now.

(** [bool(project_id) and project_id == ANTIGRAVITY_DEFAULT_PROJECT_ID] *)
Definition _is_default_project_id (project_id : option string) : bool :=
  truthy_opt project_id
  && py_eq_str (of_opt_str project_id) ANTIGRAVITY_DEFAULT_PROJECT_ID.

(** The two files [load_accounts] may read: [get_accounts_path()] and the
    legacy [get_legacy_accounts_path()]. *)
Record Disk : Type := mkDisk {
  primary : File;
  legacy : File;
}.

Definition load_accounts (d : Disk) : option AccountStorage :=
  match primary d with
  | NoFile => read_file (legacy d)
  | f => read_file f
  end.

(** [save_accounts] always writes the primary path. *)
Definition save_accounts (storage : AccountStorage) (d : Disk) : Disk :=
  {| primary := GoodFile storage; legacy := legacy d |}.

(** [AccountStorage()] *)
Definition empty_storage : AccountStorage := mkStorage 3 [] 0.

(** The dict appended by [_upsert_account_from_auth]. *)
Definition new_account (a : AntigravityAuth) (now_ms : Z) : dict :=
  list_to_map
    [("email", of_opt_str (email a));
     ("refreshToken", JStr (refresh_token a));
     ("projectId", of_opt_str (project_id a));
     ("managedProjectId", of_opt_str (managed_project_id a));
     ("addedAt", JInt now_ms);
     ("lastUsed", JInt now_ms)].

(** The six assignments on the matching account, in source order. *)
Definition update_account (a : AntigravityAuth) (now_ms : Z) (account : dict) : dict :=
  let account := <["email" := py_or (of_opt_str (email a)) (dget "email" account)]> account in
  let account := <["refreshToken" := JStr (refresh_token a)]> account in
  let account := <["projectId" := of_opt_str (project_id a)]> account in
  let account := <["managedProjectId" := of_opt_str (managed_project_id a)]> account in
  let account := <["addedAt" := dget_or "addedAt" (JInt now_ms) account]> account in
  <["lastUsed" := JInt now_ms]> account.

(** [existing_idx] of [_upsert_account_from_auth], with the account found:
    the first account with the credential's email, looked for only when
    the email is truthy. *)
Definition existing_account (a : AntigravityAuth) (accs : list dict) : option (nat * dict) :=
  if truthy_opt (email a)
  then find_where (λ acc, py_eq_opt (dget "email" acc) (email a)) accs
  else None.

(** [_upsert_account_from_auth]; [now_ms] is [int(time.time() * 1000)]. *)
Definition _upsert_account_from_auth (a : AntigravityAuth) (now_ms : Z) (d : Disk) : Disk :=
  let storage := default empty_storage (load_accounts d) in
  match existing_account a (accounts storage) with
  | None =>
      let accs := accounts storage ++ [new_account a now_ms] in
      save_accounts {| version := version storage;
                       accounts := accs;
                       active_index := len accs - 1 |} d
  | Some (existing_idx, account) =>
      save_accounts {| version := version storage;
                       accounts := <[existing_idx := update_account a now_ms account]>
                                     (accounts storage);
                       active_index := Z.of_nat existing_idx |} d
  end.

(** The index chosen by [_clear_stored_refresh_token]: the first account
    with the credential's email, else the active index when it is in range. *)
Definition clear_target (a : AntigravityAuth) (storage : AccountStorage) : option nat :=
  match fst <$> existing_account a (accounts storage) with
  | Some i => Some i
  | None => if index_in_range storage
            then Some (Z.to_nat (active_index storage))
            else None
  end.

(** The two assignments of [_clear_stored_refresh_token]. *)
Definition scrub (key : string) (now_ms : Z) (account : dict) : dict :=
  <["lastUsed" := JInt now_ms]> (<[key := JStr ""]> account).

(** [_clear_stored_refresh_token] *)
Definition _clear_stored_refresh_token (a : AntigravityAuth) (now_ms : Z) (d : Disk) : Disk :=
  match load_accounts d with
  | None => d
  | Some storage =>
      if Nat.eqb (length (accounts storage)) 0 then d
      else match clear_target a storage with
           | None => d
           | Some target_idx =>
               match accounts storage !! target_idx with
               | Some account =>
                   save_accounts
                     {| version := version storage;
                        accounts := <[target_idx := scrub "refreshToken" now_ms account]>
                                      (accounts storage);
                        active_index := active_index storage |} d
               | None => d (* not reached: the target is a valid index *)
               end
           end
  end.

(** [load_auth_from_storage], for accounts whose fields have the types the
    module writes (a string or null). *)
Definition opt_str_of (v : JSON) : option string :=
  match v with
  | JStr s => Some s
  | _ => None
  end.

Definition load_auth_from_storage (d : Disk) : option AntigravityAuth :=
  match load_accounts d with
  | None => None
  | Some storage =>
      match get_active_account storage with
      | None => None
      | Some account =>
          if Nat.eqb (size account) 0 then None
          else Some {| access_token := "";
                       refresh_token := default "" (opt_str_of (dget_or "refreshToken" (JStr "") account));
                       expires_at := 0;
                       email := opt_str_of (dget "email" account);
                       project_id := opt_str_of (dget "projectId" account);
                       managed_project_id := opt_str_of (dget "managedProjectId" account) |}
      end
  end.

(** [set_active_account] and [remove_account] *)
Definition set_active_account (email : string) (d : Disk) : bool * Disk :=
  match load_accounts d with
  | None => (false, d)
  | Some storage =>
      match storage_set_active "email" email storage with
      | Some storage' => (true, save_accounts storage' d)
      | None => (false, d)
      end
  end.

Definition remove_account (email : string) (d : Disk) : bool * Disk :=
  match load_accounts d with
  | None => (false, d)
  | Some storage =>
      match storage_remove "email" email storage with
      | Some storage' => (true, save_accounts storage' d)
      | None => (false, d)
      end
  end.

(** *** Refreshing the access token *)

(** Exceptions of the auth modules.  Every failure the modules raise
    themselves is a [ValueError] told apart by its message. *)
Inductive Error : Type :=
  | ValueError (msg : string)
  | RequestError          (* httpx.RequestError out of client.post *)
  | JSONDecodeError       (* response.json() on an undecodable body *)
  | AttributeError.       (* .get on a value that is no dict *)

(** The fields [refresh_access_token] reads off [response.json()] of a
    successful reply; [None] is an absent key. *)
Record TokenData : Type := mkTokenData {
  td_access_token : option string;
  td_refresh_token : option string;
  td_expires_in : option Q;
}.

(** What [client.post] on the token endpoint comes back with. *)
Inductive TokenReply : Type :=
  | TransportFailure                             (* the call raised *)
  | ErrorReply (status_code : Z) (text : string) (* not response.is_success *)
  | BadBody                                      (* success, body is no JSON *)
  | TokenReplyOk (token_data : TokenData).

Section Refresh.

(** [json.loads]; [None] is [json.JSONDecodeError]. *)
Variable json_loads : string → option JSON.
(** The text of [str(v)] for a float or a container. *)
Variable repr : JSON → string.

(** [_parse_oauth_error_payload] *)
Definition _parse_oauth_error_payload (text : string) : string * string :=
  if String.eqb text "" then ("", "")
  else match json_loads text with
       | None => ("", text)
       | Some (JObj payload) =>
           let error_value := dget "error" payload in
           let '(code, description) :=
             match error_value with
             | JStr s => (s, "")
             | JObj ev =>
                 (strip (py_str repr (py_or (py_or (dget "status" ev) (dget "code" ev)) (JStr ""))),
                  strip (py_str repr (py_or (dget "message" ev) (JStr ""))))
             | _ => ("", "")
             end in
           let description :=
             if negb (String.eqb description "") then description
             else strip (py_str repr (py_or (py_or (dget "error_description" payload)
                                                   (dget "message" payload))
                                            (JStr ""))) in
           (code, description)
       | Some _ => ("", "")
       end.

(** The message of the error raised on revocation. *)
Definition revoked_message (a : AntigravityAuth) : string :=
  let hint := if truthy_opt (email a)
              then " (email=" +:+ default "" (email a) +:+ ")"
              else "" in
  "Refresh token revoked" +:+ hint +:+ " - run 'antigravity login' again".

(** The inputs of one call of [refresh_access_token]. *)
Record RefreshInput : Type := mkRefreshInput {
  start_time : Q;            (* time.time() before the request *)
  token_reply : TokenReply;  (* the token endpoint's answer *)
  fetched_project : string;  (* fetch_project_id(...), "" when it raised *)
  now_ms : Z;                (* int(time.time() * 1000) when storing *)
}.

(** [refresh_access_token] *)
Definition refresh_access_token (w : RefreshInput) (a : AntigravityAuth) (d : Disk)
  : Exc Error AntigravityAuth * Disk :=
  if String.eqb (refresh_token a) "" then (Raise (ValueError "Missing refresh token"), d)
  else match token_reply w with
  | TransportFailure => (Raise RequestError, d)
  | ErrorReply status text =>
      let '(error_code, error_description) := _parse_oauth_error_payload text in
      if String.eqb (lower error_code) "invalid_grant" then
        (Raise (ValueError (revoked_message a)),
         _clear_stored_refresh_token a (now_ms w) d)
      else if negb (String.eqb error_code "") || negb (String.eqb error_description "") then
        let details := join ": " (filter (λ part, part ≠ "") [error_code; error_description]) in
        (Raise (ValueError ("Token refresh failed (" +:+ pretty status +:+ "): " +:+ details)), d)
      else (Raise (ValueError ("Token refresh failed: " +:+ text)), d)
  | BadBody => (Raise JSONDecodeError, d)
  | TokenReplyOk token_data =>
      let access := default "" (td_access_token token_data) in
      let project := default "" (project_id a) in
      let project :=
        if String.eqb project "" || _is_default_project_id (Some project) then
          if negb (String.eqb (fetched_project w) "") then fetched_project w
          else if _is_default_project_id (Some project) then ""
          else project
        else project in
      let refreshed :=
        {| access_token := access;
           refresh_token := default (refresh_token a) (td_refresh_token token_data);
           expires_at := start_time w + default 3600%Q (td_expires_in token_data);
           email := email a;
           project_id := if String.eqb project "" then None else Some project;
           managed_project_id := managed_project_id a |} in
      (Return refreshed, _upsert_account_from_auth refreshed (now_ms w) d)
  end.

End Refresh.

(** *** The other functions of auth.py *)

(** [AntigravityAuth.to_dict] *)
Definition to_dict (self : AntigravityAuth) : dict :=
  list_to_map
    [("access_token", JStr (access_token self));
     ("refresh_token", JStr (refresh_token self));
     ("expires_at", JFloat (expires_at self));
     ("email", of_opt_str (email self));
     ("project_id", of_opt_str (project_id self));
     ("managed_project_id", of_opt_str (managed_project_id self))].

(** [AntigravityAuth.from_dict]; [None] when a field of [data] has a value
    outside its annotation. *)
Definition from_dict (data : dict) : option AntigravityAuth :=
  access_token ← as_str (dget_or "access_token" (JStr "") data);
  refresh_token ← as_str (dget_or "refresh_token" (JStr "") data);
  expires_at ← as_float (dget_or "expires_at" (JInt 0) data);
  email ← as_opt_str (dget "email" data);
  project_id ← as_opt_str (dget "project_id" data);
  managed_project_id ← as_opt_str (dget "managed_project_id" data);
  Some (mkAuth access_token refresh_token expires_at email project_id managed_project_id).

(** [list_accounts] *)
Definition list_accounts (d : Disk) : list dict :=
  match load_accounts d with
  | None => []
  | Some storage =>
      imap (λ i acc, {[ "email" := dget "email" acc;
                        "active" := JBool (Z.of_nat i =? active_index storage) ]})
        (accounts storage)
  end.

(** [ANTIGRAVITY_LOAD_ENDPOINTS] (constants.py) *)
Definition ANTIGRAVITY_LOAD_ENDPOINTS : list string :=
  ["https://cloudcode-pa.googleapis.com";
   "https://daily-cloudcode-pa.sandbox.googleapis.com";
   "https://autopush-cloudcode-pa.sandbox.googleapis.com"].

(** What one iteration of the loop of [fetch_project_id] gets. *)
Inductive LoadReply : Type :=
  | LoadRaised             (* client.post or response.json() raised *)
  | LoadRejected           (* not response.is_success *)
  | LoadData (data : JSON). (* response.json() *)

(** The project in the body of a reply, if the loop returns one; a body
    that is no dict raises in [data.get], which the loop swallows. *)
Definition project_of (data : JSON) : option JSON :=
  match data with
  | JObj data =>
      match dget "cloudaicompanionProject" data with
      | JStr project => if negb (String.eqb project "") then Some (JStr project) else None
      | JObj project => if truthy (dget "id" project) then Some (dget "id" project) else None
      | _ => None
      end
  | _ => None
  end.

(** [for endpoint in ANTIGRAVITY_LOAD_ENDPOINTS: ...] of [fetch_project_id],
    then [return ""]: the value returned and the endpoints requested. *)
Fixpoint fetch_project_loop (load : string → LoadReply) (todo : list string)
  : JSON * list string :=
  match todo with
  | [] => (JStr "", [])
  | endpoint :: todo =>
      let found := match load endpoint with
                   | LoadData data => project_of data
                   | _ => None
                   end in
      match found with
      | Some project => (project, [endpoint])
      | None => let '(project, requested) := fetch_project_loop load todo in
                (project, endpoint :: requested)
      end
  end.

Definition fetch_project_id (load : string → LoadReply) : JSON * list string :=
  fetch_project_loop load ANTIGRAVITY_LOAD_ENDPOINTS.

(** The dict [interactive_login] stores for the credential; [previous] is
    the account it replaces. *)
Definition login_account (a : AntigravityAuth) (added_ms used_ms : Z)
    (previous : option dict) : dict :=
  list_to_map
    [("email", of_opt_str (email a));
     ("refreshToken", JStr (refresh_token a));
     ("projectId", of_opt_str (project_id a));
     ("managedProjectId", of_opt_str (managed_project_id a));
     ("addedAt", match previous with
                 | Some account => dget_or "addedAt" (JInt added_ms) account
                 | None => JInt added_ms
                 end);
     ("lastUsed", JInt used_ms)].

(** [interactive_login] from the return of the callback server on: [code]
    and [state] are what the callback handler holds, [exchanged] what
    [exchange_token] comes back with, [added_ms] and [used_ms] the two
    readings of the clock. *)
Definition interactive_login (code state : option string)
    (exchanged : Exc Error AntigravityAuth) (added_ms used_ms : Z) (d : Disk)
  : Exc Error AntigravityAuth * Disk :=
  if negb (truthy_opt code) || negb (truthy_opt state) then
    (Raise (ValueError "OAuth callback not received - authentication timed out"), d)
  else match exchanged with
  | Raise e => (Raise e, d)
  | Return a =>
      let storage := default empty_storage (load_accounts d) in
      match find_where (λ acc, py_eq_opt (dget "email" acc) (email a)) (accounts storage) with
      | Some (existing_idx, account) =>
          (Return a,
           save_accounts
             {| version := version storage;
                accounts := <[existing_idx := login_account a added_ms used_ms (Some account)]>
                              (accounts storage);
                active_index := Z.of_nat existing_idx |} d)
      | None =>
          let accs := accounts storage ++ [login_account a added_ms used_ms None] in
          (Return a,
           save_accounts {| version := version storage;
                            accounts := accs;
                            active_index := len accs - 1 |} d)
      end
  end.

End auth.

(** ** codex_auth.py: Codex credentials and their store *)

Module codex_auth.

Import auth (Error, ValueError, RequestError, JSONDecodeError, AttributeError).
Import auth (TokenData, td_access_token, td_refresh_token, td_expires_in).

Record CodexAuth : Type := mkCodexAuth {
  access_token : string;
  refresh_token : string;
  expires_at : Q;
  account_id : option string;
  email : option string;
}.

(** [is_expired]: [time.time() >= (self.expires_at - buffer_seconds)] *)
Definition is_expired (self : CodexAuth) (buffer_seconds : Z) (now : Q) : bool :=
  Qle_bool (expires_at self - inject_Z buffer_seconds) now.

(** One file, [get_codex_accounts_path()]. *)
Definition load_codex_accounts (f : File) : option AccountStorage := read_file f.
Definition save_codex_accounts (storage : AccountStorage) (f : File) : File :=
  GoodFile storage.

(** [CodexAccountStorage()] *)
Definition empty_storage : AccountStorage := mkStorage 1 [] 0.

(** The lookup shared by [_upsert_codex_account] and
    [_clear_stored_refresh_token]: by account id, then by email. *)
Definition find_by_identity (a : CodexAuth) (accs : list dict) : option (nat * dict) :=
  let target :=
    if truthy_opt (account_id a)
    then find_where (λ acc, py_eq_opt (dget "account_id" acc) (account_id a)) accs
    else None in
  match target with
  | Some t => Some t
  | None =>
      if truthy_opt (email a)
      then find_where (λ acc, py_eq_opt (dget "email" acc) (email a)) accs
      else None
  end.

Definition new_account (a : CodexAuth) (now_ms : Z) : dict :=
  list_to_map
    [("account_id", of_opt_str (account_id a));
     ("refresh_token", JStr (refresh_token a));
     ("email", of_opt_str (email a));
     ("addedAt", JInt now_ms);
     ("lastUsed", JInt now_ms)].

Definition update_account (a : CodexAuth) (now_ms : Z) (account : dict) : dict :=
  let account := <["refresh_token" := JStr (refresh_token a)]> account in
  let account := <["lastUsed" := JInt now_ms]> account in
  let account := if truthy_opt (account_id a)
                 then <["account_id" := of_opt_str (account_id a)]> account
                 else account in
  let account := if truthy_opt (email a)
                 then <["email" := of_opt_str (email a)]> account
                 else account in
  <["addedAt" := dget_or "addedAt" (JInt now_ms) account]> account.

(** [_upsert_codex_account] *)
Definition _upsert_codex_account (a : CodexAuth) (now_ms : Z) (f : File) : File :=
  if String.eqb (refresh_token a) "" then f
  else
    let storage := default empty_storage (load_codex_accounts f) in
    match find_by_identity a (accounts storage) with
    | None =>
        let accs := accounts storage ++ [new_account a now_ms] in
        save_codex_accounts {| version := version storage;
                               accounts := accs;
                               active_index := len accs - 1 |} f
    | Some (target_idx, account) =>
        save_codex_accounts
          {| version := version storage;
             accounts := <[target_idx := update_account a now_ms account]> (accounts storage);
             active_index := Z.of_nat target_idx |} f
    end.

Definition clear_target (a : CodexAuth) (storage : AccountStorage) : option nat :=
  match fst <$> find_by_identity a (accounts storage) with
  | Some i => Some i
  | None => if index_in_range storage
            then Some (Z.to_nat (active_index storage))
            else None
  end.

(** [_clear_stored_refresh_token] *)
Definition _clear_stored_refresh_token (a : CodexAuth) (now_ms : Z) (f : File) : File :=
  match load_codex_accounts f with
  | None => f
  | Some storage =>
      if Nat.eqb (length (accounts storage)) 0 then f
      else match clear_target a storage with
           | None => f
           | Some target_idx =>
               match accounts storage !! target_idx with
               | Some account =>
                   save_codex_accounts
                     {| version := version storage;
                        accounts := <[target_idx := auth.scrub "refresh_token" now_ms account]>
                                      (accounts storage);
                        active_index := active_index storage |} f
               | None => f (* not reached: the target is a valid index *)
               end
           end
  end.

(** [_is_revoked_refresh_error] *)
Definition _is_revoked_refresh_error (error_code error_message : string) : bool :=
  let normalized_code := lower (strip error_code) in
  if str_in normalized_code
       ["invalid_grant"; "refresh_token_invalidated";
        "refresh_token_reused"; "refresh_token_expired"]
  then true
  else
    let normalized_message := lower (strip error_message) in
    existsb (λ token, str_contains token normalized_message)
      ["another client"; "new token"; "refresh token"; "token was revoked";
       "token revoked"; "token invalidated"; "already used"; "expired"].

(** [_build_reauth_message] *)
Definition _build_reauth_message (a : CodexAuth) : string :=
  let account_parts :=
    (if truthy_opt (email a) then ["email=" +:+ default "" (email a)] else [])
    ++ (if truthy_opt (account_id a) then ["account_id=" +:+ default "" (account_id a)] else []) in
  let account_hint :=
    match account_parts with
    | [] => ""
    | _ => " (" +:+ join ", " account_parts +:+ ")"
    end in
  "Refresh token revoked" +:+ account_hint +:+ " - run 'codex-auth login' again".

(** What [client.post] on the Codex token endpoint comes back with.  [data]
    is the local of that name: [response.json()] for a JSON content type
    ([None] when decoding raised), the empty dict otherwise. *)
Inductive TokenReply : Type :=
  | TransportFailure
  | ErrorReply (status_code : Z) (text : string) (data : option JSON)
  | BadBody
  | TokenReplyOk (token_data : TokenData).

Record RefreshInput : Type := mkRefreshInput {
  start_time : Q;
  token_reply : TokenReply;
  now_ms : Z;
}.

Section Refresh.

Variable repr : JSON → string.
(** [extract_account_id] and [extract_account_email] decode the JWT. *)
Variable extract_account_id : string → option string.
Variable extract_account_email : string → option string.

(** [error_code] and [error_message] as [refresh_codex_token] derives them;
    [None] when [data] is no dict. *)
Definition error_fields (text : string) (data : JSON) : option (string * string) :=
  match data with
  | JObj data =>
      let error_obj := dget "error" data in
      let '(error_code, error_message) :=
        match error_obj with
        | JStr s => (s, s)
        | JObj eo => (strip (py_str repr (dget_or "code" (JStr "") eo)),
                      strip (py_str repr (dget_or "message" (JStr "") eo)))
        | _ => ("", "")
        end in
      let error_code :=
        if String.eqb error_code ""
        then strip (py_str repr (dget_or "code" (JStr "") data))
        else error_code in
      let error_message :=
        if String.eqb error_message ""
        then (let m := strip (py_str repr (dget_or "message" (JStr "") data)) in
              if String.eqb m "" then text else m)
        else error_message in
      Some (error_code, error_message)
  | _ => None
  end.

(** [a or b] on two fields typed [str | None]. *)
Definition opt_or (a b : option string) : option string :=
  if truthy_opt a then a else b.

(** [refresh_codex_token] *)
Definition refresh_codex_token (w : RefreshInput) (a : CodexAuth) (f : File)
  : Exc Error CodexAuth * File :=
  if String.eqb (refresh_token a) "" then (Raise (ValueError "Missing refresh token"), f)
  else match token_reply w with
  | TransportFailure => (Raise RequestError, f)
  | ErrorReply status text None => (Raise JSONDecodeError, f)
  | ErrorReply status text (Some data) =>
      match error_fields text data with
      | None => (Raise AttributeError, f)
      | Some (error_code, error_message) =>
          if _is_revoked_refresh_error error_code error_message
          then (Raise (ValueError (_build_reauth_message a)),
                _clear_stored_refresh_token a (now_ms w) f)
          else (Raise (ValueError ("Token refresh failed: " +:+ text)), f)
      end
  | BadBody => (Raise JSONDecodeError, f)
  | TokenReplyOk token_data =>
      let access := default "" (td_access_token token_data) in
      let refreshed :=
        {| access_token := access;
           refresh_token := default (refresh_token a) (td_refresh_token token_data);
           expires_at := start_time w + default 3600%Q (td_expires_in token_data);
           account_id := opt_or (account_id a) (extract_account_id access);
           email := opt_or (email a) (extract_account_email access) |} in
      (Return refreshed, _upsert_codex_account refreshed (now_ms w) f)
  end.

End Refresh.

Definition set_active_codex_account (account_id : string) (f : File) : bool * File :=
  match load_codex_accounts f with
  | None => (false, f)
  | Some storage =>
      match storage_set_active "account_id" account_id storage with
      | Some storage' => (true, save_codex_accounts storage' f)
      | None => (false, f)
      end
  end.

Definition remove_codex_account (account_id : string) (f : File) : bool * File :=
  match load_codex_accounts f with
  | None => (false, f)
  | Some storage =>
      match storage_remove "account_id" account_id storage with
      | Some storage' => (true, save_codex_accounts storage' f)
      | None => (false, f)
      end
  end.

(** *** The other functions of codex_auth.py *)

(** [CodexAuth.to_dict] *)
Definition to_dict (self : CodexAuth) : dict :=
  list_to_map
    [("access_token", JStr (access_token self));
     ("refresh_token", JStr (refresh_token self));
     ("expires_at", JFloat (expires_at self));
     ("account_id", of_opt_str (account_id self));
     ("email", of_opt_str (email self))].

(** [CodexAuth.from_dict]; [None] when a field of [data] has a value
    outside its annotation. *)
Definition from_dict (data : dict) : option CodexAuth :=
  access_token ← as_str (dget_or "access_token" (JStr "") data);
  refresh_token ← as_str (dget_or "refresh_token" (JStr "") data);
  expires_at ← as_float (dget_or "expires_at" (JInt 0) data);
  account_id ← as_opt_str (dget "account_id" data);
  email ← as_opt_str (dget "email" data);
  Some (mkCodexAuth access_token refresh_token expires_at account_id email).

(** [load_codex_auth_from_storage], for accounts whose fields have the
    types the module writes (a string or null). *)
Definition load_codex_auth_from_storage (f : File) : option CodexAuth :=
  match load_codex_accounts f with
  | None => None
  | Some storage =>
      match get_active_account storage with
      | None => None
      | Some account =>
          if Nat.eqb (size account) 0 then None
          else Some {| access_token := "";
                       refresh_token :=
                         default "" (auth.opt_str_of (dget_or "refresh_token" (JStr "") account));
                       expires_at := 0;
                       account_id := auth.opt_str_of (dget "account_id" account);
                       email := auth.opt_str_of (dget "email" account) |}
      end
  end.

(** [list_codex_accounts] *)
Definition list_codex_accounts (f : File) : list dict :=
  match load_codex_accounts f with
  | None => []
  | Some storage =>
      imap (λ i acc, {[ "account_id" := dget_or "account_id" (JStr "Unknown") acc;
                        "email" := dget "email" acc;
                        "active" := JBool (Z.of_nat i =? active_index storage) ]})
        (accounts storage)
  end.

(** [CODEX_MODEL_MAPPINGS] (constants.py) *)
Definition CODEX_MODEL_MAPPINGS : gmap string string :=
  list_to_map
    [("gpt-5.2", "gpt-5.2");
     ("gpt-5.2-none", "gpt-5.2");
     ("gpt-5.2-low", "gpt-5.2");
     ("gpt-5.2-medium", "gpt-5.2");
     ("gpt-5.2-high", "gpt-5.2");
     ("gpt-5.2-xhigh", "gpt-5.2");
     ("gpt-5.2-codex", "gpt-5.2-codex");
     ("gpt-5.2-codex-low", "gpt-5.2-codex");
     ("gpt-5.2-codex-medium", "gpt-5.2-codex");
     ("gpt-5.2-codex-high", "gpt-5.2-codex");
     ("gpt-5.2-codex-xhigh", "gpt-5.2-codex");
     ("gpt-5.1-codex-max", "gpt-5.1-codex-max");
     ("gpt-5.1-codex-max-low", "gpt-5.1-codex-max");
     ("gpt-5.1-codex-max-medium", "gpt-5.1-codex-max");
     ("gpt-5.1-codex-max-high", "gpt-5.1-codex-max");
     ("gpt-5.1-codex-max-xhigh", "gpt-5.1-codex-max");
     ("gpt-5.1-codex", "gpt-5.1-codex");
     ("gpt-5.1-codex-low", "gpt-5.1-codex");
     ("gpt-5.1-codex-medium", "gpt-5.1-codex");
     ("gpt-5.1-codex-high", "gpt-5.1-codex");
     ("gpt-5.1-codex-mini", "gpt-5.1-codex-mini");
     ("gpt-5.1-codex-mini-medium", "gpt-5.1-codex-mini");
     ("gpt-5.1-codex-mini-high", "gpt-5.1-codex-mini");
     ("gpt-5.1", "gpt-5.1");
     ("gpt-5.1-none", "gpt-5.1");
     ("gpt-5.1-low", "gpt-5.1");
     ("gpt-5.1-medium", "gpt-5.1");
     ("gpt-5.1-high", "gpt-5.1");
     ("gpt-5-codex", "gpt-5.1-codex");
     ("gpt-5-codex-low", "gpt-5.1-codex");
     ("gpt-5-codex-medium", "gpt-5.1-codex");
     ("gpt-5-codex-high", "gpt-5.1-codex");
     ("gpt-5-codex-mini", "gpt-5.1-codex-mini");
     ("gpt-5", "gpt-5.1");
     ("gpt-5-none", "gpt-5.1");
     ("gpt-5-low", "gpt-5.1");
     ("gpt-5-medium", "gpt-5.1");
     ("gpt-5-high", "gpt-5.1");
     ("gpt-5-mini", "gpt-5.1");
     ("gpt-5-nano", "gpt-5.1");
     ("codex-mini-latest", "gpt-5.1-codex-mini")].

(** [normalize_codex_model] *)
Definition normalize_codex_model (model : string) : string :=
  default model (CODEX_MODEL_MAPPINGS !! model).

Section Jwt.

(** [decode_jwt]: the payload of the token, [None] when it returns [None]. *)
Variable decode_jwt : string → option JSON.

(** The claim that holds the account data. *)
Definition claim_path : string := "https://api.openai.com/auth".

(** [extract_account_id]; [JNull] is [None].  [.get] on a value that is
    no dict raises, and the function returns [None] then. *)
Definition extract_account_id (access_token : string) : JSON :=
  match decode_jwt access_token with
  | None => JNull
  | Some payload =>
      if negb (truthy payload) then JNull
      else match payload with
           | JObj payload =>
               match dget_or claim_path (JObj ∅) payload with
               | JObj auth_data => dget "chatgpt_account_id" auth_data
               | _ => JNull
               end
           | _ => JNull
           end
  end.

(** [candidates] of [extract_account_email] *)
Definition email_candidates (payload : dict) : list JSON :=
  [dget "email" payload; dget "preferred_username" payload;
   dget "upn" payload; dget "email_address" payload]
  ++ match dget_or claim_path (JObj ∅) payload with
     | JObj auth_data =>
         [dget "email" auth_data; dget "user_email" auth_data;
          dget "email_address" auth_data]
     | _ => []
     end.

(** [for value in candidates: ...] *)
Fixpoint first_email (candidates : list JSON) : option string :=
  match candidates with
  | [] => None
  | value :: candidates =>
      match value with
      | JStr value =>
          let cleaned := strip value in
          if negb (String.eqb cleaned "") && str_contains "@" cleaned
          then Some cleaned
          else first_email candidates
      | _ => first_email candidates
      end
  end.

(** [extract_account_email] *)
Definition extract_account_email (access_token : string) : option string :=
  match decode_jwt access_token with
  | None => None
  | Some payload =>
      if negb (truthy payload) then None
      else match payload with
           | JObj payload => first_email (email_candidates payload)
           | _ => None
           end
  end.

End Jwt.

End codex_auth.

(** ** copilot_auth.py: Copilot credentials, store and device-code polling *)

Module copilot_auth.

Import auth (Error, ValueError, RequestError, JSONDecodeError, AttributeError).

(** [OAUTH_POLLING_SAFETY_MARGIN_MS] *)
Definition OAUTH_POLLING_SAFETY_MARGIN_MS : Z := 3000.

Record CopilotAuth : Type := mkCopilotAuth {
  access_token : string;
  expires_at : Q;
  account_id : option string;
  login : option string;
  email : option string;
  provider : option string;
  enterprise_url : option string;
}.

(** [is_expired]: a falsy [expires_at] is never expired. *)
Definition is_expired (self : CopilotAuth) (buffer_seconds : Z) (now : Q) : bool :=
  if Qeq_bool (expires_at self) 0 then false
  else Qle_bool (expires_at self - inject_Z buffer_seconds) now.

Definition load_copilot_accounts (f : File) : option AccountStorage := read_file f.
Definition save_copilot_accounts (storage : AccountStorage) (f : File) : File :=
  GoodFile storage.

Definition set_active_copilot_account (account_id : string) (f : File) : bool * File :=
  match load_copilot_accounts f with
  | None => (false, f)
  | Some storage =>
      match storage_set_active "account_id" account_id storage with
      | Some storage' => (true, save_copilot_accounts storage' f)
      | None => (false, f)
      end
  end.

Definition remove_copilot_account (account_id : string) (f : File) : bool * File :=
  match load_copilot_accounts f with
  | None => (false, f)
  | Some storage =>
      match storage_remove "account_id" account_id storage with
      | Some storage' => (true, save_copilot_accounts storage' f)
      | None => (false, f)
      end
  end.

(** *** Device-code polling ([exchange_copilot_device_code]) *)

(** What one [client.post] on the access-token URL comes back with;
    [token_payload] is [response.json()], the empty dict when the body does
    not decode. *)
Inductive PollReply : Type :=
  | PollTransportFailure
  | PollHttpError (text : string)
  | PollPayload (token_payload : dict).

(** The end of one iteration of the [while True] loop.  [PollToken] stands
    for the branch taken on a truthy [access_token], which leaves the loop
    and builds the credential from the payload and the account profile. *)
Inductive PollStep : Type :=
  | PollRaise (e : Error)
  | PollToken (token_payload : dict)
  | PollSleep (seconds : Q) (interval_seconds : Z).

(** [isinstance(v, (int, float))], with the number it stands for
    ([bool] is a subclass of [int]). *)
Definition as_number (v : JSON) : option Q :=
  match v with
  | JInt z => Some (inject_Z z)
  | JFloat q => Some q
  | JBool b => Some (inject_Z (if b then 1 else 0))
  | _ => None
  end.

(** [int(x)] on a number: truncation towards zero. *)
Definition py_int (q : Q) : Z :=
  if Qle_bool 0 q then Qfloor q else Qceiling q.

(** [interval_seconds + (OAUTH_POLLING_SAFETY_MARGIN_MS / 1000)] *)
Definition sleep_time (interval_seconds : Z) : Q :=
  inject_Z interval_seconds + inject_Z OAUTH_POLLING_SAFETY_MARGIN_MS / 1000.

(** [max(1, int(interval or 5))] *)
Definition initial_interval (interval : Z) : Z :=
  Z.max 1 (if interval =? 0 then 5 else interval).

(** The interval chosen on [slow_down]. *)
Definition slow_down_interval (interval_seconds : Z) (token_payload : dict) : Z :=
  let new_interval := interval_seconds + 5 in
  let server_interval := dget "interval" token_payload in
  let new_interval :=
    match as_number server_interval with
    | Some q => if negb (Qle_bool q 0) then py_int q else new_interval
    | None => new_interval
    end in
  Z.max 1 new_interval.

Section Polling.

Variable repr : JSON → string.

(** One iteration of the loop. *)
Definition poll_step (interval_seconds : Z) (reply : PollReply) : PollStep :=
  match reply with
  | PollTransportFailure =>
      (* the message goes on with the URL and the transport error *)
      PollRaise (ValueError "Unable to reach GitHub token endpoint")
  | PollHttpError text => PollRaise (ValueError ("Token polling failed: " +:+ text))
  | PollPayload token_payload =>
      if truthy (dget "access_token" token_payload) then PollToken token_payload
      else
        let error_code := dget "error" token_payload in
        if py_eq_str error_code "authorization_pending" then
          PollSleep (sleep_time interval_seconds) interval_seconds
        else if py_eq_str error_code "slow_down" then
          let interval_seconds := slow_down_interval interval_seconds token_payload in
          PollSleep (sleep_time interval_seconds) interval_seconds
        else if truthy error_code then
          PollRaise (ValueError ("Device authorization failed: " +:+ py_str repr error_code))
        else PollSleep (sleep_time interval_seconds) interval_seconds
  end.

(** The outcome of the loop on a finite run of replies: how it left the
    loop, or that it is still polling, with the sleeps made so far. *)
Inductive PollResult : Type :=
  | Polled (slept : list Q) (how : PollStep)
  | StillPolling (slept : list Q) (interval_seconds : Z).

Fixpoint poll_loop (replies : list PollReply) (interval_seconds : Z) (slept : list Q)
  : PollResult :=
  match replies with
  | [] => StillPolling slept interval_seconds
  | reply :: replies =>
      match poll_step interval_seconds reply with
      | PollSleep seconds interval_seconds' =>
          poll_loop replies interval_seconds' (slept ++ [seconds])
      | how => Polled slept how
      end
  end.

(** [exchange_copilot_device_code], from the loop on. *)
Definition exchange_copilot_device_code (interval : Z) (replies : list PollReply)
  : PollResult :=
  poll_loop replies (initial_interval interval) [].

End Polling.

(** *** The other functions of copilot_auth.py *)

(** [COPILOT_API_BASE] (constants.py) *)
Definition COPILOT_API_BASE : string := "https://api.github.com".

(** [CopilotAuth.to_dict] *)
Definition to_dict (self : CopilotAuth) : dict :=
  list_to_map
    [("access_token", JStr (access_token self));
     ("expires_at", JFloat (expires_at self));
     ("account_id", of_opt_str (account_id self));
     ("login", of_opt_str (login self));
     ("email", of_opt_str (email self));
     ("provider", of_opt_str (provider self));
     ("enterprise_url", of_opt_str (enterprise_url self))].

(** [CopilotAuth.from_dict]; [None] when a field of [data] has a value
    outside its annotation. *)
Definition from_dict (data : dict) : option CopilotAuth :=
  access_token ← as_str (dget_or "access_token" (JStr "") data);
  expires_at ← as_float (dget_or "expires_at" (JInt 0) data);
  account_id ← as_opt_str (dget "account_id" data);
  login ← as_opt_str (dget "login" data);
  email ← as_opt_str (dget "email" data);
  provider ← as_opt_str (dget "provider" data);
  enterprise_url ← as_opt_str (py_or (dget "enterprise_url" data) (dget "enterpriseUrl" data));
  Some (mkCopilotAuth access_token expires_at account_id login email provider enterprise_url).

(** [load_copilot_auth_from_storage], for accounts whose fields have the
    types the module writes. *)
Definition load_copilot_auth_from_storage (f : File) : option CopilotAuth :=
  match load_copilot_accounts f with
  | None => None
  | Some storage =>
      match get_active_account storage with
      | None => None
      | Some account =>
          if Nat.eqb (size account) 0 then None
          else Some {| access_token :=
                         default "" (as_str (dget_or "access_token" (JStr "") account));
                       expires_at :=
                         default 0%Q (as_float (dget_or "expires_at" (JInt 0) account));
                       account_id := as_str (dget "account_id" account);
                       login := as_str (dget "login" account);
                       email := as_str (dget "email" account);
                       provider := as_str (dget "provider" account);
                       enterprise_url :=
                         as_str (py_or (dget "enterprise_url" account)
                                       (dget "enterpriseUrl" account)) |}
      end
  end.

(** [list_copilot_accounts] *)
Definition list_copilot_accounts (f : File) : list dict :=
  match load_copilot_accounts f with
  | None => []
  | Some storage =>
      imap (λ i acc, {[ "account_id" := dget_or "account_id" (JStr "unknown") acc;
                        "login" := dget "login" acc;
                        "email" := dget "email" acc;
                        "active" := JBool (Z.of_nat i =? active_index storage) ]})
        (accounts storage)
  end.

(** [normalize_domain] *)
Definition normalize_domain (url : string) : string :=
  let cleaned := strip (remove_all "http://" (remove_all "https://" url)) in
  let cleaned := before_first "/" cleaned in
  rstrip_char "/" cleaned.

(** [_resolve_copilot_domain] *)
Definition _resolve_copilot_domain (enterprise_url : option string) : string :=
  if truthy_opt enterprise_url then normalize_domain (default "" enterprise_url)
  else "github.com".

(** [_is_enterprise_domain] *)
Definition _is_enterprise_domain (domain : string) : bool :=
  negb (String.eqb domain "") && negb (String.eqb domain "github.com").

(** [_resolve_github_api_base] *)
Definition _resolve_github_api_base (domain : string) : string :=
  if String.eqb domain "" || String.eqb domain "github.com" then COPILOT_API_BASE
  else "https://" +:+ domain +:+ "/api/v3".

(** [a or b] on two fields typed [str | None]. *)
Definition opt_or (a b : option string) : option string :=
  if truthy_opt a then a else b.

(** The provider name and the enterprise URL stored for a domain. *)
Definition provider_of (domain : string) : string :=
  if _is_enterprise_domain domain then "github-copilot-enterprise" else "github-copilot".

Definition enterprise_of (domain : string) : option string :=
  if _is_enterprise_domain domain then Some domain else None.

Section Profile.

(** [str(v)] for a float or a container. *)
Variable repr : JSON → string.
(** [float(s)] on a string; [None] is [ValueError]. *)
Variable float_of_str : string → option Q.
(** [hashlib.sha256(token.encode("utf-8")).hexdigest()] *)
Variable sha256_hexdigest : string → string.

(** [float(v)], [None] when it raises [TypeError] or [ValueError]. *)
Definition py_float (v : JSON) : option Q :=
  match v with
  | JInt z => Some (inject_Z z)
  | JFloat q => Some q
  | JBool b => Some (inject_Z (if b then 1 else 0))
  | JStr s => float_of_str s
  | _ => None
  end.

(** [_parse_token_payload] *)
Definition _parse_token_payload (payload : dict) : JSON * Q :=
  let access_token := dget_or "access_token" (JStr "") payload in
  let expires_in := py_or (dget "expires_in" payload) (JInt 0) in
  (access_token, default 0%Q (py_float expires_in)).

(** [_pat_account_id] *)
Definition _pat_account_id (token : string) : string :=
  "pat-" +:+ String.substring 0 12 (sha256_hexdigest token).

(** [account_id], [login] and [email] as the two credential builders read
    them off the profile. *)
Definition profile_account_id (profile : dict) : option string :=
  match dget "id" profile with
  | JNull => None
  | v => Some (py_str repr v)
  end.

Definition profile_login (profile : dict) : option string := as_str (dget "login" profile).
Definition profile_email (profile : dict) : option string := as_str (dget "email" profile).

(** [copilot_auth_from_pat]; [profile] is what [_fetch_account_profile]
    returns for the token. *)
Definition copilot_auth_from_pat (token : option string) (enterprise_url : option string)
    (profile : dict) : Exc Error CopilotAuth :=
  let token := strip (default "" token) in
  if String.eqb token "" then Raise (ValueError "Missing PAT token")
  else
    let domain_value := _resolve_copilot_domain enterprise_url in
    let account_id := profile_account_id profile in
    let login := profile_login profile in
    let email := profile_email profile in
    let account_id :=
      if truthy_opt account_id then account_id
      else opt_or login (opt_or email (Some (_pat_account_id token))) in
    Return {| access_token := token;
              expires_at := 0;
              account_id := account_id;
              login := login;
              email := email;
              provider := Some (provider_of domain_value);
              enterprise_url := enterprise_of domain_value |}.

(** The credential [exchange_copilot_device_code] returns for a payload
    with a truthy [access_token]; [None] when that token is no string. *)
Definition device_code_auth (start_time : Q) (domain_value : string) (profile : dict)
    (token_payload : dict) : option CopilotAuth :=
  let '(access_token, expires_in) := _parse_token_payload token_payload in
  access_token ← as_str access_token;
  let account_id := profile_account_id profile in
  let login := profile_login profile in
  let email := profile_email profile in
  let account_id := if truthy_opt account_id then account_id else opt_or login email in
  Some {| access_token := access_token;
          expires_at := if Qeq_bool expires_in 0 then 0 else start_time + expires_in;
          account_id := account_id;
          login := login;
          email := email;
          provider := Some (provider_of domain_value);
          enterprise_url := enterprise_of domain_value |}.

End Profile.

(** The dict [copilot_interactive_login] stores for the credential. *)
Definition login_account (account_id : string) (a : CopilotAuth) (added_ms used_ms : Z)
  : dict :=
  list_to_map
    [("account_id", JStr account_id);
     ("access_token", JStr (access_token a));
     ("expires_at", JFloat (expires_at a));
     ("login", of_opt_str (login a));
     ("email", of_opt_str (email a));
     ("provider", of_opt_str (provider a));
     ("enterprise_url", of_opt_str (enterprise_url a));
     ("addedAt", JInt added_ms);
     ("lastUsed", JInt used_ms)].

(** [copilot_interactive_login] from the return of
    [exchange_copilot_device_code] on; [added_ms] and [used_ms] are the two
    readings of the clock. *)
Definition copilot_interactive_login (a : CopilotAuth) (added_ms used_ms : Z) (f : File)
  : CopilotAuth * File :=
  let storage := default (mkStorage 1 [] 0) (load_copilot_accounts f) in
  let account_id :=
    default "unknown" (opt_or (account_id a) (opt_or (login a) (opt_or (email a) (Some "unknown")))) in
  let payload := login_account account_id a added_ms used_ms in
  match index_where (λ acc, py_eq_str (dget "account_id" acc) account_id) (accounts storage) with
  | Some existing_idx =>
      (a, save_copilot_accounts
            {| version := version storage;
               accounts := <[existing_idx := payload]> (accounts storage);
               active_index := Z.of_nat existing_idx |} f)
  | None =>
      let accs := accounts storage ++ [payload] in
      (a, save_copilot_accounts {| version := version storage;
                                   accounts := accs;
                                   active_index := len accs - 1 |} f)
  end.

End copilot_auth.

(** ** chat_model.py: the Antigravity request executor *)

Module chat_model.

Import auth (AntigravityAuth, Error).

(** An endpoint is its base URL. *)
Abbreviation Endpoint := string.

(** The character U+2026 appended to a cut body. *)
Definition ellipsis : string := "…".

Section Executor.

(** [ChatResult], what [_parse_response] and [ChatResult(...)] build. *)
Variable R : Type.

(** A response of the model endpoint.
    - [retry_after]: [float(ra)] of the stripped [retry-after] header,
      [None] when the header is absent, blank or no number;
    - [text]: the body of the response, decoded;
    - [parsed]: [_parse_response(response.json())] wrapped in [ChatResult],
      [None] when one of the two raises;
    - [lines]: what [response.aiter_lines()] delivers, and [broken] when the
      iterator then raises a transport error instead of ending. *)
Record Response : Type := mkResponse {
  status_code : Z;
  retry_after : option Q;
  text : string;
  parsed : option R;
  lines : list string;
  broken : bool;
}.

(** What [client.post] / [client.stream] comes back with. *)
Inductive PostOutcome : Type :=
  | TransportError                (* httpx.RequestError *)
  | Responded (response : Response).

(** Everything outside the executor that one call of it reads.  Each oracle
    is asked at most once for each argument, so indexing by the outer
    attempt loses no run. *)
Record World : Type := mkWorld {
  endpoints : list Endpoint;        (* constants.ANTIGRAVITY_ENDPOINT_FALLBACKS *)
  project_override : option string; (* self.project_id or _env_project_override() *)
  load_auth_from_storage : option AntigravityAuth;
  now : nat → Q;                    (* time.time() in _ensure_auth of attempt k *)
  refresh_access_token : nat → AntigravityAuth → Exc Error AntigravityAuth;
                                    (* the refresh in _ensure_auth of attempt k *)
  post : nat → Endpoint → PostOutcome;
  forced_refresh : AntigravityAuth → Exc Error AntigravityAuth;
                                    (* the refresh after the first pass *)
  fetch_project_id : string → Exc Error string;
}.

(** What the executor did, in order. *)
Inductive Event : Type :=
  | EvPost (attempt : nat) (endpoint : Endpoint)
  | EvSleep (seconds : Q)
  | EvRefresh
  | EvFetchProject.

Inductive ExecError : Type :=
  | NoAuthentication                 (* ValueError: no authentication found *)
  | AuthError (e : Error)            (* raised by the refresh in _ensure_auth *)
  | ParseError                       (* response.json() or _parse_response raised *)
  | ChunkError                       (* decoding a streamed chunk raised *)
  | RequestFailed (code : Z) (statuses : gmap Endpoint Z) (body_snippet : string)
      (* RuntimeError: Antigravity request failed for all endpoints.
         Last status=code. Endpoint statuses: ... Response: body_snippet *)
  | AllEndpointsFailed (statuses : gmap Endpoint Z).
      (* RuntimeError: All Antigravity endpoints failed. Endpoint statuses: ... *)

(** The locals and [self.auth], plus what was yielded and done so far. *)
Record State : Type := mkState {
  self_auth : option AntigravityAuth;
  last_http_error : option Response;
  last_status_by_endpoint : gmap Endpoint Z;
  yielded : list JSON;
  trace : list Event;
}.

Definition log (e : Event) (st : State) : State :=
  {| self_auth := self_auth st; last_http_error := last_http_error st;
     last_status_by_endpoint := last_status_by_endpoint st;
     yielded := yielded st; trace := trace st ++ [e] |}.

Definition set_status (endpoint : Endpoint) (status : Z) (st : State) : State :=
  {| self_auth := self_auth st; last_http_error := last_http_error st;
     last_status_by_endpoint := <[endpoint := status]> (last_status_by_endpoint st);
     yielded := yielded st; trace := trace st |}.

Definition set_last_http_error (r : Response) (st : State) : State :=
  {| self_auth := self_auth st; last_http_error := Some r;
     last_status_by_endpoint := last_status_by_endpoint st;
     yielded := yielded st; trace := trace st |}.

Definition set_auth (a : option AntigravityAuth) (st : State) : State :=
  {| self_auth := a; last_http_error := last_http_error st;
     last_status_by_endpoint := last_status_by_endpoint st;
     yielded := yielded st; trace := trace st |}.

Definition yield_all (chunks : list JSON) (st : State) : State :=
  {| self_auth := self_auth st; last_http_error := last_http_error st;
     last_status_by_endpoint := last_status_by_endpoint st;
     yielded := yielded st ++ chunks; trace := trace st |}.

Definition initial_state (a : option AntigravityAuth) : State :=
  {| self_auth := a; last_http_error := None; last_status_by_endpoint := ∅;
     yielded := []; trace := [] |}.

(** [_retry_after_seconds] (chat_model_helpers.py) *)
Definition _retry_after_seconds (response : Response) (default : Q) : Q :=
  match retry_after response with
  | Some seconds => if Qle_bool 0 seconds then seconds else default
  | None => default
  end.

(** [min(cap, x)] on floats *)
Definition qmin (cap x : Q) : Q := if Qle_bool cap x then cap else x.

(** [min(8.0, 0.5 * (2**attempt))] *)
Definition backoff_base (attempt : nat) : Q :=
  qmin 8 ((1 # 2) * inject_Z (2 ^ Z.of_nat attempt)).

(** [min(10.0, 1.0 * (2**attempt))] *)
Definition rate_limit_backoff (attempt : nat) : Q :=
  qmin 10 (inject_Z (2 ^ Z.of_nat attempt)).

(** [response.raise_for_status()] raises unless the status is 2xx. *)
Definition is_success (status : Z) : bool := (200 <=? status) && (status <? 300).

(** [any(P(status) for status in last_status_by_endpoint.values())] *)
Definition any_status (P : Z → bool) (m : gmap Endpoint Z) : bool :=
  bool_decide (map_Exists (λ _ status, Is_true (P status)) m).

(** [ChatAntigravity._ensure_auth]; the second component is [self.auth]
    afterwards. *)
Definition _ensure_auth (w : World) (attempt : nat) (self_auth : option AntigravityAuth)
  : Exc ExecError AntigravityAuth * option AntigravityAuth :=
  let self_auth := match self_auth with
                   | None => load_auth_from_storage w
                   | Some a => Some a
                   end in
  match self_auth with
  | None => (Raise NoAuthentication, None)
  | Some a =>
      if auth.is_expired a 60 (now w attempt) then
        match refresh_access_token w attempt a with
        | Return a' => (Return a', Some a')
        | Raise e => (Raise (AuthError e), Some a)
        end
      else (Return a, Some a)
  end.

(** How the code under a successful status ends: it returns, it raises, or
    a transport error cut the stream, which [except httpx.RequestError]
    turns into the next endpoint. *)
Inductive Handled : Type :=
  | HReturn (r : R)
  | HRaise (e : ExecError)
  | HNextEndpoint.

(** The code under a successful status: what it yields and how it ends. *)
Variable on_success : Response → list JSON * Handled.

(** [for endpoint in constants.ANTIGRAVITY_ENDPOINT_FALLBACKS: ...]; the
    result is [None] when the loop runs out of endpoints. *)
Fixpoint endpoint_pass (w : World) (attempt : nat) (todo : list Endpoint) (st : State)
  : State * option (Exc ExecError R) :=
  match todo with
  | [] => (st, None)
  | endpoint :: todo =>
      let st := log (EvPost attempt endpoint) st in
      match post w attempt endpoint with
      | TransportError => endpoint_pass w attempt todo st
      | Responded response =>
          let status := status_code response in
          let st := set_status endpoint status st in
          if (status =? 429) || (500 <=? status) then
            let st := log (EvSleep (_retry_after_seconds response (backoff_base attempt))) st in
            endpoint_pass w attempt todo st
          else if existsb (Z.eqb status) [401; 403; 404] then
            endpoint_pass w attempt todo (set_last_http_error response st)
          else if is_success status then
            let '(chunks, how) := on_success response in
            let st := yield_all chunks st in
            match how with
            | HReturn r => (st, Some (Return r))
            | HRaise e => (st, Some (Raise e))
            | HNextEndpoint => endpoint_pass w attempt todo st
            end
          else
            (* except httpx.HTTPStatusError as e *)
            let st := set_last_http_error response st in
            if existsb (Z.eqb status) [429; 500; 502; 503; 504] then
              let st := log (EvSleep (_retry_after_seconds response (backoff_base attempt))) st in
              endpoint_pass w attempt todo st
            else endpoint_pass w attempt todo st
      end
  end.

(** [_resolve_auth_project_id] (chat_model_helpers.py) *)
Definition _resolve_auth_project_id (a : option AntigravityAuth) : option string :=
  match a with
  | None => None
  | Some a => if truthy_opt (auth.project_id a) then auth.project_id a
              else auth.managed_project_id a
  end.

Definition set_project_id (p : string) (a : AntigravityAuth) : AntigravityAuth :=
  {| auth.access_token := auth.access_token a;
     auth.refresh_token := auth.refresh_token a;
     auth.expires_at := auth.expires_at a;
     auth.email := auth.email a;
     auth.project_id := Some p;
     auth.managed_project_id := auth.managed_project_id a |}.

(** The block under [if attempt == 0:]; the boolean is [did_retry]. *)
Definition first_pass_recovery (w : World) (st : State) : State * bool :=
  let '(st, did_retry) :=
    match last_http_error st with
    | Some e =>
        if existsb (Z.eqb (status_code e)) [401; 403] then
          match self_auth st with
          | Some a =>
              let st := log EvRefresh st in
              match forced_refresh w a with
              | Return a' => (set_auth (Some a') st, true)
              | Raise _ => (st, false)
              end
          | None => (st, false)
          end
        else (st, false)
    | None => (st, false)
    end in
  let auth_project := _resolve_auth_project_id (self_auth st) in
  let needs_project_refresh :=
    negb did_retry
    && negb (truthy_opt (project_override w))
    && bool_decide (is_Some (self_auth st))
    && (negb (truthy_opt auth_project)
        || py_eq_opt (of_opt_str auth_project) (Some auth.ANTIGRAVITY_DEFAULT_PROJECT_ID))
    && any_status (λ status, existsb (Z.eqb status) [403; 429])
                  (last_status_by_endpoint st) in
  match needs_project_refresh, self_auth st with
  | true, Some a =>
      let st := log EvFetchProject st in
      match fetch_project_id w (auth.access_token a) with
      | Return project_id =>
          if negb (String.eqb project_id "")
          then (set_auth (Some (set_project_id project_id a)) st, true)
          else (st, did_retry)
      | Raise _ => (st, did_retry)
      end
  | _, _ => (st, did_retry)
  end.

(** Whether the requests are made with [client.stream] ([_astream]) or
    with [client.post] ([_agenerate]). *)
Variable streamed : bool.

(** [_read_response_text] on the response of the last HTTP status error,
    below the attempt loop.  [client.post] has read the body, and
    [response.text or ""] is that body.  A response of [client.stream] was
    closed unread when its [async with] block was left: [response.text]
    raises [ResponseNotRead], [response.aread()] raises in turn, and the
    result is the empty string. *)
Definition _read_response_text (response : Response) : string :=
  if streamed then "" else text response.

(** [body_snippet] of the aggregated error: the stripped text, cut after
    500 characters. *)
Definition body_snippet (text : string) : string :=
  let body_snippet := strip text in
  if (500 <? Z.of_nat (py_len body_snippet))
  then py_take 500 body_snippet +:+ ellipsis
  else body_snippet.

(** The text under the attempt loop: the aggregated error. *)
Definition final_error (st : State) : ExecError :=
  let details := last_status_by_endpoint st in
  match last_http_error st with
  | Some e =>
      let code := if any_status (λ status, status =? 429) details
                  then 429 else status_code e in
      RequestFailed code details (body_snippet (_read_response_text e))
  | None => AllEndpointsFailed details
  end.

(** [for attempt in range(4): ...] from [attempt] on, [n] iterations left,
    then the aggregated error. *)
Fixpoint attempts (w : World) (n : nat) (attempt : nat) (st : State)
  : State * Exc ExecError R :=
  match n with
  | O => (st, Raise (final_error st))
  | S n =>
      match _ensure_auth w attempt (self_auth st) with
      | (Raise e, a) => (set_auth a st, Raise e)
      | (Return _, a) =>
          let st := set_auth a st in
          match endpoint_pass w attempt (endpoints w) st with
          | (st, Some result) => (st, result)
          | (st, None) =>
              let '(st, did_retry) :=
                if Nat.eqb attempt 0 then first_pass_recovery w st else (st, false) in
              if did_retry then attempts w n (S attempt) st
              else if any_status (λ status, status =? 429) (last_status_by_endpoint st) then
                attempts w n (S attempt) (log (EvSleep (rate_limit_backoff attempt)) st)
              else attempts w n (S attempt) st
          end
      end
  end.

(** The executor: four outer attempts starting from [self.auth = a]. *)
Definition executor (w : World) (a : option AntigravityAuth) : State * Exc ExecError R :=
  attempts w 4 0 (initial_state a).

End Executor.

Arguments mkResponse {R}.
Arguments status_code {R}.
Arguments retry_after {R}.
Arguments text {R}.
Arguments parsed {R}.
Arguments lines {R}.
Arguments broken {R}.
Arguments TransportError {R}.
Arguments Responded {R}.
Arguments mkWorld {R}.
Arguments endpoints {R}.
Arguments project_override {R}.
Arguments load_auth_from_storage {R}.
Arguments now {R}.
Arguments refresh_access_token {R}.
Arguments post {R}.
Arguments forced_refresh {R}.
Arguments fetch_project_id {R}.
Arguments mkState {R}.
Arguments self_auth {R}.
Arguments last_http_error {R}.
Arguments last_status_by_endpoint {R}.
Arguments yielded {R}.
Arguments trace {R}.
Arguments log {R}.
Arguments set_status {R}.
Arguments set_last_http_error {R}.
Arguments set_auth {R}.
Arguments yield_all {R}.
Arguments initial_state {R}.
Arguments _retry_after_seconds {R}.
Arguments _ensure_auth {R}.
Arguments HReturn {R}.
Arguments HRaise {R}.
Arguments HNextEndpoint {R}.
Arguments endpoint_pass {R}.
Arguments first_pass_recovery {R}.
Arguments _read_response_text {R}.
Arguments final_error {R}.
Arguments attempts {R}.
Arguments executor {R}.

(** *** The two methods built on the executor

    [_agenerate] and [_astream] are the same text up to the URL suffix, one
    header and the code under a successful status. *)

(** [_agenerate]: parse and return. *)
Definition generate_on_success {R} (response : Response R) : list JSON * Handled R :=
  ([], match parsed response with
       | Some result => HReturn result
       | None => HRaise ParseError
       end).

Definition _agenerate {R} (w : World R) (a : option AntigravityAuth)
  : State R * Exc ExecError R :=
  executor generate_on_success false w a.

Section Streaming.

(** [json.loads]; [None] is [json.JSONDecodeError]. *)
Variable json_loads : string → option JSON.
(** Whether [AIMessageChunk(content=v)] accepts [v]. *)
Variable valid_content : JSON → bool.

(** ["text" in part]; [None] is the [TypeError] of a value that is no
    container. *)
Definition has_text (part : JSON) : option bool :=
  match part with
  | JObj m => Some (bool_decide (is_Some (m !! "text")))
  | JStr s => Some (str_contains "text" s)
  | JArr l => Some (existsb (λ x, py_eq_str x "text") l)
  | _ => None
  end.

(** [for part in parts: ...]: the contents yielded, and whether the loop
    raised. *)
Fixpoint parts_loop (parts : list JSON) : list JSON * bool :=
  match parts with
  | [] => ([], false)
  | part :: rest =>
      match has_text part with
      | None => ([], true)
      | Some false => parts_loop rest
      | Some true =>
          match part with
          | JObj m =>
              if truthy (dget "thought" m) then parts_loop rest
              else
                let content := dget "text" m in
                if valid_content content
                then let '(chunks, raised) := parts_loop rest in (content :: chunks, raised)
                else ([], true)
          | _ => ([], true) (* .get on a str or a list *)
          end
      end
  end.

(** What [for part in parts] iterates over; [None] when [parts] is not
    iterable. *)
Definition iter_parts (parts : JSON) : option (list JSON) :=
  match parts with
  | JArr l => Some l
  | JStr s => Some (JStr <$> py_chars s)
  | JObj m => Some (JStr <$> (map_to_list m).*1)
  | _ => None
  end.

(** The body of the [try] for one decoded chunk. *)
Definition decode_chunk (chunk_data : JSON) : list JSON * bool :=
  match chunk_data with
  | JObj cd =>
      match dget_or "response" chunk_data cd with
      | JObj inner =>
          let candidates := dget_or "candidates" (JArr []) inner in
          if truthy candidates then
            match candidates with
            | JArr (JObj candidate :: _) =>
                match dget_or "content" (JObj ∅) candidate with
                | JObj content =>
                    match iter_parts (dget_or "parts" (JArr []) content) with
                    | Some parts => parts_loop parts
                    | None => ([], true)
                    end
                | _ => ([], true)
                end
            | _ => ([], true)
            end
          else ([], false)
      | _ => ([], true)
      end
  | _ => ([], true)
  end.

(** [line[6:]] *)
Definition after_prefix (line : string) : string :=
  String.substring 6 (String.length line - 6) line.

(** How [async for line in response.aiter_lines()] ends. *)
Inductive StreamEnd : Type :=
  | SawDone      (* the completion marker [DONE] *)
  | Ended        (* the lines ran out *)
  | ChunkRaised. (* decoding raised something other than JSONDecodeError *)

Fixpoint stream_lines (todo : list string) : list JSON * StreamEnd :=
  match todo with
  | [] => ([], Ended)
  | line :: todo =>
      if String.prefix "data: " line then
        let data := after_prefix line in
        if String.eqb data "[DONE]" then ([], SawDone)
        else match json_loads data with
             | None => stream_lines todo
             | Some chunk_data =>
                 let '(chunks, raised) := decode_chunk chunk_data in
                 if raised then (chunks, ChunkRaised)
                 else let '(more, how) := stream_lines todo in (chunks ++ more, how)
             end
      else stream_lines todo
  end.

(** [_astream] under a successful status. *)
Definition stream_on_success (response : Response unit) : list JSON * Handled unit :=
  let '(chunks, how) := stream_lines (lines response) in
  (chunks, match how with
           | SawDone => HReturn ()
           | ChunkRaised => HRaise ChunkError
           | Ended => if broken response then HNextEndpoint else HReturn ()
           end).

(** [_astream]: the chunks it yields are [yielded] of the final state. *)
Definition _astream (w : World unit) (a : option AntigravityAuth)
  : State unit * Exc ExecError unit :=
  executor stream_on_success true w a.

End Streaming.

End chat_model.

(** ** codex_chat_model.py: the Codex streaming call *)

Module codex_chat_model.

Import auth (Error).

(** A response of [client.stream]: [lines] is what [aiter_lines] delivers. *)
Record Response : Type := mkResponse {
  status_code : Z;
  text : string;
  lines : list string;
}.

Inductive CodexError : Type :=
  | AuthError (e : Error)       (* raised by _ensure_auth or by the recovery *)
  | CloudflareBlocked           (* RuntimeError: blocked by Cloudflare *)
  | ApiError (status : Z)       (* RuntimeError: Codex API error: status - text *)
  | ErrorBodyRaised             (* TypeError out of reading the error body *)
  | EventError                  (* decoding an event raised *)
  | UnauthorizedAfterRefresh    (* RuntimeError: unauthorized after token refresh *)
  | EndedBeforeCompletion.      (* RuntimeError: stream ended unexpectedly
                                   before completion event *)

(** [response.is_success] *)
Definition is_success (status : Z) : bool := (200 <=? status) && (status <? 300).

(** [_is_cloudflare_challenge] *)
Definition _is_cloudflare_challenge (status : Z) (text : string) : bool :=
  existsb (Z.eqb status) [403; 429]
  && (str_contains "cdn-cgi/challenge" text
      || str_contains "Enable JavaScript and cookies" text).

Section Streaming.

Variable json_loads : string → option JSON.

(** [isinstance(v, str) and v] *)
Definition nonempty_str (v : JSON) : option string :=
  match v with
  | JStr s => if String.eqb s "" then None else Some s
  | _ => None
  end.

(** [for block in content: ...] of an output-item delta. *)
Fixpoint blocks_loop (blocks : list JSON) : list string :=
  match blocks with
  | [] => []
  | JObj block :: rest =>
      let dtype := dget "type" block in
      if py_eq_str dtype "output_text" || py_eq_str dtype "text" then
        match nonempty_str (py_or (dget "text" block) (dget "value" block)) with
        | Some text => text :: blocks_loop rest
        | None => blocks_loop rest
        end
      else blocks_loop rest
  | _ :: rest => blocks_loop rest
  end.

(** The body of the [try] for one decoded event: the texts yielded, or
    [None] when [.get] is called on a value that is no dict. *)
Definition decode_event (chunk_data : JSON) : option (list string) :=
  match chunk_data with
  | JObj cd =>
      let evt_type := dget "type" cd in
      let delta_text :=
        if py_eq_str evt_type "response.output_text.delta"
           || py_eq_str evt_type "response.output_text.fragment"
        then nonempty_str (py_or (dget "delta" cd) (dget "text" cd))
        else None in
      match delta_text with
      | Some text => Some [text]
      | None =>
          if py_eq_str evt_type "response.output_item.delta" then
            match dget "delta" cd with
            | JObj delta =>
                match dget "content" delta with
                | JArr content => Some (blocks_loop content)
                | _ => Some []
                end
            | _ => Some []
            end
          else Some []
      end
  | _ => None
  end.

Inductive StreamEnd : Type :=
  | SawDone
  | Ended
  | EventRaised.

(** [async for line in response.aiter_lines()]: the texts yielded and how
    the loop ends.  [saw_any_delta] is set exactly when a text is yielded. *)
Fixpoint stream_lines (todo : list string) : list string * StreamEnd :=
  match todo with
  | [] => ([], Ended)
  | line :: todo =>
      if String.prefix "data: " line then
        let data := chat_model.after_prefix line in
        if String.eqb data "[DONE]" then ([], SawDone)
        else match json_loads data with
             | None => stream_lines todo
             | Some chunk_data =>
                 match decode_event chunk_data with
                 | None => ([], EventRaised)
                 | Some texts =>
                     let '(more, how) := stream_lines todo in (texts ++ more, how)
                 end
             end
      else stream_lines todo
  end.

(** The code of [_astream] under [async with client.stream(...)] for a
    successful response, given [saw_any_delta] so far. *)
Definition consume (saw_any_delta : bool) (response : Response)
  : list string * Exc CodexError () :=
  let '(texts, how) := stream_lines (lines response) in
  let saw_any_delta := saw_any_delta || negb (Nat.eqb (length texts) 0) in
  (texts, match how with
          | SawDone => Return ()
          | EventRaised => Raise EventError
          | Ended => if saw_any_delta then Return () else Raise EndedBeforeCompletion
          end).

(** Whether the [try] that reads the error body raises what its [except]
    does not catch.  A body that is no JSON is skipped, and so is a dict,
    with or without the key.  Of the other values, [None], a bool and a
    number raise a [TypeError] at ["error" in error_data]; a string or a
    list that holds "error" passes the test and raises it at
    [error_data["error"]]. *)
Definition error_body_raises (error_text : string) : bool :=
  match json_loads error_text with
  | None => false
  | Some (JObj _) => false
  | Some (JStr s) => str_contains "error" s
  | Some (JArr l) => existsb (λ x, py_eq_str x "error") l
  | Some _ => true
  end.

(** [for attempt in range(2): ...] of [_astream], then the two raises below
    the loop.  [respond k] is the response of attempt [k] and [recover] the
    outcome of [_recover_after_unauthorized]. *)
Fixpoint stream_attempts (respond : nat → Response) (recover : Exc Error ())
    (n attempt : nat) (unauthorized_retry_attempted saw_any_delta : bool)
  : list string * Exc CodexError () :=
  match n with
  | O => ([], Raise (if unauthorized_retry_attempted
                     then UnauthorizedAfterRefresh else EndedBeforeCompletion))
  | S n =>
      let response := respond attempt in
      if negb (is_success (status_code response)) then
        if _is_cloudflare_challenge (status_code response) (text response)
        then ([], Raise CloudflareBlocked)
        else if (status_code response =? 401) && Nat.eqb attempt 0 then
          match recover with
          | Raise e => ([], Raise (AuthError e))
          | Return _ => stream_attempts respond recover n (S attempt) true saw_any_delta
          end
        else if error_body_raises (text response) then ([], Raise ErrorBodyRaised)
        else ([], Raise (ApiError (status_code response)))
      else consume saw_any_delta response
  end.

(** [ChatCodex._astream]; [ensured] is the outcome of [_ensure_auth]. *)
Definition _astream (ensured : Exc Error ()) (respond : nat → Response)
    (recover : Exc Error ()) : list string * Exc CodexError () :=
  match ensured with
  | Raise e => ([], Raise (AuthError e))
  | Return _ => stream_attempts respond recover 2 0 false false
  end.

End Streaming.

End codex_chat_model.

(** ** chat_model_helpers.py: what depends on the model name *)

Module chat_model_helpers.

(** [THINKING_BUDGETS] (constants.py) *)
Definition THINKING_BUDGETS : gmap string Z :=
  list_to_map [("low", 8000); ("medium", 16000); ("high", 32000)].

(** [_env_project_override]; [env_project] is
    [constants.ANTIGRAVITY_PROJECT_ID]. *)
Definition _env_project_override (env_project : option string) : option string :=
  if negb (truthy_opt env_project) then None
  else if py_eq_opt (of_opt_str env_project) (Some auth.ANTIGRAVITY_DEFAULT_PROJECT_ID)
       then None
       else env_project.

(** [is_claude_model] *)
Definition is_claude_model (model : string) : bool :=
  str_contains "claude" (lower model).

(** [is_thinking_model] *)
Definition is_thinking_model (model : string) : bool :=
  let lower := lower model in
  str_contains "thinking" lower || str_contains "gemini-3" lower.

(** [get_thinking_config]; a key of [THINKING_BUDGETS] is always found. *)
Definition get_thinking_config (model : string) : option dict :=
  let lower := lower model in
  if str_contains "claude" lower && str_contains "thinking" lower then
    let budget :=
      if str_contains "low" lower then default 0 (THINKING_BUDGETS !! "low")
      else if str_contains "high" lower || str_contains "max" lower
           then default 0 (THINKING_BUDGETS !! "high")
           else default 0 (THINKING_BUDGETS !! "medium") in
    Some {[ "thinking_budget" := JInt budget; "include_thoughts" := JBool true ]}
  else if str_contains "gemini-3" lower then
    let level :=
      if str_contains "flash" lower then "minimal"
      else if str_contains "high" lower then "high"
      else "low" in
    Some {[ "includeThoughts" := JBool true; "thinkingLevel" := JStr level ]}
  else None.

(** [get_header_style] *)
Definition get_header_style (model : string) : string :=
  let lower := lower model in
  if String.prefix "antigravity-" lower || str_contains "claude" lower then "antigravity"
  else if str_contains "preview" lower || String.prefix "gemini-2." lower
          || String.prefix "gemini-3-" lower
       then "gemini-cli"
       else if str_contains "gemini-3" lower then "antigravity"
            else "gemini-cli".

End chat_model_helpers.

(** ** usage_helpers.py: token counts of a response *)

Module usage_helpers.

Import auth (Error, AttributeError).

Section Usage.

(** [int(s)] on a string; [None] is [ValueError]. *)
Variable int_of_str : string → option Z.

(** [_coerce_int]; [None] when [int(value)] raises [TypeError] or
    [ValueError]. *)
Definition _coerce_int (value : JSON) : option Z :=
  match value with
  | JInt z => Some z
  | JBool b => Some (if b then 1 else 0)
  | JFloat q => Some (copilot_auth.py_int q)
  | JStr s => int_of_str s
  | _ => None
  end.

(** The five counts [_extract_usage_metadata] returns. *)
Definition usage_counts (prompt_tokens completion_tokens total_tokens : Z) : gmap string Z :=
  list_to_map
    [("input_tokens", prompt_tokens);
     ("output_tokens", completion_tokens);
     ("total_tokens", total_tokens);
     ("prompt_tokens", prompt_tokens);
     ("completion_tokens", completion_tokens)].

(** [_extract_usage_metadata]; [.get] on an [inner] that is no dict
    raises. *)
Definition _extract_usage_metadata (response_data : dict)
  : Exc Error (gmap string Z * dict) :=
  match dget_or "response" (JObj response_data) response_data with
  | JObj inner =>
      let usage :=
        py_or (dget "usageMetadata" inner)
          (py_or (dget "usage" inner) (py_or (dget "usage_metadata" inner) (JObj ∅))) in
      match usage with
      | JObj usage =>
          let prompt :=
            _coerce_int
              (py_or (dget "promptTokenCount" usage)
                 (py_or (dget "prompt_tokens" usage)
                    (py_or (dget "input_tokens" usage)
                       (py_or (dget "promptTokens" usage)
                          (dget "prompt_token_count" usage))))) in
          let completion :=
            _coerce_int
              (py_or (dget "candidatesTokenCount" usage)
                 (py_or (dget "candidates_tokens" usage)
                    (py_or (dget "output_tokens" usage)
                       (py_or (dget "completion_tokens" usage)
                          (dget "candidate_tokens" usage))))) in
          let total :=
            _coerce_int
              (py_or (dget "totalTokenCount" usage)
                 (py_or (dget "total_tokens" usage) (dget "totalTokenCount" usage))) in
          let total :=
            match total, prompt, completion with
            | None, Some prompt, Some completion => Some (prompt + completion)
            | _, _, _ => total
            end in
          match prompt, completion, total with
          | None, None, None => Return (∅, usage)
          | _, _, _ =>
              let prompt_tokens := default 0 prompt in
              let completion_tokens := default 0 completion in
              let total_tokens := default (prompt_tokens + completion_tokens) total in
              Return (usage_counts prompt_tokens completion_tokens total_tokens, usage)
          end
      | _ => Return (∅, ∅)
      end
  | _ => Raise AttributeError
  end.

End Usage.

(** [a or b] when [a] is an int or [None]. *)
Definition int_or (a : option Z) (b : Z) : Z :=
  match a with
  | Some z => if z =? 0 then b else z
  | None => b
  end.

(** The three counts [_normalize_token_usage] returns. *)
Definition token_usage (prompt completion total : Z) : gmap string Z :=
  list_to_map
    [("prompt_tokens", prompt); ("completion_tokens", completion); ("total_tokens", total)].

(** [_normalize_token_usage] *)
Definition _normalize_token_usage (usage_meta : gmap string Z) : gmap string Z :=
  let prompt := int_or (usage_meta !! "prompt_tokens") (int_or (usage_meta !! "input_tokens") 0) in
  let completion :=
    int_or (usage_meta !! "completion_tokens") (int_or (usage_meta !! "output_tokens") 0) in
  let total := int_or (usage_meta !! "total_tokens") (prompt + completion) in
  token_usage prompt completion total.

End usage_helpers.

(** ** chat_message_utils.py: messages in the Antigravity format *)

Module chat_message_utils.

(** What the conversion can raise. *)
Inductive Error : Type :=
  | AttributeError        (* .get or .startswith on a value without it *)
  | IndexError.           (* [1] on a split with one piece *)

(** [content: str | list[Any]] *)
Inductive Content : Type :=
  | Text (s : string)
  | Items (items : list JSON).

(** The content as a value, where the code stores or tests it as it is. *)
Definition content_value (content : Content) : JSON :=
  match content with
  | Text s => JStr s
  | Items items => JArr items
  end.

(** What follows the first [sep] in [s]; [None] when [sep] does not occur. *)
Fixpoint after_first (sep : ascii) (s : string) : option string :=
  match s with
  | EmptyString => None
  | String c s' => if Ascii.eqb c sep then Some s' else after_first sep s'
  end.

(** [s.split(sep)[1]]; [None] is [IndexError]. *)
Definition split_second (sep : ascii) (s : string) : option string :=
  rest ← after_first sep s; Some (before_first sep rest).

(** [{"text": v}] *)
Definition text_part (v : JSON) : JSON := JObj {[ "text" := v ]}.

(** [{"inlineData": {"mimeType": mime_type, "data": data}}] *)
Definition inline_data_part (mime_type data : string) : JSON :=
  JObj {[ "inlineData" :=
            JObj (<[ "mimeType" := JStr mime_type ]> {[ "data" := JStr data ]}) ]}.

(** The body of the loop of [convert_content]: the parts [item] adds. *)
Definition convert_item (item : JSON) : Exc Error (list JSON) :=
  match item with
  | JStr s => Return [text_part (JStr s)]
  | JObj item =>
      if py_eq_str (dget "type" item) "text" then
        Return [text_part (dget_or "text" (JStr "") item)]
      else if py_eq_str (dget "type" item) "image_url" then
        match dget_or "image_url" (JObj ∅) item with
        | JObj image_url =>
            match dget_or "url" (JStr "") image_url with
            | JStr url =>
                if String.prefix "data:" url then
                  match split_second ":" (before_first ";" url) with
                  | Some mime_type =>
                      match split_second "," url with
                      | Some data => Return [inline_data_part mime_type data]
                      | None => Raise IndexError
                      end
                  | None => Raise IndexError
                  end
                else Return []
            | _ => Raise AttributeError
            end
        | _ => Raise AttributeError
        end
      else Return []
  | _ => Return []
  end.

(** [for item in content: ...], from the parts collected so far. *)
Fixpoint convert_items (items : list JSON) (parts : list JSON) : Exc Error (list JSON) :=
  match items with
  | [] => Return parts
  | item :: items =>
      match convert_item item with
      | Return added => convert_items items (parts ++ added)
      | Raise e => Raise e
      end
  end.

(** [convert_content] *)
Definition convert_content (content : Content) : Exc Error (list JSON) :=
  match content with
  | Text s => Return [text_part (JStr s)]
  | Items items =>
      match convert_items items [] with
      | Return parts =>
          Return (match parts with [] => [text_part (JStr "")] | _ => parts end)
      | Raise e => Raise e
      end
  end.

(** A tool call of an [AIMessage]. *)
Record ToolCall : Type := mkToolCall {
  tc_name : string;
  tc_args : dict;
  tc_id : option string;
}.

(** The messages [convert_messages] tells apart; [OtherMessage] is any
    other [BaseMessage]. *)
Inductive Message : Type :=
  | SystemMessage (content : Content)
  | HumanMessage (content : Content)
  | AIMessage (content : Content) (tool_calls : list ToolCall)
  | ToolMessage (content : Content) (name : option string) (tool_call_id : string)
  | OtherMessage.

(** [{"role": role, "parts": parts}] *)
Definition turn (role : string) (parts : list JSON) : JSON :=
  JObj (<[ "role" := JStr role ]> {[ "parts" := JArr parts ]}).

(** [{"functionCall": {"name": ..., "args": ..., "id": ...}}] *)
Definition function_call_part (tool_call : ToolCall) : JSON :=
  JObj {[ "functionCall" :=
            JObj (<[ "name" := JStr (tc_name tool_call) ]>
                  (<[ "args" := JObj (tc_args tool_call) ]>
                   {[ "id" := of_opt_str (tc_id tool_call) ]})) ]}.

(** [{"functionResponse": {"name": ..., "response": {"result": ...}, "id": ...}}] *)
Definition function_response_part (name : option string) (content : Content)
    (tool_call_id : string) : JSON :=
  JObj {[ "functionResponse" :=
            JObj (<[ "name" := JStr (match name with
                                     | Some n => if String.eqb n "" then "unknown" else n
                                     | None => "unknown"
                                     end) ]>
                  (<[ "response" := JObj {[ "result" := content_value content ]} ]>
                   {[ "id" := JStr tool_call_id ]})) ]}.

(** The body of the loop of [convert_messages], on [contents] and
    [system_instruction]. *)
Definition convert_message (msg : Message) (contents : list JSON)
    (system_instruction : option JSON) : Exc Error (list JSON * option JSON) :=
  match msg with
  | SystemMessage content =>
      Return (contents, Some (JObj {[ "parts" := JArr [text_part (content_value content)] ]}))
  | HumanMessage content =>
      match convert_content content with
      | Return parts => Return (contents ++ [turn "user" parts], system_instruction)
      | Raise e => Raise e
      end
  | AIMessage content tool_calls =>
      let parts := [] in
      let parts :=
        if truthy (content_value content) then parts ++ [text_part (content_value content)]
        else parts in
      let parts :=
        match tool_calls with
        | [] => parts
        | _ => parts ++ map function_call_part tool_calls
        end in
      Return (contents ++ [turn "model" parts], system_instruction)
  | ToolMessage content name tool_call_id =>
      Return (contents ++ [turn "user" [function_response_part name content tool_call_id]],
              system_instruction)
  | OtherMessage => Return (contents, system_instruction)
  end.

(** [for msg in messages: ...] *)
Fixpoint convert_messages_from (messages : list Message) (contents : list JSON)
    (system_instruction : option JSON) : Exc Error (list JSON * option JSON) :=
  match messages with
  | [] => Return (contents, system_instruction)
  | msg :: messages =>
      match convert_message msg contents system_instruction with
      | Return (contents, system_instruction) =>
          convert_messages_from messages contents system_instruction
      | Raise e => Raise e
      end
  end.

(** [convert_messages] *)
Definition convert_messages (messages : list Message)
  : Exc Error (list JSON * option JSON) :=
  convert_messages_from messages [] None.

End chat_message_utils.

(** * Properties *)

(** ** Credentials of the three providers *)

Inductive Credential : Type :=
  | AntigravityCredential (a : auth.AntigravityAuth)
  | CodexCredential (a : codex_auth.CodexAuth)
  | CopilotCredential (a : copilot_auth.CopilotAuth).

Definition expiresAt (c : Credential) : Q :=
  match c with
  | AntigravityCredential a => auth.expires_at a
  | CodexCredential a => codex_auth.expires_at a
  | CopilotCredential a => copilot_auth.expires_at a
  end.

(** [c.is_expired(buffer)] when [time.time()] is [now]. *)
Definition isExpired (c : Credential) (buffer : Z) (now : Q) : bool :=
  match c with
  | AntigravityCredential a => auth.is_expired a buffer now
  | CodexCredential a => codex_auth.is_expired a buffer now
  | CopilotCredential a => copilot_auth.is_expired a buffer now
  end.

Definition is_copilot (c : Credential) : bool :=
  match c with
  | CopilotCredential _ => true
  | _ => false
  end.

(** The condition the specification gives for an expired credential. *)
Definition past_expiry (c : Credential) (buffer : Z) (now : Q) : Prop :=
  (expiresAt c - inject_Z buffer <= now)%Q.

Lemma past_expiry_mono c buffer now now' :
  (now <= now')%Q → past_expiry c buffer now → past_expiry c buffer now'.
Proof. unfold past_expiry. intros Hle H. lra. Qed.

Lemma Qeq_bool_false_iff (x y : Q) : Qeq_bool x y = false ↔ ¬ (x == y)%Q.
Proof.
  split.
  - intros H Heq. apply Qeq_bool_iff in Heq. congruence.
  - intros H. destruct (Qeq_bool x y) eqn:E; [|done].
    apply Qeq_bool_iff in E. contradiction.
Qed.

Lemma copilot_is_expired_iff a buffer now :
  copilot_auth.is_expired a buffer now = true
  ↔ ¬ (copilot_auth.expires_at a == 0)%Q
    ∧ (copilot_auth.expires_at a - inject_Z buffer <= now)%Q.
Proof.
  unfold copilot_auth.is_expired.
  destruct (Qeq_bool (copilot_auth.expires_at a) 0) eqn:E.
  - apply Qeq_bool_iff in E. split; [done|]. intros [H _]. contradiction.
  - apply Qeq_bool_false_iff in E. rewrite Qle_bool_iff. tauto.
Qed.

(** C2, as the code has it: for an Antigravity or Codex credential
    [isExpired(buffer)] is true exactly when [now >= expiresAt - buffer],
    [expiresAt = 0] included; for a Copilot credential the same holds when
    [expiresAt] is not 0, and a Copilot credential whose [expiresAt] is 0 is
    never expired.  In every case, once true it stays true as [now] grows. *)
Theorem is_expired_spec (c : Credential) (buffer : Z) (now : Q) :
  (isExpired c buffer now = true
   ↔ past_expiry c buffer now ∧ ¬ (is_copilot c = true ∧ (expiresAt c == 0)%Q))
  ∧ (∀ now', (now <= now')%Q →
       isExpired c buffer now = true → isExpired c buffer now' = true).
Proof.
  assert (Hiff : ∀ t, isExpired c buffer t = true
    ↔ past_expiry c buffer t ∧ ¬ (is_copilot c = true ∧ (expiresAt c == 0)%Q)).
  { intros t. destruct c as [a|a|a]; simpl; unfold past_expiry; simpl.
    - unfold auth.is_expired. rewrite Qle_bool_iff. split; [|tauto].
      intros H. split; [done|]. intros [? _]. discriminate.
    - unfold codex_auth.is_expired. rewrite Qle_bool_iff. split; [|tauto].
      intros H. split; [done|]. intros [? _]. discriminate.
    - rewrite copilot_is_expired_iff. tauto. }
  split; [apply Hiff|].
  intros now' Hle H. apply Hiff in H as [H1 H2]. apply Hiff.
  split; [by eapply past_expiry_mono|done].
Qed.

(** A Copilot token issued without an expiry: [expires_at] is 0. *)
Definition copilot_token_credential : Credential :=
  CopilotCredential (copilot_auth.mkCopilotAuth "token" 0 None None None None None).

(** C2 as stated fails: a Copilot credential with [expiresAt = 0] is past
    [expiresAt - buffer] at every positive time and is not expired. *)
Lemma is_expired_copilot_zero :
  past_expiry copilot_token_credential 60 1000
  ∧ isExpired copilot_token_credential 60 1000 = false.
Proof. split; [unfold past_expiry, Qle; simpl; lia|reflexivity]. Qed.

(** ** The account store *)

Lemma len_nonneg {A} (l : list A) : 0 <= len l.
Proof. unfold len. lia. Qed.

Lemma index_in_range_spec s :
  index_in_range s = true ↔ 0 <= active_index s < len (accounts s).
Proof. unfold index_in_range. rewrite andb_true_iff, Z.leb_le, Z.ltb_lt. done. Qed.

(** C10: with a non-empty account list [get_active_account] always returns
    an account, the first one when [activeIndex] is out of range; it returns
    none only for the empty list. *)
Theorem get_active_account_total (s : AccountStorage) :
  (accounts s ≠ [] → is_Some (get_active_account s))
  ∧ (get_active_account s = None ↔ accounts s = [])
  ∧ (index_in_range s = false → get_active_account s = head (accounts s)).
Proof.
  assert (Hr : index_in_range s = true →
               is_Some (accounts s !! Z.to_nat (active_index s))).
  { intros H%index_in_range_spec. apply lookup_lt_is_Some. unfold len in H. lia. }
  unfold get_active_account.
  destruct (index_in_range s) eqn:E.
  - destruct (Hr eq_refl) as [acc Hacc]. rewrite Hacc.
    split; [eauto|]. split; [|done].
    split; [done|]. intros Hnil. rewrite Hnil in Hacc. done.
  - destruct (accounts s) as [|first rest]; simpl.
    + split; [done|]. split; done.
    + split; [eauto|]. split; [|done]. split; done.
Qed.

(** *** Lookups by identity *)

Lemma py_eq_str_true v s : py_eq_str v s = true ↔ v = JStr s.
Proof.
  destruct v; simpl; try (split; [discriminate|intros [=]]).
  rewrite String.eqb_eq. split; [by intros ->|by intros [= ->]].
Qed.

Lemma find_where_Some {A} (P : A → bool) (l : list A) i x :
  find_where P l = Some (i, x)
  ↔ l !! i = Some x ∧ P x = true ∧ ∀ j y, l !! j = Some y → (j < i)%nat → P y = false.
Proof.
  unfold find_where. rewrite list_find_Some. split.
  - intros (Hl & HP & Hbefore). split; [done|]. split; [by apply Is_true_true|].
    intros j y Hj Hlt. specialize (Hbefore j y Hj Hlt).
    destruct (P y); [by exfalso; apply Hbefore|done].
  - intros (Hl & HP & Hbefore). split; [done|]. split; [by apply Is_true_true|].
    intros j y Hj Hlt HPy. rewrite (Hbefore j y Hj Hlt) in HPy. done.
Qed.

Lemma find_where_None {A} (P : A → bool) (l : list A) :
  find_where P l = None ↔ ∀ x, x ∈ l → P x = false.
Proof.
  unfold find_where. rewrite list_find_None, Forall_forall. split.
  - intros H x Hx. specialize (H x Hx). destruct (P x); [by exfalso; apply H|done].
  - intros H x Hx HP. rewrite (H x Hx) in HP. done.
Qed.

Lemma index_where_Some {A} (P : A → bool) (l : list A) i :
  index_where P l = Some i
  ↔ ∃ x, l !! i = Some x ∧ P x = true ∧ ∀ j y, l !! j = Some y → (j < i)%nat → P y = false.
Proof.
  unfold index_where. split.
  - intros H. destruct (find_where P l) as [[i' x]|] eqn:E; simplify_eq/=.
    exists x. by apply find_where_Some.
  - intros (x & H). apply find_where_Some in H. by rewrite H.
Qed.

Lemma index_where_None {A} (P : A → bool) (l : list A) :
  index_where P l = None ↔ ∀ x, x ∈ l → P x = false.
Proof.
  unfold index_where. rewrite <- find_where_None.
  destruct (find_where P l); simpl; split; done.
Qed.

(** [i] is the index of the first record of [l] whose field [key] is the
    string [ident]. *)
Definition first_with (key ident : string) (l : list dict) (i : nat) : Prop :=
  (∃ acc, l !! i = Some acc ∧ dget key acc = JStr ident)
  ∧ ∀ j acc, l !! j = Some acc → (j < i)%nat → dget key acc ≠ JStr ident.

Lemma first_with_find key ident l i :
  first_with key ident l i
  ↔ ∃ acc, find_where (λ acc, py_eq_str (dget key acc) ident) l = Some (i, acc).
Proof.
  unfold first_with. split.
  - intros [(acc & Hacc & Hk) Hbefore]. exists acc. apply find_where_Some.
    split; [done|]. split; [by apply py_eq_str_true|].
    intros j y Hj Hlt. specialize (Hbefore j y Hj Hlt).
    destruct (py_eq_str (dget key y) ident) eqn:E; [|done].
    by apply py_eq_str_true in E.
  - intros (acc & (Hacc & Hk & Hbefore)%find_where_Some).
    split; [exists acc; split; [done|by apply py_eq_str_true]|].
    intros j y Hj Hlt Heq%py_eq_str_true. by rewrite (Hbefore j y Hj Hlt) in Heq.
Qed.

Lemma first_with_unique key ident l i j :
  first_with key ident l i → first_with key ident l j → i = j.
Proof.
  intros [(acc & Hi & Hki) Hbi] [(acc' & Hj & Hkj) Hbj].
  destruct (Nat.lt_trichotomy i j) as [Hlt|[Heq|Hlt]]; [|done|].
  - by destruct (Hbj i acc Hi Hlt).
  - by destruct (Hbi j acc' Hj Hlt).
Qed.

(** *** Removal *)

Lemma storage_remove_first key ident s s' :
  storage_remove key ident s = Some s' →
  ∃ i, first_with key ident (accounts s) i
    ∧ s' = mkStorage (version s) (delete i (accounts s))
             (if len (delete i (accounts s)) <=? active_index s
              then Z.max 0 (len (delete i (accounts s)) - 1)
              else active_index s).
Proof.
  unfold storage_remove, index_where. intros H.
  destruct (find_where _ _) as [[i acc]|] eqn:E; [|done].
  exists i. split; [apply first_with_find; eauto|]. by simplify_eq/=.
Qed.

Lemma storage_remove_Some key ident s s' :
  storage_remove key ident s = Some s' →
  ∃ i acc, accounts s !! i = Some acc
    ∧ dget key acc = JStr ident
    ∧ accounts s' = delete i (accounts s)
    ∧ active_index s' = (if len (accounts s') <=? active_index s
                         then Z.max 0 (len (accounts s') - 1)
                         else active_index s).
Proof.
  unfold storage_remove. intros H.
  destruct (index_where _ _) as [i|] eqn:E; [|done].
  apply index_where_Some in E as (acc & Hacc & HP & _).
  apply py_eq_str_true in HP. simplify_eq/=. eauto 10.
Qed.

Lemma storage_remove_is_Some key ident s :
  is_Some (storage_remove key ident s)
  ↔ ∃ acc, acc ∈ accounts s ∧ dget key acc = JStr ident.
Proof.
  unfold storage_remove.
  destruct (index_where _ _) as [i|] eqn:E.
  - split; [|eauto]. intros _.
    apply index_where_Some in E as (acc & Hacc & HP & _).
    exists acc. split; [by eapply list_elem_of_lookup_2|by apply py_eq_str_true].
  - split; [by intros [? ?]|]. intros (acc & Hin & Hk).
    rewrite index_where_None in E. specialize (E acc Hin).
    apply py_eq_str_true in Hk. congruence.
Qed.

(** What the removal does to the list and to the index. *)
Lemma storage_remove_index key ident s s' :
  storage_remove key ident s = Some s' →
  S (length (accounts s')) = length (accounts s)
  ∧ (0 <= active_index s → accounts s' ≠ [] →
     0 <= active_index s' < len (accounts s'))
  ∧ (0 <= active_index s → accounts s' = [] → active_index s' = 0)
  ∧ (active_index s < 0 → active_index s' = active_index s).
Proof.
  intros (i & acc & Hacc & _ & Haccs & Hidx)%storage_remove_Some.
  assert (Hlen : S (length (accounts s')) = length (accounts s)).
  { rewrite Haccs. apply lookup_lt_Some in Hacc.
    rewrite length_delete by eauto using lookup_lt_is_Some_2. lia. }
  split; [done|]. rewrite Hidx. unfold len in *.
  destruct (Z.leb_spec (Z.of_nat (length (accounts s'))) (active_index s)).
  - split; [|split].
    + intros _ Hne. destruct (accounts s'); [done|]. simpl length in *. lia.
    + intros _ Hnil. rewrite Hnil. simpl. lia.
    + lia.
  - split; [|split].
    + lia.
    + intros Hpos Hnil. rewrite Hnil in *. simpl in *. lia.
    + done.
Qed.

(** The three providers behind one name. *)
Inductive Provider : Type := Antigravity | Codex | Copilot.

(** Where a provider keeps its accounts. *)
Definition Store (p : Provider) : Type :=
  match p with
  | Antigravity => auth.Disk
  | Codex | Copilot => File
  end.

(** The field that holds the account identity in a stored record. *)
Definition identity_key (p : Provider) : string :=
  match p with
  | Antigravity => "email"
  | Codex | Copilot => "account_id"
  end.

Definition load (p : Provider) : Store p → option AccountStorage :=
  match p with
  | Antigravity => auth.load_accounts
  | Codex => codex_auth.load_codex_accounts
  | Copilot => copilot_auth.load_copilot_accounts
  end.

Definition remove (p : Provider) : string → Store p → bool * Store p :=
  match p with
  | Antigravity => auth.remove_account
  | Codex => codex_auth.remove_codex_account
  | Copilot => copilot_auth.remove_copilot_account
  end.

(** Each [remove_*] is [storage_remove] between a load and a save. *)
Lemma remove_unfold p ident d :
  remove p ident d =
  match load p d with
  | None => (false, d)
  | Some s =>
      match storage_remove (identity_key p) ident s with
      | Some s' => (true, snd (remove p ident d))
      | None => (false, d)
      end
  end
  ∧ ∀ s s', load p d = Some s → storage_remove (identity_key p) ident s = Some s' →
      load p (snd (remove p ident d)) = Some s'.
Proof.
  destruct p; simpl;
    unfold auth.remove_account, codex_auth.remove_codex_account,
      copilot_auth.remove_copilot_account;
    (split; [|intros s s' Hs Hr; rewrite Hs, Hr; reflexivity]);
    destruct (_ d) as [s|]; try done;
    destruct (storage_remove _ ident s); done.
Qed.

(** C8, as the code has it: [remove] returns true exactly when the loaded
    store has an account with that identity.  It then drops the first such
    account and keeps the others in their order.  An [activeIndex] below
    the new length is left as it is, a negative one included; one at or
    beyond the new length becomes [max(0, len - 1)].  So if the stored
    [activeIndex] was not negative it ends within [0, len-1] when accounts
    remain and at 0 when none does. *)
Theorem remove_reclamps (p : Provider) (ident : string) (d : Store p) :
  (fst (remove p ident d) = true
   ↔ ∃ s acc, load p d = Some s ∧ acc ∈ accounts s
              ∧ dget (identity_key p) acc = JStr ident)
  ∧ (∀ s, load p d = Some s → fst (remove p ident d) = true →
       ∃ s' i, load p (snd (remove p ident d)) = Some s'
         ∧ first_with (identity_key p) ident (accounts s) i
         ∧ accounts s' = delete i (accounts s)
         ∧ S (length (accounts s')) = length (accounts s)
         ∧ (active_index s < len (accounts s') → active_index s' = active_index s)
         ∧ (len (accounts s') <= active_index s →
            active_index s' = Z.max 0 (len (accounts s') - 1))
         ∧ (0 <= active_index s → accounts s' ≠ [] →
            0 <= active_index s' < len (accounts s'))
         ∧ (0 <= active_index s → accounts s' = [] → active_index s' = 0)
         ∧ (active_index s < 0 → active_index s' = active_index s)).
Proof.
  destruct (remove_unfold p ident d) as [Hun Hload]. split.
  - rewrite Hun. destruct (load p d) as [s|] eqn:Hs.
    + destruct (storage_remove (identity_key p) ident s) as [s'|] eqn:Hr; simpl.
      * split; [|done]. intros _.
        destruct (proj1 (storage_remove_is_Some _ _ _) (mk_is_Some _ _ Hr))
          as (acc & ? & ?). eauto.
      * split; [done|]. intros (s0 & acc & [= <-] & Hin & Hk).
        assert (is_Some (storage_remove (identity_key p) ident s)) as [? ?]
          by (apply storage_remove_is_Some; eauto).
        congruence.
    + simpl. split; [done|]. intros (? & ? & ? & _). done.
  - intros s Hs Hok. rewrite Hun, Hs in Hok.
    destruct (storage_remove (identity_key p) ident s) as [s'|] eqn:Hr; [|done].
    destruct (storage_remove_first _ _ _ _ Hr) as (i & Hfirst & Heq).
    destruct (storage_remove_index _ _ _ _ Hr) as (Hlen & Hin & Hnil & Hneg).
    exists s', i. split; [by eapply Hload|]. split; [done|].
    split; [by rewrite Heq|]. split; [done|].
    split; [|split; [|done]].
    + intros Hlt. rewrite Heq in Hlt |- *. simpl in *.
      by rewrite (proj2 (Z.leb_gt _ _)) by lia.
    + intros Hle. rewrite Heq in Hle |- *. simpl in *.
      by rewrite (proj2 (Z.leb_le _ _)) by lia.
Qed.

Definition stored (ident : string) : dict := {[ "email" := JStr ident ]}.

(** A store whose document carries a negative [activeIndex]. *)
Definition negative_index_disk : auth.Disk :=
  auth.mkDisk (GoodFile (mkStorage 3 [stored "a@x"; stored "b@x"] (-1))) NoFile.

(** C8 as stated fails: the removal succeeds, an account remains, and
    [activeIndex] is still -1. *)
Lemma remove_keeps_negative_index :
  fst (remove Antigravity "a@x" negative_index_disk) = true
  ∧ ∃ s', load Antigravity (snd (remove Antigravity "a@x" negative_index_disk)) = Some s'
      ∧ accounts s' = [stored "b@x"]
      ∧ ¬ (0 <= active_index s' < len (accounts s')).
Proof.
  split; [reflexivity|].
  eexists. split; [reflexivity|]. split; [reflexivity|].
  simpl. unfold len. simpl. lia.
Qed.

(** The amended C8 at a store with two accounts, the second active. *)
Lemma remove_reclamps_witness :
  ∃ s', load Antigravity
          (snd (remove Antigravity "b@x"
                  (auth.mkDisk (GoodFile (mkStorage 3 [stored "a@x"; stored "b@x"] 1))
                     NoFile))) = Some s'
    ∧ 0 <= active_index s' < len (accounts s').
Proof.
  destruct (remove_reclamps Antigravity "b@x"
              (auth.mkDisk (GoodFile (mkStorage 3 [stored "a@x"; stored "b@x"] 1)) NoFile))
    as [_ H].
  destruct (H _ eq_refl eq_refl) as (s' & i & Hs' & _ & _ & Hlen & _ & _ & Hin & _).
  exists s'. split; [exact Hs'|].
  apply Hin; [simpl; lia|].
  intros Hnil. rewrite Hnil in Hlen. discriminate.
Defined.

(** *** Upsert *)

Lemma find_where_insert {A} (P : A → bool) (l : list A) i x y :
  find_where P l = Some (i, x) → P y = true →
  find_where P (<[i := y]> l) = Some (i, y).
Proof.
  intros (Hl & _ & Hbefore)%find_where_Some Hy. apply find_where_Some.
  split; [by apply list_lookup_insert_eq; eapply lookup_lt_Some|].
  split; [done|]. intros j z Hj Hlt.
  rewrite list_lookup_insert_ne in Hj by lia. eauto.
Qed.

Lemma find_where_insert_fresh {A} (P : A → bool) (l : list A) j x y :
  find_where P l = None → l !! j = Some x → P y = true →
  find_where P (<[j := y]> l) = Some (j, y).
Proof.
  intros Hnone Hj Hy. rewrite find_where_None in Hnone. apply find_where_Some.
  split; [by apply list_lookup_insert_eq; eapply lookup_lt_Some|].
  split; [done|]. intros k z Hk Hlt.
  rewrite list_lookup_insert_ne in Hk by lia.
  apply Hnone. by eapply list_elem_of_lookup_2.
Qed.

Lemma find_where_app_fresh {A} (P : A → bool) (l : list A) y :
  find_where P l = None → P y = true →
  find_where P (l ++ [y]) = Some (length l, y).
Proof.
  intros Hnone Hy. rewrite find_where_None in Hnone. apply find_where_Some.
  split; [by rewrite lookup_app_r, Nat.sub_diag|].
  split; [done|]. intros k z Hk Hlt.
  rewrite lookup_app_l in Hk by done.
  apply Hnone. by eapply list_elem_of_lookup_2.
Qed.

Lemma truthy_opt_true o : truthy_opt o = true ↔ ∃ s, o = Some s ∧ s ≠ "".
Proof.
  destruct o as [s|]; simpl; unfold truthy_opt; simpl.
  - rewrite negb_true_iff. split.
    + intros H. exists s. split; [done|]. intros ->. done.
    + intros (s' & [= <-] & Hne). by apply String.eqb_neq.
  - split; [done|]. intros (? & ? & _). done.
Qed.

Lemma py_eq_opt_refl o : truthy_opt o = true → py_eq_opt (of_opt_str o) o = true.
Proof. intros (s & -> & _)%truthy_opt_true. simpl. apply String.eqb_refl. Qed.

Lemma py_or_truthy_opt o v : truthy_opt o = true → py_or (of_opt_str o) v = of_opt_str o.
Proof. unfold py_or, truthy_opt. by intros ->. Qed.

Lemma auth_new_account_email a t : dget "email" (auth.new_account a t) = of_opt_str (auth.email a).
Proof. reflexivity. Qed.

Lemma auth_new_account_token a t :
  dget "refreshToken" (auth.new_account a t) = JStr (auth.refresh_token a).
Proof. reflexivity. Qed.

Lemma auth_update_account_email a t acc :
  truthy_opt (auth.email a) = true →
  dget "email" (auth.update_account a t acc) = of_opt_str (auth.email a).
Proof.
  intros H. unfold auth.update_account, dget.
  rewrite !lookup_insert_ne by done. rewrite lookup_insert_eq. simpl.
  by apply py_or_truthy_opt.
Qed.

Lemma auth_update_account_token a t acc :
  dget "refreshToken" (auth.update_account a t acc) = JStr (auth.refresh_token a).
Proof.
  unfold auth.update_account, dget.
  rewrite !lookup_insert_ne by done. by rewrite lookup_insert_eq.
Qed.

Lemma auth_load_save s d : auth.load_accounts (auth.save_accounts s d) = Some s.
Proof. reflexivity. Qed.

(** What [_upsert_account_from_auth] leaves in the primary file. *)
Definition auth_upserted (a : auth.AntigravityAuth) (t : Z) (s : AccountStorage)
  : AccountStorage :=
  match auth.existing_account a (accounts s) with
  | Some (i, acc) =>
      mkStorage (version s) (<[i := auth.update_account a t acc]> (accounts s)) (Z.of_nat i)
  | None =>
      mkStorage (version s) (accounts s ++ [auth.new_account a t]) (len (accounts s))
  end.

Lemma auth_upsert_load a t d :
  auth.load_accounts (auth._upsert_account_from_auth a t d)
  = Some (auth_upserted a t (default auth.empty_storage (auth.load_accounts d))).
Proof.
  unfold auth._upsert_account_from_auth, auth_upserted.
  destruct (auth.existing_account _ _) as [[i acc]|];
    rewrite auth_load_save; [done|].
  do 2 f_equal. unfold len. rewrite length_app. simpl. lia.
Qed.

(** After an upsert the record of the credential is the active one. *)
Lemma auth_upserted_active a t s :
  ∃ r, get_active_account (auth_upserted a t s) = Some r
     ∧ accounts (auth_upserted a t s) !! Z.to_nat (active_index (auth_upserted a t s)) = Some r
     ∧ dget "refreshToken" r = JStr (auth.refresh_token a)
     ∧ (truthy_opt (auth.email a) = true → dget "email" r = of_opt_str (auth.email a)).
Proof.
  unfold auth_upserted, auth.existing_account.
  destruct (truthy_opt (auth.email a)) eqn:Ht.
  - destruct (find_where _ _) as [[i acc]|] eqn:E.
    + apply find_where_Some in E as (Hl & _).
      assert (Hlt : (i < length (accounts s))%nat) by by eapply lookup_lt_Some.
      exists (auth.update_account a t acc).
      unfold get_active_account, index_in_range, len. simpl.
      rewrite length_insert, Nat2Z.id.
      rewrite (proj2 (Z.leb_le _ _)) by lia. rewrite (proj2 (Z.ltb_lt _ _)) by lia.
      simpl. rewrite list_lookup_insert_eq by done.
      eauto using auth_update_account_token, auth_update_account_email.
    + exists (auth.new_account a t).
      unfold get_active_account, index_in_range, len. simpl.
      rewrite length_app, Nat2Z.id. simpl.
      rewrite (proj2 (Z.leb_le _ _)) by lia. rewrite (proj2 (Z.ltb_lt _ _)) by lia.
      simpl. rewrite lookup_app_r, Nat.sub_diag by done. simpl. eauto.
  - exists (auth.new_account a t).
    unfold get_active_account, index_in_range, len. simpl.
    rewrite length_app, Nat2Z.id. simpl.
    rewrite (proj2 (Z.leb_le _ _)) by lia. rewrite (proj2 (Z.ltb_lt _ _)) by lia.
    simpl. rewrite lookup_app_r, Nat.sub_diag by done. simpl.
    split; [done|]. split; [done|]. split; [done|]. done.
Qed.

(** With a known email the record found by a second upsert is the one the
    first upsert wrote. *)
Lemma auth_upserted_existing a t s :
  truthy_opt (auth.email a) = true →
  ∃ r, auth.existing_account a (accounts (auth_upserted a t s))
       = Some (Z.to_nat (active_index (auth_upserted a t s)), r).
Proof.
  intros Ht. unfold auth_upserted.
  destruct (auth.existing_account a (accounts s)) as [[i acc]|] eqn:E; simpl;
    unfold auth.existing_account in *; rewrite Ht in *; unfold len;
    rewrite Nat2Z.id.
  - eexists. eapply find_where_insert; [done|].
    rewrite auth_update_account_email by done. by apply py_eq_opt_refl.
  - eexists. apply find_where_app_fresh; [done|].
    rewrite auth_new_account_email. by apply py_eq_opt_refl.
Qed.

Lemma auth_upserted_twice a t t2 s :
  truthy_opt (auth.email a) = true →
  let s1 := auth_upserted a t s in
  let s2 := auth_upserted a t2 s1 in
  length (accounts s2) = length (accounts s1)
  ∧ active_index s2 = active_index s1
  ∧ ∀ j, Z.of_nat j ≠ active_index s1 → accounts s2 !! j = accounts s1 !! j.
Proof.
  intros Ht s1 s2.
  destruct (auth_upserted_existing a t s Ht) as [r Hr]. fold s1 in Hr.
  assert (Hlt : (Z.to_nat (active_index s1) < length (accounts s1))%nat).
  { unfold auth.existing_account in Hr. rewrite Ht in Hr.
    apply find_where_Some in Hr as (Hl & _). by eapply lookup_lt_Some. }
  assert (Hpos : 0 <= active_index s1).
  { unfold s1, auth_upserted.
    destruct (auth.existing_account a (accounts s)) as [[??]|];
      simpl; unfold len; lia. }
  assert (Hs2 : s2 = mkStorage (version s1)
                       (<[Z.to_nat (active_index s1) := auth.update_account a t2 r]>
                          (accounts s1))
                       (Z.of_nat (Z.to_nat (active_index s1)))).
  { unfold s2, auth_upserted at 1. by rewrite Hr. }
  rewrite Hs2. simpl.
  rewrite length_insert. split; [done|]. split; [lia|].
  intros j Hj. apply list_lookup_insert_ne. lia.
Qed.

Lemma codex_load_save s f :
  codex_auth.load_codex_accounts (codex_auth.save_codex_accounts s f) = Some s.
Proof. reflexivity. Qed.

Lemma codex_new_account_fields a t :
  dget "refresh_token" (codex_auth.new_account a t) = JStr (codex_auth.refresh_token a)
  ∧ dget "account_id" (codex_auth.new_account a t) = of_opt_str (codex_auth.account_id a)
  ∧ dget "email" (codex_auth.new_account a t) = of_opt_str (codex_auth.email a).
Proof. done. Qed.

Lemma codex_update_account_token a t acc :
  dget "refresh_token" (codex_auth.update_account a t acc)
  = JStr (codex_auth.refresh_token a).
Proof.
  unfold codex_auth.update_account, dget.
  rewrite lookup_insert_ne by done.
  destruct (truthy_opt (codex_auth.email a));
    destruct (truthy_opt (codex_auth.account_id a));
    rewrite ?lookup_insert_ne by done; by rewrite lookup_insert_eq.
Qed.

Lemma codex_update_account_id a t acc :
  truthy_opt (codex_auth.account_id a) = true →
  dget "account_id" (codex_auth.update_account a t acc)
  = of_opt_str (codex_auth.account_id a).
Proof.
  intros H. unfold codex_auth.update_account, dget. rewrite H.
  rewrite lookup_insert_ne by done.
  destruct (truthy_opt (codex_auth.email a));
    rewrite ?lookup_insert_ne by done; by rewrite lookup_insert_eq.
Qed.

Lemma codex_update_account_email a t acc :
  truthy_opt (codex_auth.email a) = true →
  dget "email" (codex_auth.update_account a t acc)
  = of_opt_str (codex_auth.email a).
Proof.
  intros H. unfold codex_auth.update_account, dget. rewrite H.
  rewrite lookup_insert_ne by done. by rewrite lookup_insert_eq.
Qed.

(** What [_upsert_codex_account] leaves in the file when the credential has
    a refresh token. *)
Definition codex_upserted (a : codex_auth.CodexAuth) (t : Z) (s : AccountStorage)
  : AccountStorage :=
  match codex_auth.find_by_identity a (accounts s) with
  | Some (i, acc) =>
      mkStorage (version s) (<[i := codex_auth.update_account a t acc]> (accounts s))
        (Z.of_nat i)
  | None =>
      mkStorage (version s) (accounts s ++ [codex_auth.new_account a t]) (len (accounts s))
  end.

Lemma codex_upsert_load a t f :
  codex_auth.refresh_token a ≠ "" →
  codex_auth.load_codex_accounts (codex_auth._upsert_codex_account a t f)
  = Some (codex_upserted a t
            (default codex_auth.empty_storage (codex_auth.load_codex_accounts f))).
Proof.
  intros Hne%String.eqb_neq.
  unfold codex_auth._upsert_codex_account, codex_upserted. rewrite Hne.
  destruct (codex_auth.find_by_identity _ _) as [[i acc]|];
    rewrite codex_load_save; [done|].
  do 2 f_equal. unfold len. rewrite length_app. simpl. lia.
Qed.

Lemma codex_upsert_no_token a t f :
  codex_auth.refresh_token a = "" → codex_auth._upsert_codex_account a t f = f.
Proof. intros H. unfold codex_auth._upsert_codex_account. by rewrite H. Qed.

Lemma find_by_identity_Some_lt a l i acc :
  codex_auth.find_by_identity a l = Some (i, acc) → l !! i = Some acc.
Proof.
  unfold codex_auth.find_by_identity. intros H.
  destruct (truthy_opt (codex_auth.account_id a));
    [destruct (find_where _ l) as [[i' x]|] eqn:E1|];
    try (simplify_eq; by apply find_where_Some in E1 as (? & _));
    destruct (truthy_opt (codex_auth.email a)); try done;
    by apply find_where_Some in H as (? & _).
Qed.

Lemma codex_upserted_active a t s :
  ∃ r, get_active_account (codex_upserted a t s) = Some r
     ∧ dget "refresh_token" r = JStr (codex_auth.refresh_token a).
Proof.
  unfold codex_upserted.
  destruct (codex_auth.find_by_identity a (accounts s)) as [[i acc]|] eqn:E.
  - apply find_by_identity_Some_lt in E.
    assert (Hlt : (i < length (accounts s))%nat) by by eapply lookup_lt_Some.
    exists (codex_auth.update_account a t acc).
    unfold get_active_account, index_in_range, len. simpl.
    rewrite length_insert, Nat2Z.id.
    rewrite (proj2 (Z.leb_le _ _)) by lia. rewrite (proj2 (Z.ltb_lt _ _)) by lia.
    simpl. rewrite list_lookup_insert_eq by done.
    eauto using codex_update_account_token.
  - exists (codex_auth.new_account a t).
    unfold get_active_account, index_in_range, len. simpl.
    rewrite length_app, Nat2Z.id. simpl.
    rewrite (proj2 (Z.leb_le _ _)) by lia. rewrite (proj2 (Z.ltb_lt _ _)) by lia.
    simpl. rewrite lookup_app_r, Nat.sub_diag by done. simpl. eauto.
Qed.

(** A credential has a known identity when its account id or its email is
    truthy. *)
Definition codex_known (a : codex_auth.CodexAuth) : bool :=
  truthy_opt (codex_auth.account_id a) || truthy_opt (codex_auth.email a).

Lemma codex_upserted_existing a t s :
  codex_known a = true →
  ∃ r, codex_auth.find_by_identity a (accounts (codex_upserted a t s))
       = Some (Z.to_nat (active_index (codex_upserted a t s)), r).
Proof.
  unfold codex_known, codex_upserted. intros Hk.
  set (Pid := λ acc : dict, py_eq_opt (dget "account_id" acc) (codex_auth.account_id a)).
  set (Pem := λ acc : dict, py_eq_opt (dget "email" acc) (codex_auth.email a)).
  assert (Hfind : ∀ l, codex_auth.find_by_identity a l =
     match (if truthy_opt (codex_auth.account_id a) then find_where Pid l else None) with
     | Some t => Some t
     | None => if truthy_opt (codex_auth.email a) then find_where Pem l else None
     end) by done.
  assert (Hid_upd : ∀ acc, truthy_opt (codex_auth.account_id a) = true →
                           Pid (codex_auth.update_account a t acc) = true).
  { intros acc H. unfold Pid. rewrite codex_update_account_id by done.
    by apply py_eq_opt_refl. }
  assert (Hem_upd : ∀ acc, truthy_opt (codex_auth.email a) = true →
                           Pem (codex_auth.update_account a t acc) = true).
  { intros acc H. unfold Pem. rewrite codex_update_account_email by done.
    by apply py_eq_opt_refl. }
  assert (Hid_new : truthy_opt (codex_auth.account_id a) = true →
                    Pid (codex_auth.new_account a t) = true).
  { intros H. unfold Pid. rewrite (proj1 (proj2 (codex_new_account_fields a t))).
    by apply py_eq_opt_refl. }
  assert (Hem_new : truthy_opt (codex_auth.email a) = true →
                    Pem (codex_auth.new_account a t) = true).
  { intros H. unfold Pem. rewrite (proj2 (proj2 (codex_new_account_fields a t))).
    by apply py_eq_opt_refl. }
  rewrite (Hfind (accounts s)).
  destruct (truthy_opt (codex_auth.account_id a)) eqn:Hid.
  - destruct (find_where Pid (accounts s)) as [[i acc]|] eqn:E1.
    + simpl. rewrite Nat2Z.id, Hfind.
      erewrite find_where_insert by eauto. eauto.
    + destruct (truthy_opt (codex_auth.email a)) eqn:Hem.
      * destruct (find_where Pem (accounts s)) as [[j acc]|] eqn:E2.
        -- simpl. rewrite Nat2Z.id, Hfind.
           apply find_where_Some in E2 as (Hj & _).
           erewrite find_where_insert_fresh by eauto. eauto.
        -- simpl. unfold len. rewrite Nat2Z.id, Hfind.
           erewrite find_where_app_fresh by eauto. eauto.
      * simpl. unfold len. rewrite Nat2Z.id, Hfind.
        erewrite find_where_app_fresh by eauto. eauto.
  - simpl in Hk. rewrite Hk in *.
    destruct (find_where Pem (accounts s)) as [[j acc]|] eqn:E2.
    + simpl. rewrite Nat2Z.id, Hfind.
      erewrite find_where_insert by eauto. eauto.
    + simpl. unfold len. rewrite Nat2Z.id, Hfind.
      erewrite find_where_app_fresh by eauto. eauto.
Qed.

Lemma codex_upserted_twice a t t2 s :
  codex_known a = true →
  let s1 := codex_upserted a t s in
  let s2 := codex_upserted a t2 s1 in
  length (accounts s2) = length (accounts s1)
  ∧ active_index s2 = active_index s1
  ∧ ∀ j, Z.of_nat j ≠ active_index s1 → accounts s2 !! j = accounts s1 !! j.
Proof.
  intros Hk s1 s2.
  destruct (codex_upserted_existing a t s Hk) as [r Hr]. fold s1 in Hr.
  assert (Hlt : (Z.to_nat (active_index s1) < length (accounts s1))%nat).
  { apply find_by_identity_Some_lt in Hr. by eapply lookup_lt_Some. }
  assert (Hpos : 0 <= active_index s1).
  { unfold s1, codex_upserted.
    destruct (codex_auth.find_by_identity a (accounts s)) as [[??]|];
      simpl; unfold len; lia. }
  assert (Hs2 : s2 = mkStorage (version s1)
                       (<[Z.to_nat (active_index s1) := codex_auth.update_account a t2 r]>
                          (accounts s1))
                       (Z.of_nat (Z.to_nat (active_index s1)))).
  { unfold s2, codex_upserted at 1. by rewrite Hr. }
  rewrite Hs2. simpl.
  rewrite length_insert. split; [done|]. split; [lia|].
  intros j Hj. apply list_lookup_insert_ne. lia.
Qed.

(** With an unknown identity the upsert appends, whatever the store holds. *)
Lemma auth_upserted_unknown a t s :
  truthy_opt (auth.email a) = false →
  accounts (auth_upserted a t s) = accounts s ++ [auth.new_account a t].
Proof. intros H. unfold auth_upserted, auth.existing_account. by rewrite H. Qed.

Lemma codex_upserted_unknown a t s :
  codex_known a = false →
  accounts (codex_upserted a t s) = accounts s ++ [codex_auth.new_account a t].
Proof.
  unfold codex_known. intros [H1 H2]%orb_false_iff.
  unfold codex_upserted, codex_auth.find_by_identity. by rewrite H1, H2.
Qed.

(** No record of [l] has the identity [o] in its field [key]: [o] is
    unknown, or no record holds it. *)
Definition unmatched (key : string) (o : option string) (l : list dict) : Prop :=
  truthy_opt o = false ∨ ∀ acc, acc ∈ l → dget key acc ≠ of_opt_str o.

Lemma find_where_first key e l i :
  e ≠ "" → first_with key e l i →
  ∃ acc, find_where (λ acc, py_eq_opt (dget key acc) (Some e)) l = Some (i, acc).
Proof. intros _ H. by apply first_with_find in H. Qed.

Lemma find_where_unmatched key o l :
  truthy_opt o = true → unmatched key o l →
  find_where (λ acc, py_eq_opt (dget key acc) o) l = None.
Proof.
  intros Ht [Hf|Hno]; [congruence|].
  apply truthy_opt_true in Ht as (e & -> & _).
  apply find_where_None. intros acc Hin. simpl.
  destruct (py_eq_str (dget key acc) e) eqn:E; [|done].
  apply py_eq_str_true in E. by destruct (Hno acc Hin).
Qed.

Lemma truthy_opt_Some e : e ≠ "" → truthy_opt (Some e) = true.
Proof. intros H. apply truthy_opt_true. eauto. Qed.

(** [l2] is [l1] with at most the record at index [i] rewritten. *)
Definition only_changes_at (i : Z) (l1 l2 : list dict) : Prop :=
  length l2 = length l1 ∧ ∀ j, Z.of_nat j ≠ i → l2 !! j = l1 !! j.

(** X30.  An upsert of a credential whose identity is known rewrites the
    first record with that identity in place (Antigravity: the email;
    Codex: the account id) and leaves the other records as they are; when
    no record has the email, the Antigravity upsert appends a new record.
    The record written becomes the active one and holds the credential's
    refresh token.  Upserting the same known identity a second time
    rewrites that one record and appends nothing.  The Codex upsert does
    nothing for a credential without a refresh token. *)
Theorem upsert_by_identity :
  (∀ (a : auth.AntigravityAuth) (t : Z) (d : auth.Disk) (e : string),
     auth.email a = Some e → e ≠ "" →
     ∃ s', auth.load_accounts (auth._upsert_account_from_auth a t d) = Some s'
       ∧ (∀ i, first_with "email" e
                 (accounts (default auth.empty_storage (auth.load_accounts d))) i →
            active_index s' = Z.of_nat i
            ∧ only_changes_at (Z.of_nat i)
                (accounts (default auth.empty_storage (auth.load_accounts d))) (accounts s'))
       ∧ ((∀ acc, acc ∈ accounts (default auth.empty_storage (auth.load_accounts d)) →
                  dget "email" acc ≠ JStr e) →
          accounts s' = accounts (default auth.empty_storage (auth.load_accounts d))
                        ++ [auth.new_account a t]
          ∧ active_index s'
            = len (accounts (default auth.empty_storage (auth.load_accounts d))))
       ∧ (∃ r, get_active_account s' = Some r
             ∧ dget "refreshToken" r = JStr (auth.refresh_token a)
             ∧ dget "email" r = JStr e)
       ∧ (∀ t2,
            ∃ s'', auth.load_accounts
                     (auth._upsert_account_from_auth a t2
                        (auth._upsert_account_from_auth a t d)) = Some s''
              ∧ active_index s'' = active_index s'
              ∧ only_changes_at (active_index s') (accounts s') (accounts s'')))
  ∧ (∀ (a : codex_auth.CodexAuth) (t : Z) (f : File),
       (codex_auth.refresh_token a = "" → codex_auth._upsert_codex_account a t f = f)
       ∧ (codex_auth.refresh_token a ≠ "" → codex_known a = true →
          ∃ s', codex_auth.load_codex_accounts (codex_auth._upsert_codex_account a t f)
                = Some s'
            ∧ (∀ aid i, codex_auth.account_id a = Some aid → aid ≠ "" →
                 first_with "account_id" aid
                   (accounts (default codex_auth.empty_storage
                                (codex_auth.load_codex_accounts f))) i →
                 active_index s' = Z.of_nat i
                 ∧ only_changes_at (Z.of_nat i)
                     (accounts (default codex_auth.empty_storage
                                  (codex_auth.load_codex_accounts f))) (accounts s'))
            ∧ (∃ r, get_active_account s' = Some r
                  ∧ dget "refresh_token" r = JStr (codex_auth.refresh_token a))
            ∧ (∀ t2,
                 ∃ s'', codex_auth.load_codex_accounts
                          (codex_auth._upsert_codex_account a t2
                             (codex_auth._upsert_codex_account a t f)) = Some s''
                   ∧ active_index s'' = active_index s'
                   ∧ only_changes_at (active_index s') (accounts s') (accounts s'')))).
Proof.
  split.
  - intros a t d e He Hne.
    pose proof (truthy_opt_Some e Hne) as Hk. rewrite <- He in Hk.
    set (s0 := default auth.empty_storage (auth.load_accounts d)).
    exists (auth_upserted a t s0). split; [apply auth_upsert_load|].
    split; [|split; [|split]].
    + intros i Hfirst.
      destruct (find_where_first "email" e _ i Hne Hfirst) as [acc Hfind].
      unfold auth_upserted, auth.existing_account. rewrite Hk, He, Hfind. simpl.
      split; [done|]. split; [apply length_insert|].
      intros j Hj. apply list_lookup_insert_ne. lia.
    + intros Hno. unfold auth_upserted, auth.existing_account. rewrite Hk.
      rewrite find_where_unmatched; [done|done|].
      right. intros acc Hin. rewrite He. by apply Hno.
    + destruct (auth_upserted_active a t s0) as (r & Hget & _ & Htok & Hem).
      exists r. split; [done|]. split; [done|]. specialize (Hem Hk). by rewrite He in Hem.
    + intros t2. eexists. split; [rewrite auth_upsert_load; reflexivity|].
      rewrite auth_upsert_load. simpl.
      destruct (auth_upserted_twice a t t2 s0 Hk) as (Hlen & Hidx & Hsame).
      split; [done|]. split; done.
  - intros a t f. split; [apply codex_upsert_no_token|]. intros Hne Hk.
    set (s0 := default codex_auth.empty_storage (codex_auth.load_codex_accounts f)).
    exists (codex_upserted a t s0). split; [by apply codex_upsert_load|].
    split; [|split].
    + intros aid i Ha Hna Hfirst.
      destruct (find_where_first "account_id" aid _ i Hna Hfirst) as [acc Hfind].
      unfold codex_upserted, codex_auth.find_by_identity.
      rewrite Ha, (truthy_opt_Some aid Hna), Hfind. simpl.
      split; [done|]. split; [apply length_insert|].
      intros j Hj. apply list_lookup_insert_ne. lia.
    + apply codex_upserted_active.
    + intros t2. eexists.
      split; [rewrite codex_upsert_load by done; reflexivity|].
      rewrite codex_upsert_load by done. simpl.
      destruct (codex_upserted_twice a t t2 s0 Hk) as (Hlen & Hidx & Hsame).
      split; [done|]. split; done.
Qed.

(** A credential whose email is unknown, as right after a refresh of an
    account stored without one. *)
Definition anonymous_auth : auth.AntigravityAuth :=
  auth.mkAuth "access" "new" 0 None None None.

Definition one_account_disk : auth.Disk :=
  auth.mkDisk
    (GoodFile (mkStorage 3 [ {[ "email" := JStr "a@x"; "refreshToken" := JStr "old" ]} ] 0))
    NoFile.

(** A store whose one account, the active one, was saved without an email,
    and a token endpoint that answers a refresh with a new refresh token. *)
Definition emailless_disk : auth.Disk :=
  auth.mkDisk (GoodFile (mkStorage 3 [ {[ "refreshToken" := JStr "r0" ]} ] 0)) NoFile.

Definition rotated_reply (now_ms : Z) : auth.RefreshInput :=
  auth.mkRefreshInput 0
    (auth.TokenReplyOk (auth.mkTokenData (Some "access") (Some "r1") None)) "" now_ms.

(** C5, where the code departs from it.  The credential is the one
    [load_auth_from_storage] reads from [emailless_disk]; its identity is
    unknown.  The upsert at the end of its refresh does not fall back to
    the active record, from which the credential came: that record keeps
    the refresh token "r0" that the refresh has replaced, and a second
    record is appended and made active.  The next refresh appends a
    third. *)
Theorem upsert_unknown_identity_appends json_loads repr :
  ∃ a refreshed d1 s1,
    auth.load_auth_from_storage emailless_disk = Some a
    ∧ auth.email a = None
    ∧ auth.refresh_access_token json_loads repr (rotated_reply 1) a emailless_disk
      = (Return refreshed, d1)
    ∧ auth.load_accounts d1 = Some s1
    ∧ length (accounts s1) = 2%nat
    ∧ (accounts s1 !! 0%nat ≫= lookup "refreshToken") = Some (JStr "r0")
    ∧ (accounts s1 !! 1%nat ≫= lookup "refreshToken") = Some (JStr "r1")
    ∧ active_index s1 = 1
    ∧ ∃ d2 s2,
        auth.refresh_access_token json_loads repr (rotated_reply 2) refreshed d1
        = (Return refreshed, d2)
        ∧ auth.load_accounts d2 = Some s2
        ∧ length (accounts s2) = 3%nat.
Proof.
  do 4 eexists. do 8 (split; [reflexivity|]).
  do 2 eexists. split; [reflexivity|]. split; reflexivity.
Qed.

Definition known_auth : auth.AntigravityAuth :=
  auth.mkAuth "access" "new" 0 (Some "a@x") None None.

(** A credential with a known email: two upserts leave the one record of
    the store. *)
Lemma upsert_by_identity_witness :
  ∃ s'', auth.load_accounts
           (auth._upsert_account_from_auth known_auth 2
              (auth._upsert_account_from_auth known_auth 1 one_account_disk))
         = Some s''
    ∧ length (accounts s'') = 1%nat.
Proof.
  destruct upsert_by_identity as [H _].
  destruct (H known_auth 1 one_account_disk "a@x" eq_refl ltac:(discriminate))
    as (s' & Hs' & Hfirst & _ & _ & Htwice).
  destruct (Htwice 2) as (s'' & Hs'' & _ & Hlen & _).
  exists s''. split; [exact Hs''|].
  assert (H0 : first_with "email" "a@x"
                 [ {[ "email" := JStr "a@x"; "refreshToken" := JStr "old" ]} ] 0).
  { split; [eexists; split; reflexivity|]. intros j acc _ Hlt. lia. }
  destruct (Hfirst 0%nat H0) as (_ & Hlen' & _).
  rewrite Hlen, Hlen'. reflexivity.
Defined.

(** ** Refresh *)

(** *** Scrubbing the stored refresh token *)

Lemma scrub_token key t acc : dget key (auth.scrub key t acc) = JStr "" ∨ key = "lastUsed".
Proof.
  unfold auth.scrub, dget. destruct (decide (key = "lastUsed")) as [->|Hne]; [by right|].
  left. rewrite lookup_insert_ne by done. by rewrite lookup_insert_eq.
Qed.

(** What [auth._clear_stored_refresh_token] does, by cases on the target. *)
Lemma auth_clear_spec a t d :
  match auth.load_accounts d with
  | None => auth._clear_stored_refresh_token a t d = d
  | Some s =>
      match auth.clear_target a s with
      | None => auth._clear_stored_refresh_token a t d = d
      | Some i =>
          ∃ acc, accounts s !! i = Some acc
            ∧ auth.load_accounts (auth._clear_stored_refresh_token a t d)
              = Some (mkStorage (version s)
                        (<[i := auth.scrub "refreshToken" t acc]> (accounts s))
                        (active_index s))
      end
  end.
Proof.
  unfold auth._clear_stored_refresh_token.
  destruct (auth.load_accounts d) as [s|] eqn:Hs; [|done].
  destruct (auth.clear_target a s) as [i|] eqn:Ht.
  - assert (Hi : is_Some (accounts s !! i)).
    { unfold auth.clear_target in Ht.
      destruct (auth.existing_account a (accounts s)) as [[i' acc]|] eqn:E; simpl in Ht.
      - simplify_eq. unfold auth.existing_account in E.
        destruct (truthy_opt (auth.email a)); [|done].
        apply find_where_Some in E as (? & _). eauto.
      - destruct (index_in_range s) eqn:Hr; [|done]. simplify_eq.
        apply index_in_range_spec in Hr. apply lookup_lt_is_Some.
        unfold len in Hr. lia. }
    destruct Hi as [acc Hacc]. exists acc. split; [done|].
    rewrite Hacc.
    destruct (accounts s) as [|x l] eqn:Hl; [by rewrite lookup_nil in Hacc|].
    simpl. done.
  - by destruct (Nat.eqb _ _).
Qed.

Lemma codex_clear_spec a t f :
  match codex_auth.load_codex_accounts f with
  | None => codex_auth._clear_stored_refresh_token a t f = f
  | Some s =>
      match codex_auth.clear_target a s with
      | None => codex_auth._clear_stored_refresh_token a t f = f
      | Some i =>
          ∃ acc, accounts s !! i = Some acc
            ∧ codex_auth.load_codex_accounts (codex_auth._clear_stored_refresh_token a t f)
              = Some (mkStorage (version s)
                        (<[i := auth.scrub "refresh_token" t acc]> (accounts s))
                        (active_index s))
      end
  end.
Proof.
  unfold codex_auth._clear_stored_refresh_token.
  destruct (codex_auth.load_codex_accounts f) as [s|] eqn:Hs; [|done].
  destruct (codex_auth.clear_target a s) as [i|] eqn:Ht.
  - assert (Hi : is_Some (accounts s !! i)).
    { unfold codex_auth.clear_target in Ht.
      destruct (codex_auth.find_by_identity a (accounts s)) as [[i' acc]|] eqn:E;
        simpl in Ht.
      - simplify_eq. apply find_by_identity_Some_lt in E. eauto.
      - destruct (index_in_range s) eqn:Hr; [|done]. simplify_eq.
        apply index_in_range_spec in Hr. apply lookup_lt_is_Some.
        unfold len in Hr. lia. }
    destruct Hi as [acc Hacc]. exists acc. split; [done|].
    rewrite Hacc.
    destruct (accounts s) as [|x l] eqn:Hl; [by rewrite lookup_nil in Hacc|].
    simpl. done.
  - by destruct (Nat.eqb _ _).
Qed.

(** The store after a scrub at [i]: the token of record [i] is empty and
    every other record is as before. *)
Definition scrubbed_at (key : string) (i : nat) (s s' : AccountStorage) : Prop :=
  (∃ acc, accounts s' !! i = Some acc ∧ dget key acc = JStr "")
  ∧ only_changes_at (Z.of_nat i) (accounts s) (accounts s')
  ∧ active_index s' = active_index s.

Lemma scrubbed_at_insert key t i acc s :
  key ≠ "lastUsed" → accounts s !! i = Some acc →
  scrubbed_at key i s
    (mkStorage (version s) (<[i := auth.scrub key t acc]> (accounts s)) (active_index s)).
Proof.
  intros Hk Hacc. unfold scrubbed_at, only_changes_at. simpl.
  split; [|split; [split|done]].
  - eexists. split; [apply list_lookup_insert_eq; by eapply lookup_lt_Some|].
    by destruct (scrub_token key t acc).
  - apply length_insert.
  - intros j Hj. apply list_lookup_insert_ne. lia.
Qed.

(** *** The refresh that raises leaves [self.auth] alone *)

Lemma ensure_auth_refresh_raises {R} (w : chat_model.World R) k a e :
  auth.is_expired a 60 (chat_model.now w k) = true →
  chat_model.refresh_access_token w k a = Raise e →
  chat_model._ensure_auth w k (Some a) = (Raise (chat_model.AuthError e), Some a).
Proof. intros Hx Hr. unfold chat_model._ensure_auth. by rewrite Hx, Hr. Qed.

(** *** Revocation *)

Lemma str_app_assoc s t u : (s +:+ t) +:+ u = s +:+ t +:+ u.
Proof.
  induction s as [|c s IH]; [done|].
  change ((String c s +:+ t) +:+ u) with (String c ((s +:+ t) +:+ u)).
  by rewrite IH.
Qed.

Lemma prefix_app s t : String.prefix s (s +:+ t) = true.
Proof.
  induction s as [|c s IH].
  - by destruct t.
  - change (String c s +:+ t) with (String c (s +:+ t)). simpl.
    by destruct (ascii_dec c c).
Qed.

Lemma auth_refresh_revoked json_loads repr w a d status text :
  auth.refresh_token a ≠ "" →
  auth.token_reply w = auth.ErrorReply status text →
  lower (fst (auth._parse_oauth_error_payload json_loads repr text)) = "invalid_grant" →
  auth.refresh_access_token json_loads repr w a d
  = (Raise (auth.ValueError (auth.revoked_message a)),
     auth._clear_stored_refresh_token a (auth.now_ms w) d).
Proof.
  intros Hne%String.eqb_neq Hreply Hcode. unfold auth.refresh_access_token.
  rewrite Hne, Hreply.
  destruct (auth._parse_oauth_error_payload json_loads repr text) as [code descr].
  simpl in Hcode. by rewrite Hcode.
Qed.

Lemma codex_refresh_revoked repr xid xem w a f status text data code msg :
  codex_auth.refresh_token a ≠ "" →
  codex_auth.token_reply w = codex_auth.ErrorReply status text (Some data) →
  codex_auth.error_fields repr text data = Some (code, msg) →
  codex_auth._is_revoked_refresh_error code msg = true →
  codex_auth.refresh_codex_token repr xid xem w a f
  = (Raise (auth.ValueError (codex_auth._build_reauth_message a)),
     codex_auth._clear_stored_refresh_token a (codex_auth.now_ms w) f).
Proof.
  intros Hne%String.eqb_neq Hreply Hfields Hrev. unfold codex_auth.refresh_codex_token.
  by rewrite Hne, Hreply, Hfields, Hrev.
Qed.

(** Only a revoked failure raises a message that starts this way. *)
Lemma auth_revoked_message_only json_loads repr w a d m d' :
  auth.refresh_access_token json_loads repr w a d = (Raise (auth.ValueError m), d') →
  String.prefix "Refresh token revoked" m = true →
  ∃ status text, auth.token_reply w = auth.ErrorReply status text
    ∧ lower (fst (auth._parse_oauth_error_payload json_loads repr text)) = "invalid_grant".
Proof.
  unfold auth.refresh_access_token. intros H Hp.
  destruct (String.eqb (auth.refresh_token a) ""); [by simplify_eq|].
  destruct (auth.token_reply w) as [|status text| |td]; try by simplify_eq.
  exists status, text. split; [done|].
  destruct (auth._parse_oauth_error_payload json_loads repr text) as [code descr].
  simpl. destruct (String.eqb (lower code) "invalid_grant") eqn:E.
  - by apply String.eqb_eq.
  - destruct (_ || _); simplify_eq; done.
Qed.

Lemma codex_revoked_message_only repr xid xem w a f m f' :
  codex_auth.refresh_codex_token repr xid xem w a f = (Raise (auth.ValueError m), f') →
  String.prefix "Refresh token revoked" m = true →
  ∃ status text data code msg,
    codex_auth.token_reply w = codex_auth.ErrorReply status text (Some data)
    ∧ codex_auth.error_fields repr text data = Some (code, msg)
    ∧ codex_auth._is_revoked_refresh_error code msg = true.
Proof.
  unfold codex_auth.refresh_codex_token. intros H Hp.
  destruct (String.eqb (codex_auth.refresh_token a) ""); [by simplify_eq|].
  destruct (codex_auth.token_reply w) as [|status text [data|]| |td]; try by simplify_eq.
  destruct (codex_auth.error_fields repr text data) as [[code msg]|] eqn:Hf;
    [|by simplify_eq].
  destruct (codex_auth._is_revoked_refresh_error code msg) eqn:E.
  - eauto 10.
  - by simplify_eq.
Qed.

(** A token endpoint that answers 400 with the body
    [{"error": "invalid_grant"}], and [json.loads], which decodes that body
    and takes the other texts used here for no JSON. *)
Definition invalid_grant_body : string :=
  "{" +:+ quoted "error" +:+ ": " +:+ quoted "invalid_grant" +:+ "}".
Definition invalid_grant_loads (text : string) : option JSON :=
  if String.eqb text invalid_grant_body
  then Some (JObj {[ "error" := JStr "invalid_grant" ]})
  else None.
Definition no_repr (v : JSON) : string := "".
Definition invalid_grant_reply : auth.RefreshInput :=
  auth.mkRefreshInput 0 (auth.ErrorReply 400 invalid_grant_body) "" 1.

(** The record [auth._clear_stored_refresh_token] selects. *)
Lemma auth_clear_target_first a s e i :
  auth.email a = Some e → e ≠ "" → first_with "email" e (accounts s) i →
  auth.clear_target a s = Some i.
Proof.
  intros He Hne Hfirst. unfold auth.clear_target, auth.existing_account.
  rewrite He, (truthy_opt_Some e Hne).
  destruct (find_where_first "email" e _ i Hne Hfirst) as [acc ->]. done.
Qed.

Lemma auth_clear_target_unmatched a s :
  unmatched "email" (auth.email a) (accounts s) →
  auth.clear_target a s
  = if index_in_range s then Some (Z.to_nat (active_index s)) else None.
Proof.
  intros Hun. unfold auth.clear_target, auth.existing_account.
  destruct (truthy_opt (auth.email a)) eqn:Ht; [|done].
  by rewrite (find_where_unmatched _ _ _ Ht Hun).
Qed.

(** The record [codex_auth._clear_stored_refresh_token] selects. *)
Lemma codex_clear_target_id a s aid i :
  codex_auth.account_id a = Some aid → aid ≠ "" →
  first_with "account_id" aid (accounts s) i →
  codex_auth.clear_target a s = Some i.
Proof.
  intros Ha Hne Hfirst. unfold codex_auth.clear_target, codex_auth.find_by_identity.
  rewrite Ha, (truthy_opt_Some aid Hne).
  destruct (find_where_first "account_id" aid _ i Hne Hfirst) as [acc ->]. done.
Qed.

Lemma codex_clear_target_email a s e i :
  unmatched "account_id" (codex_auth.account_id a) (accounts s) →
  codex_auth.email a = Some e → e ≠ "" →
  first_with "email" e (accounts s) i →
  codex_auth.clear_target a s = Some i.
Proof.
  intros Hun He Hne Hfirst. unfold codex_auth.clear_target, codex_auth.find_by_identity.
  assert (Hid : (if truthy_opt (codex_auth.account_id a)
                 then find_where (λ acc, py_eq_opt (dget "account_id" acc)
                                           (codex_auth.account_id a)) (accounts s)
                 else None) = None).
  { destruct (truthy_opt (codex_auth.account_id a)) eqn:Ht; [|done].
    by apply find_where_unmatched. }
  rewrite Hid, He, (truthy_opt_Some e Hne).
  destruct (find_where_first "email" e _ i Hne Hfirst) as [acc ->]. done.
Qed.

Lemma codex_clear_target_unmatched a s :
  unmatched "account_id" (codex_auth.account_id a) (accounts s) →
  unmatched "email" (codex_auth.email a) (accounts s) →
  codex_auth.clear_target a s
  = if index_in_range s then Some (Z.to_nat (active_index s)) else None.
Proof.
  intros Hid Hem. unfold codex_auth.clear_target, codex_auth.find_by_identity.
  assert (H1 : (if truthy_opt (codex_auth.account_id a)
                then find_where (λ acc, py_eq_opt (dget "account_id" acc)
                                          (codex_auth.account_id a)) (accounts s)
                else None) = None).
  { destruct (truthy_opt (codex_auth.account_id a)) eqn:Ht; [|done].
    by apply find_where_unmatched. }
  assert (H2 : (if truthy_opt (codex_auth.email a)
                then find_where (λ acc, py_eq_opt (dget "email" acc)
                                          (codex_auth.email a)) (accounts s)
                else None) = None).
  { destruct (truthy_opt (codex_auth.email a)) eqn:Ht; [|done].
    by apply find_where_unmatched. }
  by rewrite H1, H2.
Qed.

(** The message of the Codex revocation error names what the credential
    has of email and account id. *)
Lemma codex_reauth_message_names a :
  (∀ e aid, codex_auth.email a = Some e → e ≠ "" →
     codex_auth.account_id a = Some aid → aid ≠ "" →
     codex_auth._build_reauth_message a
     = "Refresh token revoked (email=" +:+ e +:+ ", account_id=" +:+ aid
       +:+ ") - run 'codex-auth login' again")
  ∧ (∀ e, codex_auth.email a = Some e → e ≠ "" →
       truthy_opt (codex_auth.account_id a) = false →
       codex_auth._build_reauth_message a
       = "Refresh token revoked (email=" +:+ e +:+ ") - run 'codex-auth login' again")
  ∧ (∀ aid, truthy_opt (codex_auth.email a) = false →
       codex_auth.account_id a = Some aid → aid ≠ "" →
       codex_auth._build_reauth_message a
       = "Refresh token revoked (account_id=" +:+ aid
         +:+ ") - run 'codex-auth login' again")
  ∧ (truthy_opt (codex_auth.email a) = false →
     truthy_opt (codex_auth.account_id a) = false →
     codex_auth._build_reauth_message a
     = "Refresh token revoked - run 'codex-auth login' again").
Proof.
  unfold codex_auth._build_reauth_message. split; [|split; [|split]].
  - intros e aid He Hne Ha Hna.
    rewrite He, Ha, (truthy_opt_Some e Hne), (truthy_opt_Some aid Hna). simpl.
    by rewrite !str_app_assoc.
  - intros e He Hne Ha. rewrite He, Ha, (truthy_opt_Some e Hne). simpl.
    by rewrite !str_app_assoc.
  - intros aid He Ha Hna. rewrite He, Ha, (truthy_opt_Some aid Hna). simpl.
    by rewrite !str_app_assoc.
  - intros He Ha. by rewrite He, Ha.
Qed.

(** C4, as the code has it.  When a refresh failure is classified as
    revoked (Antigravity: the error code is [invalid_grant]; Codex:
    [_is_revoked_refresh_error]), the call raises an error whose message
    starts with "Refresh token revoked" and names the identity the
    credential has (Antigravity: the email; Codex: the email and the
    account id), a message no other failure of the refresh has; no new
    credential is built, so [self.auth] keeps the credential it had; and
    one stored record has its refresh token set to the empty string, the
    other records and [activeIndex] untouched.  That record is the first
    with the credential's identity (Antigravity: its email; Codex: its
    account id, else its email); when the identity is unknown or no record
    has it, it is the active record, provided [activeIndex] is in range.
    Otherwise, and when there is no readable store, the store is left as
    it is. *)
Theorem revoked_refresh_scrubs :
  (∀ json_loads repr (w : auth.RefreshInput) (a : auth.AntigravityAuth) (d : auth.Disk)
     status text,
     auth.refresh_token a ≠ "" →
     auth.token_reply w = auth.ErrorReply status text →
     lower (fst (auth._parse_oauth_error_payload json_loads repr text)) = "invalid_grant" →
     ∃ d', auth.refresh_access_token json_loads repr w a d
           = (Raise (auth.ValueError (auth.revoked_message a)), d')
       ∧ String.prefix "Refresh token revoked" (auth.revoked_message a) = true
       ∧ (∀ e, auth.email a = Some e → e ≠ "" →
            auth.revoked_message a
            = "Refresh token revoked (email=" +:+ e +:+ ") - run 'antigravity login' again")
       ∧ (∀ s e i, auth.load_accounts d = Some s →
            auth.email a = Some e → e ≠ "" → first_with "email" e (accounts s) i →
            ∃ s', auth.load_accounts d' = Some s' ∧ scrubbed_at "refreshToken" i s s')
       ∧ (∀ s, auth.load_accounts d = Some s →
            unmatched "email" (auth.email a) (accounts s) →
            0 <= active_index s < len (accounts s) →
            ∃ s', auth.load_accounts d' = Some s'
              ∧ scrubbed_at "refreshToken" (Z.to_nat (active_index s)) s s')
       ∧ (∀ s, auth.load_accounts d = Some s →
            unmatched "email" (auth.email a) (accounts s) →
            ¬ (0 <= active_index s < len (accounts s)) → d' = d)
       ∧ (auth.load_accounts d = None → d' = d)
       ∧ (∀ R (cw : chat_model.World R) k,
            auth.is_expired a 60 (chat_model.now cw k) = true →
            chat_model.refresh_access_token cw k a
            = fst (auth.refresh_access_token json_loads repr w a d) →
            chat_model._ensure_auth cw k (Some a)
            = (Raise (chat_model.AuthError (auth.ValueError (auth.revoked_message a))),
               Some a)))
  ∧ (∀ repr xid xem (w : codex_auth.RefreshInput) (a : codex_auth.CodexAuth) (f : File)
       status text data code msg,
       codex_auth.refresh_token a ≠ "" →
       codex_auth.token_reply w = codex_auth.ErrorReply status text (Some data) →
       codex_auth.error_fields repr text data = Some (code, msg) →
       codex_auth._is_revoked_refresh_error code msg = true →
       ∃ f', codex_auth.refresh_codex_token repr xid xem w a f
             = (Raise (auth.ValueError (codex_auth._build_reauth_message a)), f')
         ∧ String.prefix "Refresh token revoked" (codex_auth._build_reauth_message a) = true
         ∧ (∀ e aid, codex_auth.email a = Some e → e ≠ "" →
              codex_auth.account_id a = Some aid → aid ≠ "" →
              codex_auth._build_reauth_message a
              = "Refresh token revoked (email=" +:+ e +:+ ", account_id=" +:+ aid
                +:+ ") - run 'codex-auth login' again")
         ∧ (∀ e, codex_auth.email a = Some e → e ≠ "" →
              truthy_opt (codex_auth.account_id a) = false →
              codex_auth._build_reauth_message a
              = "Refresh token revoked (email=" +:+ e
                +:+ ") - run 'codex-auth login' again")
         ∧ (∀ aid, truthy_opt (codex_auth.email a) = false →
              codex_auth.account_id a = Some aid → aid ≠ "" →
              codex_auth._build_reauth_message a
              = "Refresh token revoked (account_id=" +:+ aid
                +:+ ") - run 'codex-auth login' again")
         ∧ (∀ s aid i, codex_auth.load_codex_accounts f = Some s →
              codex_auth.account_id a = Some aid → aid ≠ "" →
              first_with "account_id" aid (accounts s) i →
              ∃ s', codex_auth.load_codex_accounts f' = Some s'
                ∧ scrubbed_at "refresh_token" i s s')
         ∧ (∀ s e i, codex_auth.load_codex_accounts f = Some s →
              unmatched "account_id" (codex_auth.account_id a) (accounts s) →
              codex_auth.email a = Some e → e ≠ "" →
              first_with "email" e (accounts s) i →
              ∃ s', codex_auth.load_codex_accounts f' = Some s'
                ∧ scrubbed_at "refresh_token" i s s')
         ∧ (∀ s, codex_auth.load_codex_accounts f = Some s →
              unmatched "account_id" (codex_auth.account_id a) (accounts s) →
              unmatched "email" (codex_auth.email a) (accounts s) →
              0 <= active_index s < len (accounts s) →
              ∃ s', codex_auth.load_codex_accounts f' = Some s'
                ∧ scrubbed_at "refresh_token" (Z.to_nat (active_index s)) s s')
         ∧ (∀ s, codex_auth.load_codex_accounts f = Some s →
              unmatched "account_id" (codex_auth.account_id a) (accounts s) →
              unmatched "email" (codex_auth.email a) (accounts s) →
              ¬ (0 <= active_index s < len (accounts s)) → f' = f)
         ∧ (codex_auth.load_codex_accounts f = None → f' = f))
  ∧ (∀ json_loads repr w a d m d',
       auth.refresh_access_token json_loads repr w a d = (Raise (auth.ValueError m), d') →
       String.prefix "Refresh token revoked" m = true →
       ∃ status text, auth.token_reply w = auth.ErrorReply status text
         ∧ lower (fst (auth._parse_oauth_error_payload json_loads repr text))
           = "invalid_grant")
  ∧ (∀ repr xid xem w a f m f',
       codex_auth.refresh_codex_token repr xid xem w a f = (Raise (auth.ValueError m), f') →
       String.prefix "Refresh token revoked" m = true →
       ∃ status text data code msg,
         codex_auth.token_reply w = codex_auth.ErrorReply status text (Some data)
         ∧ codex_auth.error_fields repr text data = Some (code, msg)
         ∧ codex_auth._is_revoked_refresh_error code msg = true).
Proof.
  assert (Hauth_at : ∀ a t d s i,
    auth.load_accounts d = Some s → auth.clear_target a s = Some i →
    ∃ s', auth.load_accounts (auth._clear_stored_refresh_token a t d) = Some s'
      ∧ scrubbed_at "refreshToken" i s s').
  { intros a t d s i Hs Ht. pose proof (auth_clear_spec a t d) as H.
    rewrite Hs, Ht in H. destruct H as (acc & Hacc & Hload).
    eexists. split; [exact Hload|]. by apply scrubbed_at_insert. }
  assert (Hauth_none : ∀ a t d s,
    auth.load_accounts d = Some s → auth.clear_target a s = None →
    auth._clear_stored_refresh_token a t d = d).
  { intros a t d s Hs Ht. pose proof (auth_clear_spec a t d) as H.
    by rewrite Hs, Ht in H. }
  assert (Hcodex_at : ∀ a t f s i,
    codex_auth.load_codex_accounts f = Some s → codex_auth.clear_target a s = Some i →
    ∃ s', codex_auth.load_codex_accounts (codex_auth._clear_stored_refresh_token a t f)
          = Some s'
      ∧ scrubbed_at "refresh_token" i s s').
  { intros a t f s i Hs Ht. pose proof (codex_clear_spec a t f) as H.
    rewrite Hs, Ht in H. destruct H as (acc & Hacc & Hload).
    eexists. split; [exact Hload|]. by apply scrubbed_at_insert. }
  assert (Hcodex_none : ∀ a t f s,
    codex_auth.load_codex_accounts f = Some s → codex_auth.clear_target a s = None →
    codex_auth._clear_stored_refresh_token a t f = f).
  { intros a t f s Hs Ht. pose proof (codex_clear_spec a t f) as H.
    by rewrite Hs, Ht in H. }
  assert (Hrange : ∀ s, 0 <= active_index s < len (accounts s) → index_in_range s = true).
  { intros s H. by apply index_in_range_spec. }
  assert (Hnorange : ∀ s, ¬ (0 <= active_index s < len (accounts s)) →
                          index_in_range s = false).
  { intros s H. destruct (index_in_range s) eqn:E; [|done].
    by apply index_in_range_spec in E. }
  split; [|split; [|split]].
  - intros json_loads repr w a d status text Hne Hreply Hcode.
    eexists. split; [by eapply auth_refresh_revoked|].
    split; [apply prefix_app|]. split; [|split; [|split; [|split; [|split]]]].
    + intros e He Hne'. unfold auth.revoked_message. rewrite He.
      unfold truthy_opt. simpl. apply String.eqb_neq in Hne'. rewrite Hne'. simpl.
      by rewrite !str_app_assoc.
    + intros s e i Hs He Hne' Hfirst. apply Hauth_at; [done|].
      by eapply auth_clear_target_first.
    + intros s Hs Hun Hin. apply Hauth_at; [done|].
      by rewrite auth_clear_target_unmatched, Hrange.
    + intros s Hs Hun Hout. eapply Hauth_none; [done|].
      by rewrite auth_clear_target_unmatched, Hnorange.
    + intros Hs. unfold auth._clear_stored_refresh_token. by rewrite Hs.
    + intros R cw k Hx Hr. apply ensure_auth_refresh_raises; [done|].
      rewrite Hr. by erewrite auth_refresh_revoked.
  - intros repr xid xem w a f status text data code msg Hne Hreply Hf Hrev.
    eexists. split; [by eapply codex_refresh_revoked|].
    split; [apply prefix_app|].
    destruct (codex_reauth_message_names a) as (Hm1 & Hm2 & Hm3 & _).
    do 3 (split; [done|]). split; [|split; [|split; [|split]]].
    + intros s aid i Hs Ha Hna Hfirst. apply Hcodex_at; [done|].
      by eapply codex_clear_target_id.
    + intros s e i Hs Hun He Hne' Hfirst. apply Hcodex_at; [done|].
      by eapply codex_clear_target_email.
    + intros s Hs Hid Hem Hin. apply Hcodex_at; [done|].
      by rewrite codex_clear_target_unmatched, Hrange.
    + intros s Hs Hid Hem Hout. eapply Hcodex_none; [done|].
      by rewrite codex_clear_target_unmatched, Hnorange.
    + intros Hs. unfold codex_auth._clear_stored_refresh_token. by rewrite Hs.
  - apply auth_revoked_message_only.
  - apply codex_revoked_message_only.
Qed.

(** A store whose only account has no email and whose [activeIndex] is out
    of range. *)
Definition orphan_disk : auth.Disk :=
  auth.mkDisk (GoodFile (mkStorage 3 [ {[ "refreshToken" := JStr "r" ]} ] 5)) NoFile.

(** C4 as stated fails: the credential is the one [load_auth_from_storage]
    reads from the store, its refresh is rejected with [invalid_grant], and
    the store, with the refresh token "r" in it, is left as it was; the
    message names no account. *)
Lemma revoked_refresh_keeps_stored_token :
  ∃ a, auth.load_auth_from_storage orphan_disk = Some a
    ∧ auth.refresh_access_token invalid_grant_loads no_repr invalid_grant_reply a orphan_disk
      = (Raise (auth.ValueError "Refresh token revoked - run 'antigravity login' again"),
         orphan_disk)
    ∧ (accounts <$> auth.load_accounts orphan_disk)
      = Some [ {[ "refreshToken" := JStr "r" ]} ].
Proof. eexists. repeat split; reflexivity. Qed.

(** The amended C4 at a store that has the credential's account. *)
Lemma revoked_refresh_scrubs_witness :
  ∃ s' acc,
    auth.load_accounts
      (snd (auth.refresh_access_token invalid_grant_loads no_repr invalid_grant_reply
              known_auth one_account_disk)) = Some s'
    ∧ accounts s' !! 0%nat = Some acc
    ∧ dget "refreshToken" acc = JStr "".
Proof.
  destruct revoked_refresh_scrubs as [H _].
  destruct (H invalid_grant_loads no_repr invalid_grant_reply known_auth one_account_disk
              400 invalid_grant_body ltac:(discriminate) eq_refl eq_refl)
    as (d' & Hres & _ & _ & Hscrub & _).
  assert (Hfirst : first_with "email" "a@x"
                     [ {[ "email" := JStr "a@x"; "refreshToken" := JStr "old" ]} ] 0).
  { split; [eexists; split; reflexivity|]. intros j acc _ Hlt. lia. }
  destruct (Hscrub _ "a@x" 0%nat eq_refl eq_refl ltac:(discriminate) Hfirst)
    as (s' & Hs' & (acc & Hacc & Htok) & _).
  exists s', acc. rewrite Hres. simpl. split; [exact Hs'|]. split; [exact Hacc|exact Htok].
Defined.

(** *** A refresh without a new refresh token *)

(** C6: when the token response of a successful refresh has no
    [refresh_token] field, the credential returned has the prior refresh
    token, and so has the record the refresh stores and makes active.  A
    refresh succeeds only on such a reply for a credential that has a
    refresh token. *)
Theorem refresh_keeps_refresh_token :
  (∀ json_loads repr (w : auth.RefreshInput) (a : auth.AntigravityAuth) (d : auth.Disk) td,
     auth.refresh_token a ≠ "" →
     auth.token_reply w = auth.TokenReplyOk td →
     auth.td_refresh_token td = None →
     ∃ refreshed d',
       auth.refresh_access_token json_loads repr w a d = (Return refreshed, d')
       ∧ auth.refresh_token refreshed = auth.refresh_token a
       ∧ ∃ s' r, auth.load_accounts d' = Some s'
           ∧ get_active_account s' = Some r
           ∧ dget "refreshToken" r = JStr (auth.refresh_token a))
  ∧ (∀ repr xid xem (w : codex_auth.RefreshInput) (a : codex_auth.CodexAuth) (f : File) td,
       codex_auth.refresh_token a ≠ "" →
       codex_auth.token_reply w = codex_auth.TokenReplyOk td →
       auth.td_refresh_token td = None →
       ∃ refreshed f',
         codex_auth.refresh_codex_token repr xid xem w a f = (Return refreshed, f')
         ∧ codex_auth.refresh_token refreshed = codex_auth.refresh_token a
         ∧ ∃ s' r, codex_auth.load_codex_accounts f' = Some s'
             ∧ get_active_account s' = Some r
             ∧ dget "refresh_token" r = JStr (codex_auth.refresh_token a))
  ∧ (∀ json_loads repr w a d refreshed d',
       auth.refresh_access_token json_loads repr w a d = (Return refreshed, d') →
       auth.refresh_token a ≠ "" ∧ ∃ td, auth.token_reply w = auth.TokenReplyOk td)
  ∧ (∀ repr xid xem w a f refreshed f',
       codex_auth.refresh_codex_token repr xid xem w a f = (Return refreshed, f') →
       codex_auth.refresh_token a ≠ "" ∧ ∃ td, codex_auth.token_reply w = codex_auth.TokenReplyOk td).
Proof.
  split; [|split; [|split]].
  - intros json_loads repr w a d td Hne%String.eqb_neq Hreply Htd.
    unfold auth.refresh_access_token. rewrite Hne, Hreply, Htd. simpl.
    do 2 eexists. split; [reflexivity|]. simpl. split; [done|].
    rewrite auth_upsert_load.
    match goal with |- context [auth_upserted ?x ?t ?s] =>
      destruct (auth_upserted_active x t s) as (r & Hr & _ & Htok & _) end.
    eauto.
  - intros repr xid xem w a f td Hne Hreply Htd.
    pose proof Hne as Hne'%String.eqb_neq.
    unfold codex_auth.refresh_codex_token. rewrite Hne', Hreply, Htd. simpl.
    do 2 eexists. split; [reflexivity|]. simpl. split; [done|].
    rewrite codex_upsert_load by done.
    match goal with |- context [codex_upserted ?x ?t ?s] =>
      destruct (codex_upserted_active x t s) as (r & Hr & Htok) end.
    eauto.
  - intros json_loads repr w a d refreshed d'. unfold auth.refresh_access_token.
    destruct (String.eqb (auth.refresh_token a) "") eqn:E; [done|].
    apply String.eqb_neq in E. intros H. split; [done|].
    destruct (auth.token_reply w) as [|status text| |td]; try done; [|eauto].
    destruct (auth._parse_oauth_error_payload _ _ _).
    repeat (destruct (_ : bool); try done).
  - intros repr xid xem w a f refreshed f'. unfold codex_auth.refresh_codex_token.
    destruct (String.eqb (codex_auth.refresh_token a) "") eqn:E; [done|].
    apply String.eqb_neq in E. intros H. split; [done|].
    destruct (codex_auth.token_reply w) as [|status text [data|]| |td]; try done; [|eauto].
    destruct (codex_auth.error_fields _ _ _) as [[??]|]; [|done].
    by destruct (codex_auth._is_revoked_refresh_error _ _).
Qed.

(** C6 at a reply that carries an access token only. *)
Lemma refresh_keeps_refresh_token_witness :
  ∃ refreshed d',
    auth.refresh_access_token invalid_grant_loads no_repr
      (auth.mkRefreshInput 100 (auth.TokenReplyOk (auth.mkTokenData (Some "fresh") None None))
         "" 1)
      known_auth one_account_disk = (Return refreshed, d')
    ∧ auth.refresh_token refreshed = "new".
Proof.
  destruct refresh_keeps_refresh_token as [H _].
  destruct (H invalid_grant_loads no_repr
              (auth.mkRefreshInput 100
                 (auth.TokenReplyOk (auth.mkTokenData (Some "fresh") None None)) "" 1)
              known_auth one_account_disk _ ltac:(discriminate) eq_refl eq_refl)
    as (refreshed & d' & Hres & Htok & _).
  exists refreshed, d'. split; [exact Hres|exact Htok].
Defined.

(** ** Device-code polling *)

Lemma sleep_time_margin i : (copilot_auth.sleep_time i == inject_Z i + 3)%Q.
Proof.
  unfold copilot_auth.sleep_time, copilot_auth.OAUTH_POLLING_SAFETY_MARGIN_MS.
  assert (H : (inject_Z 3000 / 1000 == 3)%Q) by reflexivity.
  by rewrite H.
Qed.

Lemma py_int_pos q :
  (0 < q)%Q →
  (inject_Z (copilot_auth.py_int q) <= q)%Q ∧ (q < inject_Z (copilot_auth.py_int q) + 1)%Q.
Proof.
  intros Hq. unfold copilot_auth.py_int.
  rewrite (proj2 (Qle_bool_iff 0 q)) by by apply Qlt_le_weak.
  split; [apply Qfloor_le|].
  pose proof (Qlt_floor q) as H. rewrite inject_Z_plus in H. exact H.
Qed.

Lemma Qle_bool_false (x y : Q) : Qle_bool x y = false ↔ (y < x)%Q.
Proof.
  split.
  - intros H. apply Qnot_le_lt. intros Hle%Qle_bool_iff. congruence.
  - intros H. destruct (Qle_bool x y) eqn:E; [|done].
    apply Qle_bool_iff in E. apply Qlt_not_le in H. contradiction.
Qed.

Lemma poll_step_sleep repr i reply t i' :
  copilot_auth.poll_step repr i reply = copilot_auth.PollSleep t i' →
  t = copilot_auth.sleep_time i'.
Proof.
  unfold copilot_auth.poll_step. destruct reply as [|text|payload]; try done.
  repeat (destruct (_ : bool); try done); by intros [= <- <-].
Qed.

(** C9, as the code has it.  On [slow_down] the polling interval becomes
    the integer part of the interval in the payload when that is a number
    greater than 0 (the value itself when it is an integer), and the
    previous interval plus 5 otherwise; it is then raised to at least 1.
    The sleep that follows, like every sleep of the loop, lasts the
    interval plus the 3 second margin.  With [interval = 10] the sleep is 13
    seconds and the later polls go on from an interval of 10. *)
Theorem slow_down_polling repr (interval_seconds : Z) (token_payload : dict) :
  truthy (dget "access_token" token_payload) = false →
  dget "error" token_payload = JStr "slow_down" →
  ∃ next : Z,
    copilot_auth.poll_step repr interval_seconds (copilot_auth.PollPayload token_payload)
    = copilot_auth.PollSleep (copilot_auth.sleep_time next) next
    ∧ (copilot_auth.sleep_time next == inject_Z next + 3)%Q
    ∧ 1 <= next
    ∧ (∀ n, dget "interval" token_payload = JInt n → 0 < n → next = n)
    ∧ (∀ q, copilot_auth.as_number (dget "interval" token_payload) = Some q → (0 < q)%Q →
         next = Z.max 1 (copilot_auth.py_int q)
         ∧ (inject_Z (copilot_auth.py_int q) <= q)%Q
         ∧ (q < inject_Z (copilot_auth.py_int q) + 1)%Q)
    ∧ ((∀ q, copilot_auth.as_number (dget "interval" token_payload) = Some q → (q <= 0)%Q) →
       next = Z.max 1 (interval_seconds + 5))
    ∧ (dget "interval" token_payload = JInt 10 →
       (inject_Z 10 + 3 <= copilot_auth.sleep_time next)%Q
       ∧ ∀ rest slept,
           copilot_auth.poll_loop repr (copilot_auth.PollPayload token_payload :: rest)
             interval_seconds slept
           = copilot_auth.poll_loop repr rest 10 (slept ++ [copilot_auth.sleep_time 10]))
    ∧ (∀ i reply t i',
         copilot_auth.poll_step repr i reply = copilot_auth.PollSleep t i' →
         t = copilot_auth.sleep_time i').
Proof.
  intros Htok Herr.
  exists (copilot_auth.slow_down_interval interval_seconds token_payload).
  assert (Hstep :
    copilot_auth.poll_step repr interval_seconds (copilot_auth.PollPayload token_payload)
    = copilot_auth.PollSleep
        (copilot_auth.sleep_time
           (copilot_auth.slow_down_interval interval_seconds token_payload))
        (copilot_auth.slow_down_interval interval_seconds token_payload)).
  { unfold copilot_auth.poll_step. by rewrite Htok, Herr. }
  assert (Hnum : ∀ q, copilot_auth.as_number (dget "interval" token_payload) = Some q →
            (0 < q)%Q →
            copilot_auth.slow_down_interval interval_seconds token_payload
            = Z.max 1 (copilot_auth.py_int q)).
  { intros q Hq Hpos. unfold copilot_auth.slow_down_interval. rewrite Hq.
    by rewrite (proj2 (Qle_bool_false q 0)). }
  assert (Hten : dget "interval" token_payload = JInt 10 →
            copilot_auth.slow_down_interval interval_seconds token_payload = 10).
  { intros H. rewrite (Hnum (inject_Z 10)); [done| by rewrite H |done]. }
  split; [done|]. split; [apply sleep_time_margin|].
  split; [unfold copilot_auth.slow_down_interval; lia|].
  split; [|split; [|split; [|split]]].
  - intros n Hn Hpos. rewrite (Hnum (inject_Z n)).
    + unfold copilot_auth.py_int.
      rewrite (proj2 (Qle_bool_iff 0 (inject_Z n))).
      * rewrite Qfloor_Z. lia.
      * change 0%Q with (inject_Z 0). rewrite <- Zle_Qle. lia.
    + by rewrite Hn.
    + change 0%Q with (inject_Z 0). rewrite <- Zlt_Qlt. lia.
  - intros q Hq Hpos. split; [by apply Hnum|]. by apply py_int_pos.
  - intros Hnon. unfold copilot_auth.slow_down_interval.
    destruct (copilot_auth.as_number _) as [q|] eqn:Hq; [|done].
    by rewrite (proj2 (Qle_bool_iff q 0) (Hnon q eq_refl)).
  - intros H. rewrite (Hten H). split; [by rewrite sleep_time_margin|].
    intros rest slept. cbn [copilot_auth.poll_loop]. by rewrite Hstep, (Hten H).
  - apply poll_step_sleep.
Qed.

Definition slow_down_payload (interval : JSON) : dict :=
  {[ "error" := JStr "slow_down"; "interval" := interval ]}.

(** C9 as stated fails: a server interval of 2.5 seconds makes the next
    interval 2, and the sleep 5 seconds, less than 2.5 plus the margin. *)
Lemma slow_down_truncates :
  copilot_auth.poll_step no_repr 5
    (copilot_auth.PollPayload (slow_down_payload (JFloat (5 # 2))))
  = copilot_auth.PollSleep (copilot_auth.sleep_time 2) 2
  ∧ (copilot_auth.sleep_time 2 < (5 # 2) + 3)%Q.
Proof. split; [reflexivity|]. rewrite sleep_time_margin. reflexivity. Qed.

(** The amended C9 at [interval = 10] after polling every 5 seconds. *)
Lemma slow_down_polling_witness :
  copilot_auth.poll_loop no_repr
    [copilot_auth.PollPayload (slow_down_payload (JInt 10))] 5 []
  = copilot_auth.StillPolling [copilot_auth.sleep_time 10] 10.
Proof.
  destruct (slow_down_polling no_repr 5 (slow_down_payload (JInt 10)) eq_refl eq_refl)
    as (next & _ & _ & _ & _ & _ & _ & Hten & _).
  destruct (Hten eq_refl) as [_ Hloop].
  rewrite (Hloop [] []). reflexivity.
Defined.

(** ** The executor *)

Section ExecutorFacts.

Context {R : Type}.
Variable on_success : chat_model.Response R → list JSON * chat_model.Handled R.
Variable streamed : bool.

#[local] Abbreviation pass := (chat_model.endpoint_pass on_success).
#[local] Abbreviation run := (chat_model.attempts on_success streamed).

(** Which branch of the endpoint loop a status takes. *)
Inductive StatusClass : Type :=
  | Retryable      (* 429 or >= 500: back off, then the next endpoint *)
  | Rejected       (* 401, 403, 404: the next endpoint at once *)
  | Success        (* 2xx *)
  | OtherFailure.  (* any other status: recorded, the next endpoint *)

Definition classify (status : Z) : StatusClass :=
  if (status =? 429) || (500 <=? status) then Retryable
  else if existsb (Z.eqb status) [401; 403; 404] then Rejected
  else if chat_model.is_success status then Success
  else OtherFailure.

Lemma classify_success status :
  chat_model.is_success status = true → classify status = Success.
Proof.
  unfold classify, chat_model.is_success. intros [H1 H2]%andb_true_iff.
  apply Z.leb_le in H1. apply Z.ltb_lt in H2. simpl.
  rewrite (proj2 (Z.eqb_neq status 429)) by lia.
  rewrite (proj2 (Z.leb_gt 500 status)) by lia.
  rewrite (proj2 (Z.eqb_neq status 401)) by lia.
  rewrite (proj2 (Z.eqb_neq status 403)) by lia.
  rewrite (proj2 (Z.eqb_neq status 404)) by lia.
  simpl. rewrite (proj2 (Z.leb_le 200 status)) by lia.
  by rewrite (proj2 (Z.ltb_lt status 300)) by lia.
Qed.

(** One step of the endpoint loop, by the class of the reply. *)
Lemma pass_transport_error w k e todo st :
  chat_model.post w k e = chat_model.TransportError →
  pass w k (e :: todo) st = pass w k todo (chat_model.log (chat_model.EvPost k e) st).
Proof. intros H. cbn [chat_model.endpoint_pass]. by rewrite H. Qed.

Lemma pass_retryable w k e todo st r :
  chat_model.post w k e = chat_model.Responded r →
  classify (chat_model.status_code r) = Retryable →
  pass w k (e :: todo) st
  = pass w k todo
      (chat_model.log
         (chat_model.EvSleep
            (chat_model._retry_after_seconds r (chat_model.backoff_base k)))
         (chat_model.set_status e (chat_model.status_code r)
            (chat_model.log (chat_model.EvPost k e) st))).
Proof.
  intros H Hc. cbn [chat_model.endpoint_pass]. rewrite H. unfold classify in Hc.
  destruct ((chat_model.status_code r =? 429) || (500 <=? chat_model.status_code r));
    [done|].
  destruct (existsb _ _); [done|].
  by destruct (chat_model.is_success _).
Qed.

Lemma pass_rejected w k e todo st r :
  chat_model.post w k e = chat_model.Responded r →
  classify (chat_model.status_code r) = Rejected →
  pass w k (e :: todo) st
  = pass w k todo
      (chat_model.set_last_http_error r
         (chat_model.set_status e (chat_model.status_code r)
            (chat_model.log (chat_model.EvPost k e) st))).
Proof.
  intros H Hc. cbn [chat_model.endpoint_pass]. rewrite H. unfold classify in Hc.
  destruct ((chat_model.status_code r =? 429) || (500 <=? chat_model.status_code r));
    [done|].
  destruct (existsb _ _); [done|].
  by destruct (chat_model.is_success _).
Qed.

Lemma pass_other_failure w k e todo st r :
  chat_model.post w k e = chat_model.Responded r →
  classify (chat_model.status_code r) = OtherFailure →
  pass w k (e :: todo) st
  = pass w k todo
      (chat_model.set_last_http_error r
         (chat_model.set_status e (chat_model.status_code r)
            (chat_model.log (chat_model.EvPost k e) st))).
Proof.
  intros H Hc. cbn [chat_model.endpoint_pass]. rewrite H. unfold classify in Hc.
  destruct ((chat_model.status_code r =? 429) || (500 <=? chat_model.status_code r))
    eqn:E1; [done|].
  destruct (existsb _ [401; 403; 404]); [done|].
  destruct (chat_model.is_success _); [done|].
  assert (E2 : existsb (Z.eqb (chat_model.status_code r)) [429; 500; 502; 503; 504] = false).
  { apply orb_false_iff in E1 as [E1 E3]. apply Z.eqb_neq in E1. apply Z.leb_gt in E3.
    simpl. rewrite !(proj2 (Z.eqb_neq _ _)) by lia. done. }
  by rewrite E2.
Qed.

Lemma pass_success w k e todo st r :
  chat_model.post w k e = chat_model.Responded r →
  chat_model.is_success (chat_model.status_code r) = true →
  pass w k (e :: todo) st
  = let st := chat_model.yield_all (on_success r).1
                (chat_model.set_status e (chat_model.status_code r)
                   (chat_model.log (chat_model.EvPost k e) st)) in
    match (on_success r).2 with
    | chat_model.HReturn v => (st, Some (Return v))
    | chat_model.HRaise err => (st, Some (Raise err))
    | chat_model.HNextEndpoint => pass w k todo st
    end.
Proof.
  intros H Hs. pose proof (classify_success _ Hs) as Hc.
  cbn [chat_model.endpoint_pass]. rewrite H. unfold classify in Hc.
  destruct ((chat_model.status_code r =? 429) || (500 <=? chat_model.status_code r));
    [done|].
  destruct (existsb _ _); [done|]. rewrite Hs.
  by destruct (on_success r) as [chunks how].
Qed.

(** An attempt whose pass ends with a result ends the call. *)
Lemma run_pass_result w n k st a sa st' result :
  chat_model._ensure_auth w k (chat_model.self_auth st) = (Return a, sa) →
  pass w k (chat_model.endpoints w) (chat_model.set_auth sa st) = (st', Some result) →
  run w (S n) k st = (st', result).
Proof. intros He Hp. cbn [chat_model.attempts]. by rewrite He, Hp. Qed.

End ExecutorFacts.

(** ** Streams that end without the completion marker *)

Lemma antigravity_stream_ended json_loads valid_content
    (response : chat_model.Response ()) chunks :
  chat_model.stream_lines json_loads valid_content (chat_model.lines response)
  = (chunks, chat_model.Ended) →
  chat_model.broken response = false →
  chat_model.stream_on_success json_loads valid_content response
  = (chunks, chat_model.HReturn ()).
Proof. intros Hl Hb. unfold chat_model.stream_on_success. by rewrite Hl, Hb. Qed.

Lemma codex_consume_ended json_loads saw response texts :
  codex_chat_model.stream_lines json_loads (codex_chat_model.lines response)
  = (texts, codex_chat_model.Ended) →
  codex_chat_model.consume json_loads saw response
  = (texts, if saw || negb (Nat.eqb (length texts) 0)
            then Return ()
            else Raise codex_chat_model.EndedBeforeCompletion).
Proof. intros Hl. unfold codex_chat_model.consume. by rewrite Hl. Qed.

(** X29.  A stream opened with a 2xx status whose lines run out without
    the completion marker, no decoding error and no transport error:
    - Antigravity: the call returns having yielded every chunk of the
      stream;
    - Codex: the call returns having yielded every text when there was at
      least one, and raises "stream ended unexpectedly before completion
      event" when there was none, on the first request and on the request
      after a recovery alike. *)
Theorem stream_end_without_marker :
  (∀ json_loads valid_content (w : chat_model.World ()) k e todo st response chunks,
     chat_model.post w k e = chat_model.Responded response →
     chat_model.is_success (chat_model.status_code response) = true →
     chat_model.broken response = false →
     chat_model.stream_lines json_loads valid_content (chat_model.lines response)
     = (chunks, chat_model.Ended) →
     ∃ st', chat_model.endpoint_pass
              (chat_model.stream_on_success json_loads valid_content) w k (e :: todo) st
            = (st', Some (Return ()))
       ∧ chat_model.yielded st' = chat_model.yielded st ++ chunks)
  ∧ (∀ json_loads valid_content (w : chat_model.World ()) a a' sa e todo response chunks,
       chat_model.endpoints w = e :: todo →
       chat_model._ensure_auth w 0 a = (Return a', sa) →
       chat_model.post w 0 e = chat_model.Responded response →
       chat_model.is_success (chat_model.status_code response) = true →
       chat_model.broken response = false →
       chat_model.stream_lines json_loads valid_content (chat_model.lines response)
       = (chunks, chat_model.Ended) →
       (chat_model._astream json_loads valid_content w a).2 = Return ()
       ∧ chat_model.yielded (chat_model._astream json_loads valid_content w a).1 = chunks)
  ∧ (∀ json_loads ensured respond recover texts,
       ensured = Return () →
       codex_chat_model.is_success (codex_chat_model.status_code (respond 0%nat)) = true →
       codex_chat_model.stream_lines json_loads (codex_chat_model.lines (respond 0%nat))
       = (texts, codex_chat_model.Ended) →
       codex_chat_model._astream json_loads ensured respond recover
       = (texts, match texts with
                 | [] => Raise codex_chat_model.EndedBeforeCompletion
                 | _ => Return ()
                 end))
  ∧ (∀ json_loads ensured respond recover texts,
       ensured = Return () →
       codex_chat_model.status_code (respond 0%nat) = 401 →
       codex_chat_model._is_cloudflare_challenge 401
         (codex_chat_model.text (respond 0%nat)) = false →
       recover = Return () →
       codex_chat_model.is_success (codex_chat_model.status_code (respond 1%nat)) = true →
       codex_chat_model.stream_lines json_loads (codex_chat_model.lines (respond 1%nat))
       = (texts, codex_chat_model.Ended) →
       codex_chat_model._astream json_loads ensured respond recover
       = (texts, match texts with
                 | [] => Raise codex_chat_model.EndedBeforeCompletion
                 | _ => Return ()
                 end)).
Proof.
  split; [|split; [|split]].
  - intros json_loads valid_content w k e todo st response chunks Hpost Hok Hb Hl.
    rewrite (pass_success _ w k e todo st response Hpost Hok).
    rewrite (antigravity_stream_ended _ _ _ _ Hl Hb). simpl. eauto.
  - intros json_loads valid_content w a a' sa e todo response chunks
      Hends Hauth Hpost Hok Hb Hl.
    unfold chat_model._astream, chat_model.executor.
    pose proof (pass_success (chat_model.stream_on_success json_loads valid_content)
                  w 0 e todo (chat_model.set_auth sa (chat_model.initial_state a))
                  response Hpost Hok) as Hp.
    rewrite (antigravity_stream_ended _ _ _ _ Hl Hb) in Hp.
    cbv beta iota zeta delta [fst snd] in Hp.
    rewrite <- Hends in Hp.
    rewrite (run_pass_result _ _ w 3 0 (chat_model.initial_state a) a' sa _ _ Hauth Hp).
    done.
  - intros json_loads ensured respond recover texts -> Hok Hl.
    unfold codex_chat_model._astream. cbn [codex_chat_model.stream_attempts].
    rewrite Hok. simpl negb. cbv iota.
    rewrite (codex_consume_ended _ _ _ _ Hl). by destruct texts.
  - intros json_loads ensured respond recover texts -> H401 Hcf -> Hok Hl.
    unfold codex_chat_model._astream. cbn [codex_chat_model.stream_attempts].
    rewrite H401, Hcf. simpl. rewrite Hok. simpl.
    rewrite (codex_consume_ended _ _ _ _ Hl). by destruct texts.
Qed.

(** A world with one endpoint that opens a stream and closes it at once. *)
Definition valid_auth : auth.AntigravityAuth :=
  auth.mkAuth "access" "refresh" 1000 (Some "a@x") (Some "project") None.

Definition empty_stream_world : chat_model.World () :=
  chat_model.mkWorld ["A"] None None (λ _, 0%Q)
    (λ _ a, Return a)
    (λ _ _, chat_model.Responded (chat_model.mkResponse 200 None "" None [] false))
    (λ a, Return a)
    (λ _, Return "").

Definition any_content (v : JSON) : bool := true.

(** C3, where the code departs from it.  The endpoint answers 200 and its
    stream ends at once, with no content and no completion marker.
    [ChatAntigravity._astream] returns without an error, having yielded
    nothing, where the claim asks for an error; [ChatCodex._astream] raises
    "stream ended unexpectedly before completion event" on the same
    stream. *)
Theorem antigravity_empty_stream_returns (json_loads : string → option JSON)
    (valid_content : JSON → bool) :
  (chat_model._astream json_loads valid_content empty_stream_world (Some valid_auth)).2
  = Return ()
  ∧ chat_model.yielded
      (chat_model._astream json_loads valid_content empty_stream_world (Some valid_auth)).1
    = []
  ∧ codex_chat_model._astream json_loads (Return ())
      (λ _, codex_chat_model.mkResponse 200 "" []) (Return ())
    = ([], Raise codex_chat_model.EndedBeforeCompletion).
Proof. split; [reflexivity|]. split; reflexivity. Qed.

(** The event [{"candidates": [{"content": {"parts": [{"text": "hi"}]}}]}],
    and [json.loads], which decodes that event and takes the other texts
    used here for no JSON. *)
Definition hi_event : string :=
  "{" +:+ quoted "candidates" +:+ ": [{" +:+ quoted "content" +:+ ": {"
  +:+ quoted "parts" +:+ ": [{" +:+ quoted "text" +:+ ": " +:+ quoted "hi" +:+ "}]}}]}".
Definition hi_loads (data : string) : option JSON :=
  if String.eqb data hi_event
  then Some (JObj {[ "candidates" :=
         JArr [JObj {[ "content" :=
                 JObj {[ "parts" := JArr [JObj {[ "text" := JStr "hi" ]}] ]} ]}] ]})
  else None.
Definition hi_line : string := "data: " +:+ hi_event.

Definition two_chunk_world : chat_model.World () :=
  chat_model.mkWorld ["A"] None None (λ _, 0%Q)
    (λ _ a, Return a)
    (λ _ _, chat_model.Responded
              (chat_model.mkResponse 200 None "" None [hi_line; ""; hi_line] false))
    (λ a, Return a)
    (λ _, Return "").

(** A stream of two chunks and no marker. *)
Lemma stream_end_without_marker_witness :
  (chat_model._astream hi_loads any_content two_chunk_world (Some valid_auth)).2 = Return ()
  ∧ chat_model.yielded
      (chat_model._astream hi_loads any_content two_chunk_world (Some valid_auth)).1
    = [JStr "hi"; JStr "hi"].
Proof.
  destruct stream_end_without_marker as (_ & H & _).
  exact (H hi_loads any_content two_chunk_world (Some valid_auth) valid_auth
           (Some valid_auth) "A" [] _ [JStr "hi"; JStr "hi"]
           eq_refl eq_refl eq_refl eq_refl eq_refl eq_refl).
Defined.

(** *** Between two passes *)

Section BetweenPasses.

Context {R : Type}.
Variable on_success : chat_model.Response R → list JSON * chat_model.Handled R.
Variable streamed : bool.

#[local] Abbreviation pass := (chat_model.endpoint_pass on_success).
#[local] Abbreviation run := (chat_model.attempts on_success streamed).

(** No request to a model endpoint. *)
Definition no_post (ev : chat_model.Event) : Prop :=
  match ev with
  | chat_model.EvPost _ _ => False
  | _ => True
  end.

(** [st'] is [st] up to [self.auth], which stays set if it was, and some
    events that are no requests to a model endpoint. *)
Definition quiet_step (st st' : chat_model.State R) : Prop :=
  chat_model.last_http_error st' = chat_model.last_http_error st
  ∧ chat_model.last_status_by_endpoint st' = chat_model.last_status_by_endpoint st
  ∧ chat_model.yielded st' = chat_model.yielded st
  ∧ (is_Some (chat_model.self_auth st) → is_Some (chat_model.self_auth st'))
  ∧ ∃ mid, chat_model.trace st' = chat_model.trace st ++ mid ∧ Forall no_post mid.

Lemma quiet_step_refl st : quiet_step st st.
Proof.
  split; [done|]. split; [done|]. split; [done|]. split; [done|].
  exists []. by rewrite app_nil_r.
Qed.

Lemma quiet_step_trans st1 st2 st3 :
  quiet_step st1 st2 → quiet_step st2 st3 → quiet_step st1 st3.
Proof.
  intros (H1 & H2 & H3 & H4 & m1 & H5 & H6) (G1 & G2 & G3 & G4 & m2 & G5 & G6).
  split; [congruence|]. split; [congruence|]. split; [congruence|].
  split; [tauto|].
  exists (m1 ++ m2). split; [by rewrite G5, H5, app_assoc|by apply Forall_app].
Qed.

Lemma quiet_step_log ev st : no_post ev → quiet_step st (chat_model.log ev st).
Proof.
  intros H. split; [done|]. split; [done|]. split; [done|]. split; [done|].
  exists [ev]. split; [done|]. by constructor.
Qed.

Lemma quiet_step_set_auth a st :
  quiet_step st (chat_model.set_auth (Some a) st).
Proof.
  split; [done|]. split; [done|]. split; [done|]. split; [by eauto|].
  exists []. by rewrite app_nil_r.
Qed.

Lemma first_pass_recovery_quiet w st :
  quiet_step st (chat_model.first_pass_recovery w st).1.
Proof.
  unfold chat_model.first_pass_recovery.
  set (first := match chat_model.last_http_error st with
                | Some e => _
                | None => _
                end).
  assert (H1 : quiet_step st first.1).
  { unfold first. destruct (chat_model.last_http_error st) as [e|];
      [|apply quiet_step_refl].
    destruct (existsb _ _); [|apply quiet_step_refl].
    destruct (chat_model.self_auth st) as [a|]; [|apply quiet_step_refl].
    destruct (chat_model.forced_refresh w a); simpl.
    - eapply quiet_step_trans; [by apply (quiet_step_log chat_model.EvRefresh)|].
      apply quiet_step_set_auth.
    - by apply (quiet_step_log chat_model.EvRefresh). }
  destruct first as [st1 did_retry]. simpl in H1.
  destruct (_ && _); [|done].
  destruct (chat_model.self_auth st1) as [a|]; [|done].
  destruct (chat_model.fetch_project_id w (auth.access_token a)) as [p|]; simpl.
  - destruct (negb _); simpl.
    + eapply quiet_step_trans; [exact H1|].
      eapply quiet_step_trans; [by apply (quiet_step_log chat_model.EvFetchProject)|].
      apply quiet_step_set_auth.
    + eapply quiet_step_trans; [exact H1|].
      by apply (quiet_step_log chat_model.EvFetchProject).
  - eapply quiet_step_trans; [exact H1|].
    by apply (quiet_step_log chat_model.EvFetchProject).
Qed.

(** An attempt whose pass ends without a result goes on with the next
    attempt, from a state that differs by a quiet step. *)
Lemma run_pass_none w n k st a sa st1 :
  chat_model._ensure_auth w k (chat_model.self_auth st) = (Return a, sa) →
  pass w k (chat_model.endpoints w) (chat_model.set_auth sa st) = (st1, None) →
  ∃ st2, run w (S n) k st = run w n (S k) st2 ∧ quiet_step st1 st2.
Proof.
  intros He Hp. cbn [chat_model.attempts]. rewrite He, Hp.
  set (rec := if Nat.eqb k 0 then chat_model.first_pass_recovery w st1 else (st1, false)).
  assert (Hq : quiet_step st1 rec.1).
  { unfold rec. destruct (Nat.eqb k 0); [apply first_pass_recovery_quiet|].
    apply quiet_step_refl. }
  destruct rec as [st2 did_retry]. simpl in Hq.
  destruct did_retry; [eauto|].
  destruct (chat_model.any_status _ _); [|eauto].
  eexists. split; [reflexivity|].
  eapply quiet_step_trans; [exact Hq|]. by apply quiet_step_log.
Qed.

(** [_ensure_auth] leaves [self.auth] set when it returns. *)
Lemma ensure_auth_Return (w : chat_model.World R) k sa a sa' :
  chat_model._ensure_auth w k sa = (Return a, sa') → sa' = Some a.
Proof.
  unfold chat_model._ensure_auth. intros H.
  destruct (match sa with None => _ | Some a0 => _ end) as [a0|]; [|done].
  destruct (auth.is_expired _ _ _); [|by simplify_eq].
  destruct (chat_model.refresh_access_token _ _ _); by simplify_eq.
Qed.

End BetweenPasses.

(** *** A retryable status and the next endpoint *)

(** A call that does not end the executor: no reply, or a reply whose
    status is not 2xx. *)
Definition fails {R} (o : chat_model.PostOutcome R) : Prop :=
  match o with
  | chat_model.TransportError => True
  | chat_model.Responded r => chat_model.is_success (chat_model.status_code r) = false
  end.

Lemma classify_not_success status :
  chat_model.is_success status = false → classify status ≠ Success.
Proof.
  unfold classify. intros H.
  destruct (_ || _); [done|]. destruct (existsb _ _); [done|]. by rewrite H.
Qed.

(** [o] when there is one, else [prev]. *)
Definition or_else {A} (o prev : option A) : option A :=
  match o with
  | Some x => Some x
  | None => prev
  end.

(** The status endpoint [e] answers with in pass [k], if it answers. *)
Definition observed {R} (w : chat_model.World R) (k : nat) (e : string) : option Z :=
  match chat_model.post w k e with
  | chat_model.Responded r => Some (chat_model.status_code r)
  | chat_model.TransportError => None
  end.

(** The reply of endpoint [e] in pass [k] when it is recorded as an HTTP
    status error: a 401, 403 or 404, or another status that is neither 2xx
    nor retryable. *)
Definition recorded_error {R} (w : chat_model.World R) (k : nat) (e : string)
  : list (chat_model.Response R) :=
  match chat_model.post w k e with
  | chat_model.Responded r =>
      match classify (chat_model.status_code r) with
      | Rejected | OtherFailure => [r]
      | _ => []
      end
  | chat_model.TransportError => []
  end.

(** One failing call: the request is made, nothing is yielded, [self.auth]
    is as before, the status and the error are recorded, and the loop goes
    on with the rest of the endpoints. *)
Lemma pass_fails_step {R} on_success (w : chat_model.World R) k e todo st :
  fails (chat_model.post w k e) →
  ∃ st1, chat_model.endpoint_pass on_success w k (e :: todo) st
         = chat_model.endpoint_pass on_success w k todo st1
    ∧ chat_model.self_auth st1 = chat_model.self_auth st
    ∧ chat_model.yielded st1 = chat_model.yielded st
    ∧ chat_model.last_http_error st1
      = or_else (last (recorded_error w k e)) (chat_model.last_http_error st)
    ∧ chat_model.last_status_by_endpoint st1
      = match observed w k e with
        | Some status => <[e := status]> (chat_model.last_status_by_endpoint st)
        | None => chat_model.last_status_by_endpoint st
        end
    ∧ ∃ mid, chat_model.trace st1
             = chat_model.trace st ++ [chat_model.EvPost k e] ++ mid
        ∧ Forall no_post mid.
Proof.
  unfold fails, observed, recorded_error.
  destruct (chat_model.post w k e) as [|r] eqn:Hpost.
  - intros _. eexists. split; [by apply pass_transport_error|].
    do 4 (split; [done|]). exists []. split; [done|]. constructor.
  - intros Hf%classify_not_success.
    destruct (classify (chat_model.status_code r)) eqn:Hc; [| | done |].
    + eexists. split; [by apply pass_retryable|].
      do 4 (split; [done|]). eexists [_]. split.
      * simpl. by rewrite <- app_assoc.
      * by repeat constructor.
    + eexists. split; [by apply pass_rejected|].
      do 4 (split; [done|]). exists []. split; [done|]. constructor.
    + eexists. split; [by apply pass_other_failure|].
      do 4 (split; [done|]). exists []. split; [done|]. constructor.
Qed.

Lemma generate_on_success_parsed {R} (r : chat_model.Response R) v :
  chat_model.parsed r = Some v →
  chat_model.generate_on_success r = ([], chat_model.HReturn v).
Proof. intros H. unfold chat_model.generate_on_success. by rewrite H. Qed.

(** C1, as the code has it.  With endpoints [A, B], a 429 or a status of
    500 and above from A on the first pass makes the executor sleep the
    backoff and then call B in that same pass; A is called again on the
    next pass only.  So if B's call fails too and A answers 2xx on the
    second pass, the executor returns the parsed result of A's second call,
    having called B once, right after the backoff. *)
Theorem retryable_moves_to_next_endpoint {R} (w : chat_model.World R)
    (a : option auth.AntigravityAuth) (A B : string) a0 sa0 rA0 rA1 (v : R) :
  chat_model.endpoints w = [A; B] →
  chat_model._ensure_auth w 0 a = (Return a0, sa0) →
  (∀ a', ∃ a1 sa1, chat_model._ensure_auth w 1 (Some a') = (Return a1, sa1)) →
  chat_model.post w 0%nat A = chat_model.Responded rA0 →
  classify (chat_model.status_code rA0) = Retryable →
  fails (chat_model.post w 0%nat B) →
  chat_model.post w 1%nat A = chat_model.Responded rA1 →
  chat_model.is_success (chat_model.status_code rA1) = true →
  chat_model.parsed rA1 = Some v →
  (chat_model._agenerate w a).2 = Return v
  ∧ ∃ mid,
      chat_model.trace (chat_model._agenerate w a).1
      = [chat_model.EvPost 0 A;
         chat_model.EvSleep (chat_model._retry_after_seconds rA0 (chat_model.backoff_base 0));
         chat_model.EvPost 0 B] ++ mid ++ [chat_model.EvPost 1 A]
      ∧ Forall no_post mid.
Proof.
  intros Hends Hauth0 Hauth1 HA0 HcA0 HB0 HA1 HokA1 Hparsed.
  pose proof (ensure_auth_Return w 0 a a0 sa0 Hauth0) as ->.
  unfold chat_model._agenerate, chat_model.executor.
  set (st0 := chat_model.set_auth (Some a0) (@chat_model.initial_state R a)).
  (* the first pass: A, the backoff, B *)
  pose proof (pass_retryable chat_model.generate_on_success w 0 A [B] st0 rA0 HA0 HcA0) as HpA.
  set (stA := chat_model.log _ _) in HpA.
  destruct (pass_fails_step chat_model.generate_on_success w 0 B [] stA HB0)
    as (stB & HpB & HauthB & _ & _ & _ & midB & HtrB & HmidB).
  rewrite HpB in HpA.
  change (chat_model.endpoint_pass chat_model.generate_on_success w 0 [] stB)
    with (stB, @None (Exc chat_model.ExecError R)) in HpA.
  rewrite <- Hends in HpA.
  destruct (run_pass_none chat_model.generate_on_success false w 3 0
              (chat_model.initial_state a) a0 (Some a0) stB Hauth0 HpA)
    as (st2 & Hrun & _ & _ & _ & Hsome & mid2 & Htr2 & Hmid2).
  rewrite Hrun.
  (* the second pass: A answers *)
  destruct Hsome as [a' Ha']; [by rewrite HauthB|].
  destruct (Hauth1 a') as (a1 & sa1 & He1). rewrite <- Ha' in He1.
  pose proof (pass_success chat_model.generate_on_success w 1 A [B]
                (chat_model.set_auth sa1 st2) rA1 HA1 HokA1) as Hp1.
  rewrite (generate_on_success_parsed rA1 v Hparsed) in Hp1.
  cbv beta iota zeta delta [fst snd] in Hp1. rewrite <- Hends in Hp1.
  rewrite (run_pass_result _ _ w 2 1 st2 a1 sa1 _ _ He1 Hp1).
  split; [done|].
  exists (midB ++ mid2). split; [|by apply Forall_app].
  simpl. rewrite Htr2, HtrB. simpl. by rewrite <- !app_assoc.
Qed.

Definition reply (status : Z) (result : option nat) : chat_model.Response nat :=
  chat_model.mkResponse status None "" result [] false.

(** Endpoints [A, B]: A answers 500, then 200 with the result 42; B cannot
    be reached on the first pass. *)
Definition ab_world : chat_model.World nat :=
  chat_model.mkWorld ["A"; "B"] None None (λ _, 0%Q)
    (λ _ a, Return a)
    (λ k e, match k with
            | O => if String.eqb e "A" then chat_model.Responded (reply 500 None)
                   else chat_model.TransportError
            | _ => chat_model.Responded (reply 200 (Some 42%nat))
            end)
    (λ a, Return a)
    (λ _, Return "").

(** The same, with a healthy B that answers 200 with the result 7. *)
Definition ab_world_healthy : chat_model.World nat :=
  chat_model.mkWorld ["A"; "B"] None None (λ _, 0%Q)
    (λ _ a, Return a)
    (λ k e, match k with
            | O => if String.eqb e "A" then chat_model.Responded (reply 500 None)
                   else chat_model.Responded (reply 200 (Some 7%nat))
            | _ => chat_model.Responded (reply 200 (Some 42%nat))
            end)
    (λ a, Return a)
    (λ _, Return "").

(** C1 as stated fails: after A's 500 and the backoff the executor calls B
    in the same pass.  When B cannot be reached it returns the result of
    A's second call, having called B; when B is healthy it returns B's
    result and never calls A again. *)
Lemma retryable_status_contacts_next_endpoint :
  (chat_model._agenerate ab_world (Some valid_auth)).2 = Return 42%nat
  ∧ chat_model.trace (chat_model._agenerate ab_world (Some valid_auth)).1
    = [chat_model.EvPost 0 "A"; chat_model.EvSleep (1 # 2);
       chat_model.EvPost 0 "B"; chat_model.EvPost 1 "A"]
  ∧ (chat_model._agenerate ab_world_healthy (Some valid_auth)).2 = Return 7%nat
  ∧ chat_model.trace (chat_model._agenerate ab_world_healthy (Some valid_auth)).1
    = [chat_model.EvPost 0 "A"; chat_model.EvSleep (1 # 2); chat_model.EvPost 0 "B"].
Proof. repeat split; reflexivity. Qed.

(** The amended C1 in the world where B cannot be reached. *)
Lemma retryable_moves_to_next_endpoint_witness :
  (chat_model._agenerate ab_world (Some valid_auth)).2 = Return 42%nat
  ∧ ∃ mid,
      chat_model.trace (chat_model._agenerate ab_world (Some valid_auth)).1
      = [chat_model.EvPost 0 "A";
         chat_model.EvSleep
           (chat_model._retry_after_seconds (reply 500 None) (chat_model.backoff_base 0));
         chat_model.EvPost 0 "B"] ++ mid ++ [chat_model.EvPost 1 "A"]
      ∧ Forall no_post mid.
Proof.
  apply (retryable_moves_to_next_endpoint ab_world (Some valid_auth) "A" "B"
           valid_auth (Some valid_auth) (reply 500 None) (reply 200 (Some 42%nat)) 42%nat
           eq_refl eq_refl).
  - intros a'. unfold chat_model._ensure_auth. simpl.
    destruct (auth.is_expired a' 60 0); eauto.
  - reflexivity.
  - reflexivity.
  - exact I.
  - reflexivity.
  - reflexivity.
  - reflexivity.
Defined.

(** *** Exhaustion *)

Lemma or_else_last_app {A} (l1 l2 : list A) prev :
  or_else (last (l1 ++ l2)) prev = or_else (last l2) (or_else (last l1) prev).
Proof. rewrite last_app. by destruct (last l2). Qed.

Lemma or_else_last_cons {A} (x : A) l prev :
  or_else (last (x :: l)) prev = or_else (last l) (Some x).
Proof. rewrite last_cons. by destruct (last l). Qed.

Lemma any_status_true (P : Z → bool) (m : gmap string Z) :
  chat_model.any_status P m = true ↔ ∃ e status, m !! e = Some status ∧ P status = true.
Proof.
  unfold chat_model.any_status. rewrite bool_decide_eq_true. unfold map_Exists.
  split; intros (e & status & H1 & H2); exists e, status;
    (split; [done|]); by apply Is_true_true.
Qed.

Section Exhaustion.

Context {R : Type}.
Variable on_success : chat_model.Response R → list JSON * chat_model.Handled R.
Variable streamed : bool.
Variable w : chat_model.World R.

#[local] Abbreviation pass := (chat_model.endpoint_pass on_success w).
#[local] Abbreviation run := (chat_model.attempts on_success streamed w).

(** The HTTP status errors of pass [k] over [todo], in order. *)
Definition pass_errors (k : nat) (todo : list string) : list (chat_model.Response R) :=
  concat (recorded_error w k <$> todo).

(** The HTTP status errors of [n] passes from pass [k] on, in order. *)
Definition errors_from (k n : nat) : list (chat_model.Response R) :=
  concat ((λ j, pass_errors j (chat_model.endpoints w)) <$> seq k n).

(** The last status endpoint [e] answers with in [n] passes from [k] on. *)
Definition last_observed_from (k n : nat) (e : string) : option Z :=
  last (omap (λ j, observed w j e) (seq k n)).

(** Every call fails, in every pass. *)
Hypothesis all_fail : ∀ k e, e ∈ chat_model.endpoints w → fails (chat_model.post w k e).
(** A credential is at hand at the start of every pass. *)
Hypothesis authenticated :
  ∀ k a', ∃ a1 sa1, chat_model._ensure_auth w k (Some a') = (Return a1, sa1).

Lemma pass_all_fail k todo :
  (∀ e, e ∈ todo → fails (chat_model.post w k e)) →
  ∀ st, ∃ st',
    pass k todo st = (st', None)
    ∧ chat_model.self_auth st' = chat_model.self_auth st
    ∧ chat_model.yielded st' = chat_model.yielded st
    ∧ chat_model.last_http_error st'
      = or_else (last (pass_errors k todo)) (chat_model.last_http_error st)
    ∧ ∀ x, chat_model.last_status_by_endpoint st' !! x
           = if bool_decide (x ∈ todo)
             then or_else (observed w k x) (chat_model.last_status_by_endpoint st !! x)
             else chat_model.last_status_by_endpoint st !! x.
Proof.
  induction todo as [|e todo IH]; intros Hfail st.
  - exists st. do 4 (split; [done|]). intros x.
    rewrite bool_decide_eq_false_2; [done|]. apply not_elem_of_nil.
  - destruct (pass_fails_step on_success w k e todo st)
      as (st1 & Hstep & Hauth1 & Hy1 & Herr1 & Hst1 & _).
    { apply Hfail. by left. }
    destruct (IH (λ x Hx, Hfail x (list_elem_of_further _ _ _ Hx)) st1)
      as (st' & Hp & Hauth' & Hy' & Herr' & Hst').
    exists st'. split; [by rewrite Hstep|].
    split; [congruence|]. split; [congruence|]. split.
    + rewrite Herr', Herr1. unfold pass_errors. rewrite fmap_cons.
      cbn [concat]. by rewrite or_else_last_app.
    + intros x. rewrite Hst', Hst1.
      destruct (decide (x = e)) as [->|Hne].
      * rewrite (bool_decide_eq_true_2 (e ∈ e :: todo)) by by left.
        destruct (observed w k e) as [status|] eqn:Hobs.
        -- rewrite lookup_insert_eq. by destruct (bool_decide _).
        -- by destruct (bool_decide _).
      * assert (Hlook : (match observed w k e with
                         | Some status => <[e:=status]> (chat_model.last_status_by_endpoint st)
                         | None => chat_model.last_status_by_endpoint st
                         end) !! x = chat_model.last_status_by_endpoint st !! x).
        { destruct (observed w k e); [by rewrite lookup_insert_ne|done]. }
        rewrite Hlook.
        destruct (decide (x ∈ todo)) as [Hin|Hnin].
        -- rewrite !bool_decide_eq_true_2; [done|by right|done].
        -- rewrite !bool_decide_eq_false_2; [done| |done].
           intros [?|?]%elem_of_cons; done.
Qed.

Lemma run_all_fail n :
  ∀ k st,
    (∃ a sa, chat_model._ensure_auth w k (chat_model.self_auth st) = (Return a, sa)) →
    ∃ st',
      run n k st = (st', Raise (chat_model.final_error streamed st'))
      ∧ chat_model.yielded st' = chat_model.yielded st
      ∧ chat_model.last_http_error st'
        = or_else (last (errors_from k n)) (chat_model.last_http_error st)
      ∧ ∀ x, chat_model.last_status_by_endpoint st' !! x
             = if bool_decide (x ∈ chat_model.endpoints w)
               then or_else (last_observed_from k n x)
                      (chat_model.last_status_by_endpoint st !! x)
               else chat_model.last_status_by_endpoint st !! x.
Proof using all_fail authenticated.
  induction n as [|n IH]; intros k st (a & sa & He).
  - exists st. split; [done|]. split; [done|]. split; [done|].
    intros x. by destruct (bool_decide _).
  - pose proof (ensure_auth_Return w k _ a sa He) as ->.
    destruct (pass_all_fail k (chat_model.endpoints w) (all_fail k)
                (chat_model.set_auth (Some a) st))
      as (st1 & Hp & Hauth1 & Hy1 & Herr1 & Hst1).
    simpl in Hauth1, Hy1, Herr1, Hst1.
    destruct (run_pass_none on_success streamed w n k st a (Some a) st1 He Hp)
      as (st2 & Hrun & Herr2 & Hst2 & Hy2 & Hsome & _).
    destruct Hsome as [a' Ha']; [by rewrite Hauth1|].
    destruct (IH (S k) st2) as (st' & Hrun' & Hy' & Herr' & Hst').
    { rewrite Ha'. apply authenticated. }
    exists st'. split; [by rewrite Hrun|]. split; [congruence|]. split.
    + rewrite Herr', Herr2, Herr1. unfold errors_from. cbn [seq fmap list_fmap concat].
      by rewrite or_else_last_app.
    + intros x. rewrite Hst', Hst2, Hst1. simpl.
      destruct (bool_decide (x ∈ chat_model.endpoints w)); [|done].
      unfold last_observed_from. cbn [seq omap list_omap].
      destruct (observed w k x) as [status|]; [|done].
      by rewrite or_else_last_cons.
Qed.

End Exhaustion.

Lemma py_len_app s t : py_len (s +:+ t) = (py_len s + py_len t)%nat.
Proof.
  induction s as [|c s IH]; [done|].
  change (String c s +:+ t) with (String c (s +:+ t)). simpl.
  destruct (is_continuation c); simpl; by rewrite IH.
Qed.

Lemma py_len_take n s : py_len (py_take n s) = Nat.min n (py_len s).
Proof.
  revert n. induction s as [|c s IH]; intros n; simpl.
  - by destruct n.
  - destruct (is_continuation c) eqn:Hc; simpl.
    + by rewrite Hc, IH.
    + destruct n as [|n]; simpl; [done|]. by rewrite Hc, IH.
Qed.

Lemma py_take_prefix n s : String.prefix (py_take n s) s = true.
Proof.
  revert n. induction s as [|c s IH]; intros n; simpl; [done|].
  destruct (is_continuation c); [|destruct n as [|n]; [done|]];
    simpl; (destruct (ascii_dec c c); [apply IH|done]).
Qed.

(** The snippet is the stripped text when that has at most 500 characters,
    and else its first 500 characters and the ellipsis, 501 characters. *)
Lemma body_snippet_spec (text : string) :
  ((py_len (strip text) ≤ 500)%nat → chat_model.body_snippet text = strip text)
  ∧ ((500 < py_len (strip text))%nat →
     chat_model.body_snippet text = py_take 500 (strip text) +:+ chat_model.ellipsis
     ∧ String.prefix (py_take 500 (strip text)) (strip text) = true
     ∧ py_len (py_take 500 (strip text)) = 500%nat
     ∧ py_len (chat_model.body_snippet text) = 501%nat).
Proof.
  unfold chat_model.body_snippet. split; intros H.
  - by rewrite (proj2 (Z.ltb_ge _ _)) by lia.
  - rewrite (proj2 (Z.ltb_lt _ _)) by lia. split; [done|].
    split; [apply py_take_prefix|].
    assert (Hlen : py_len (py_take 500 (strip text)) = 500%nat)
      by (rewrite py_len_take; lia).
    split; [done|]. rewrite py_len_app, Hlen. reflexivity.
Qed.

(** C7, as the code has it.  When every call of every pass fails, the
    executor -- [_agenerate] and [_astream] alike -- raises one aggregated
    error that reports, for each endpoint, the last status it answered
    with.  If some reply was recorded as an HTTP status error (a 401, 403
    or 404, or another status that is neither 2xx nor retryable), the error
    also carries an overall status, 429 when the last status of some
    endpoint is 429 and the status of the last such error otherwise, and a
    snippet of the body of that last error.  In [_agenerate] the snippet is
    the stripped body, cut after its first 500 characters, with an
    ellipsis, when it is longer; in [_astream], where the body was never
    read, the snippet is empty.  If no reply was recorded so (only 429 and
    5xx replies or transport failures), the error carries the endpoint
    statuses alone. *)
Theorem exhaustion_raises_aggregated_error {R}
    (on_success : chat_model.Response R → list JSON * chat_model.Handled R)
    (streamed : bool) (w : chat_model.World R) (a : option auth.AntigravityAuth) :
  (∃ a0 sa0, chat_model._ensure_auth w 0 a = (Return a0, sa0)) →
  (∀ k a', ∃ a1 sa1, chat_model._ensure_auth w k (Some a') = (Return a1, sa1)) →
  (∀ k e, e ∈ chat_model.endpoints w → fails (chat_model.post w k e)) →
  ∃ statuses : gmap string Z,
    (∀ e, statuses !! e = if bool_decide (e ∈ chat_model.endpoints w)
                          then last_observed_from w 0 4 e else None)
    ∧ match last (errors_from w 0 4) with
      | Some r =>
          ∃ code,
            (chat_model.executor on_success streamed w a).2
            = Raise (chat_model.RequestFailed code statuses
                       (if streamed then ""
                        else chat_model.body_snippet (chat_model.text r)))
            ∧ ((∃ e, statuses !! e = Some 429) → code = 429)
            ∧ ((¬ ∃ e, statuses !! e = Some 429) → code = chat_model.status_code r)
      | None =>
          (chat_model.executor on_success streamed w a).2
          = Raise (chat_model.AllEndpointsFailed statuses)
      end
    ∧ chat_model.yielded (chat_model.executor on_success streamed w a).1 = []
    ∧ ∀ text,
        ((py_len (strip text) ≤ 500)%nat → chat_model.body_snippet text = strip text)
        ∧ ((500 < py_len (strip text))%nat →
           chat_model.body_snippet text
           = py_take 500 (strip text) +:+ chat_model.ellipsis
           ∧ String.prefix (py_take 500 (strip text)) (strip text) = true
           ∧ py_len (py_take 500 (strip text)) = 500%nat
           ∧ py_len (chat_model.body_snippet text) = 501%nat).
Proof.
  intros Hauth0 Hauth Hfail.
  destruct (run_all_fail on_success streamed w Hfail Hauth 4 0 (chat_model.initial_state a)
              Hauth0)
    as (st' & Hrun & Hy & Herr & Hst).
  simpl in Hy, Herr, Hst.
  exists (chat_model.last_status_by_endpoint st').
  unfold chat_model.executor. rewrite Hrun. simpl.
  split; [|split; [|split; [done|apply body_snippet_spec]]].
  - intros e. rewrite Hst, lookup_empty.
    destruct (bool_decide _); [|done]. by destruct (last_observed_from w 0 4 e).
  - unfold chat_model.final_error. rewrite Herr.
    destruct (last (errors_from w 0 4)) as [r|]; simpl; [|done].
    eexists. split; [by destruct streamed|].
    destruct (chat_model.any_status _ _) eqn:Hany.
    + split; [done|]. intros Hno. exfalso. apply Hno.
      apply any_status_true in Hany as (e & status & He & ->%Z.eqb_eq). eauto.
    + split; [|done]. intros (e & He).
      assert (chat_model.any_status (λ status, status =? 429)
                (chat_model.last_status_by_endpoint st') = true) as Ht.
      { apply any_status_true. eauto. }
      congruence.
Qed.

Definition denied (status : Z) : chat_model.Response nat :=
  chat_model.mkResponse status None "  denied  " None [] false.

(** Every endpoint answers 429, in every pass. *)
Definition rate_limited_world : chat_model.World nat :=
  chat_model.mkWorld ["A"; "B"] None None (λ _, 0%Q)
    (λ _ a, Return a)
    (λ _ _, chat_model.Responded (denied 429))
    (λ a, Return a)
    (λ _, Return "").

(** A answers 429 on the first pass and 403 from then on; B always answers
    403. *)
Definition once_limited_world : chat_model.World nat :=
  chat_model.mkWorld ["A"; "B"] None None (λ _, 0%Q)
    (λ _ a, Return a)
    (λ k e, match k with
            | O => if String.eqb e "A" then chat_model.Responded (denied 429)
                   else chat_model.Responded (denied 403)
            | _ => chat_model.Responded (denied 403)
            end)
    (λ a, Return a)
    (λ _, Return "").

(** C7 as stated fails.  When every endpoint keeps answering 429 the error
    raised has no overall status and no body snippet.  When A answered 429
    once and 403 afterwards, the overall status is 403. *)
Lemma exhaustion_without_overall_status :
  (chat_model._agenerate rate_limited_world (Some valid_auth)).2
  = Raise (chat_model.AllEndpointsFailed {[ "A" := 429; "B" := 429 ]})
  ∧ (chat_model._agenerate once_limited_world (Some valid_auth)).2
    = Raise (chat_model.RequestFailed 403 {[ "A" := 403; "B" := 403 ]} "denied").
Proof. split; vm_compute; reflexivity. Qed.

(** A always answers 429 and B always answers 403. *)
Definition mixed_world : chat_model.World nat :=
  chat_model.mkWorld ["A"; "B"] None None (λ _, 0%Q)
    (λ _ a, Return a)
    (λ _ e, if String.eqb e "A" then chat_model.Responded (denied 429)
            else chat_model.Responded (denied 403))
    (λ a, Return a)
    (λ _, Return "").

(** The amended C7 in that world: 429 is the overall status although the
    last HTTP status error is B's 403, whose stripped body is reported. *)
Lemma exhaustion_raises_aggregated_error_witness :
  ∃ statuses : gmap string Z,
    statuses !! "A" = Some 429
    ∧ statuses !! "B" = Some 403
    ∧ (chat_model._agenerate mixed_world (Some valid_auth)).2
      = Raise (chat_model.RequestFailed 429 statuses "denied").
Proof.
  destruct (exhaustion_raises_aggregated_error chat_model.generate_on_success false
              mixed_world (Some valid_auth)) as (statuses & Hst & Hres & _).
  - by do 2 eexists.
  - intros k a'. unfold chat_model._ensure_auth. simpl.
    destruct (auth.is_expired a' 60 0); eauto.
  - intros k e _. unfold fails. simpl. by destruct (String.eqb e "A").
  - exists statuses.
    assert (HA : statuses !! "A" = Some 429) by (rewrite Hst; reflexivity).
    split; [exact HA|]. split; [rewrite Hst; reflexivity|].
    change (last (errors_from mixed_world 0 4)) with (Some (denied 403)) in Hres.
    destruct Hres as (code & Hres & H429 & _).
    rewrite (H429 (ex_intro _ "A" HA)) in Hres. exact Hres.
Defined.

(** * Further properties of the code *)

(** ** The executor: how many requests, and in which order *)

(** The requests of a trace, in order. *)
Definition posts_of (tr : list chat_model.Event) : list (nat * string) :=
  omap (λ ev, match ev with
              | chat_model.EvPost k e => Some (k, e)
              | _ => None
              end) tr.





Lemma no_post_posts tr : Forall no_post tr → posts_of tr = [].
Proof.
  induction 1 as [|ev tr Hev _ IH]; [done|].
  destruct ev; try done; unfold posts_of in *; simpl; by rewrite IH.
Qed.













(** X2.  A call that cannot get a credential makes no request.  With no
    credential in memory and none in the store it raises "no authentication
    found"; when the credential is expired and its refresh raises, that
    error is raised and [self.auth] keeps the expired credential.  The same
    holds at a later pass: the error ends the call at once. *)
Theorem executor_auth_failure {R}
    (on_success : chat_model.Response R → list JSON * chat_model.Handled R)
    (streamed : bool) (w : chat_model.World R) :
  (chat_model.load_auth_from_storage w = None →
   chat_model.executor on_success streamed w None
   = (chat_model.initial_state None, Raise chat_model.NoAuthentication))
  ∧ (∀ a e,
       auth.is_expired a 60 (chat_model.now w 0) = true →
       chat_model.refresh_access_token w 0 a = Raise e →
       chat_model.executor on_success streamed w (Some a)
       = (chat_model.initial_state (Some a), Raise (chat_model.AuthError e)))
  ∧ (∀ n k st e sa,
       chat_model._ensure_auth w k (chat_model.self_auth st) = (Raise e, sa) →
       (chat_model.attempts on_success streamed w (S n) k st).2 = Raise e
       ∧ chat_model.trace (chat_model.attempts on_success streamed w (S n) k st).1
         = chat_model.trace st
       ∧ chat_model.yielded (chat_model.attempts on_success streamed w (S n) k st).1
         = chat_model.yielded st).
Proof.
  split; [|split].
  - intros Hnone. unfold chat_model.executor. cbn [chat_model.attempts].
    unfold chat_model._ensure_auth. simpl. by rewrite Hnone.
  - intros a e Hx Hr. unfold chat_model.executor. cbn [chat_model.attempts].
    unfold chat_model._ensure_auth. simpl. by rewrite Hx, Hr.
  - intros n k st e sa He. cbn [chat_model.attempts]. by rewrite He.
Qed.

(** A world with no credential anywhere. *)
Definition signed_out_world : chat_model.World nat :=
  chat_model.mkWorld ["A"; "B"] None None (λ _, 0%Q) (λ _ a, Return a)
    (λ _ _, chat_model.Responded (reply 200 (Some 1%nat)))
    (λ a, Return a) (λ _, Return "").

Lemma executor_auth_failure_witness :
  chat_model._agenerate signed_out_world None
  = (chat_model.initial_state None, Raise chat_model.NoAuthentication).
Proof.
  destruct (executor_auth_failure chat_model.generate_on_success false signed_out_world) as [H _].
  exact (H eq_refl).
Defined.

(** The endpoints before the first one that answers: each is called once,
    in order, and nothing is yielded. *)
Lemma pass_fails_prefix {R} on_success (w : chat_model.World R) k pre rest :
  (∀ x, x ∈ pre → fails (chat_model.post w k x)) →
  ∀ st, ∃ st1 mid,
    chat_model.endpoint_pass on_success w k (pre ++ rest) st
    = chat_model.endpoint_pass on_success w k rest st1
    ∧ chat_model.yielded st1 = chat_model.yielded st
    ∧ chat_model.trace st1 = chat_model.trace st ++ mid
    ∧ posts_of mid = (λ e, (k, e)) <$> pre.
Proof.
  induction pre as [|e pre IH]; intros Hfail st.
  - exists st, []. simpl. by rewrite app_nil_r.
  - destruct (pass_fails_step on_success w k e (pre ++ rest) st)
      as (st1 & Hstep & _ & Hy1 & _ & _ & mid1 & Htr1 & Hmid1).
    { apply Hfail. by left. }
    destruct (IH (λ x Hx, Hfail x (list_elem_of_further _ _ _ Hx)) st1)
      as (st2 & mid2 & Hgo & Hy2 & Htr2 & Hposts2).
    exists st2, ([chat_model.EvPost k e] ++ mid1 ++ mid2).
    split; [change ((e :: pre) ++ rest) with (e :: (pre ++ rest)); by rewrite Hstep|].
    split; [congruence|].
    split; [rewrite Htr2, Htr1; by rewrite <- !app_assoc|].
    unfold posts_of in *. rewrite !omap_app, Hposts2.
    fold (posts_of mid1). by rewrite (no_post_posts mid1 Hmid1).
Qed.

(** X3.  Endpoints are tried in list order and the first one that answers
    with a 2xx status decides the call: when the endpoints before it fail,
    the call returns what the code under that response returns, yields only
    what that response yields, and has requested exactly these endpoints,
    once each and in order.  The endpoints after it are not contacted. *)
Theorem first_success_wins {R}
    (on_success : chat_model.Response R → list JSON * chat_model.Handled R)
    (streamed : bool) (w : chat_model.World R) (a : option auth.AntigravityAuth)
    pre e rest a0 sa r chunks (v : R) :
  chat_model.endpoints w = pre ++ e :: rest →
  chat_model._ensure_auth w 0 a = (Return a0, sa) →
  (∀ x, x ∈ pre → fails (chat_model.post w 0%nat x)) →
  chat_model.post w 0%nat e = chat_model.Responded r →
  chat_model.is_success (chat_model.status_code r) = true →
  on_success r = (chunks, chat_model.HReturn v) →
  (chat_model.executor on_success streamed w a).2 = Return v
  ∧ chat_model.yielded (chat_model.executor on_success streamed w a).1 = chunks
  ∧ posts_of (chat_model.trace (chat_model.executor on_success streamed w a).1)
    = (λ x, (0%nat, x)) <$> (pre ++ [e]).
Proof.
  intros Hends Hauth Hfail Hpost Hok Hon.
  destruct (pass_fails_prefix on_success w 0 pre (e :: rest) Hfail
              (chat_model.set_auth sa (chat_model.initial_state a)))
    as (st1 & mid & Hgo & Hy & Htr & Hposts).
  pose proof (pass_success on_success w 0 e rest st1 r Hpost Hok) as Hp.
  rewrite Hon in Hp. cbv beta iota zeta delta [fst snd] in Hp.
  rewrite <- Hgo, <- Hends in Hp.
  unfold chat_model.executor.
  rewrite (run_pass_result on_success streamed w 3 0 (chat_model.initial_state a) a0 sa _ _ Hauth Hp).
  simpl. split; [done|]. split; [by rewrite Hy|].
  rewrite Htr. simpl. unfold posts_of in *. rewrite !omap_app, Hposts, fmap_app. done.
Qed.

(** Three endpoints: the first cannot be reached, the second answers 200. *)
Definition fallback_world : chat_model.World nat :=
  chat_model.mkWorld ["A"; "B"; "C"] None None (λ _, 0%Q) (λ _ a, Return a)
    (λ _ e, if String.eqb e "A" then chat_model.TransportError
            else chat_model.Responded (reply 200 (Some 7%nat)))
    (λ a, Return a) (λ _, Return "").

Lemma first_success_wins_witness :
  (chat_model._agenerate fallback_world (Some valid_auth)).2 = Return 7%nat
  ∧ posts_of (chat_model.trace (chat_model._agenerate fallback_world (Some valid_auth)).1)
    = [(0%nat, "A"); (0%nat, "B")].
Proof.
  destruct (first_success_wins chat_model.generate_on_success false fallback_world
              (Some valid_auth) ["A"] "B" ["C"] valid_auth (Some valid_auth)
              (reply 200 (Some 7%nat)) [] 7%nat eq_refl eq_refl)
    as (Hres & _ & Hposts); [|reflexivity|reflexivity|reflexivity|].
  - intros x ->%list_elem_of_singleton. exact I.
  - split; [exact Hres|exact Hposts].
Defined.

(** ** Streams: the completion marker and the lines that carry nothing *)

(** A stream whose lines ran out goes on with the lines that follow. *)
Lemma antigravity_stream_app json_loads valid_content l1 l2 chunks :
  chat_model.stream_lines json_loads valid_content l1 = (chunks, chat_model.Ended) →
  chat_model.stream_lines json_loads valid_content (l1 ++ l2)
  = (chunks ++ (chat_model.stream_lines json_loads valid_content l2).1,
     (chat_model.stream_lines json_loads valid_content l2).2).
Proof.
  revert chunks. induction l1 as [|line l1 IH]; intros chunks H; simpl in *.
  - simplify_eq. by destruct (chat_model.stream_lines _ _ l2).
  - destruct (String.prefix "data: " line); [|by apply IH].
    destruct (String.eqb _ "[DONE]"); [done|].
    destruct (json_loads _) as [chunk_data|]; [|by apply IH].
    destruct (chat_model.decode_chunk valid_content chunk_data) as [cs [|]]; [done|].
    destruct (chat_model.stream_lines json_loads valid_content l1) as [more how].
    simplify_eq. rewrite (IH more eq_refl). simpl. by rewrite app_assoc.
Qed.

Lemma codex_stream_app json_loads l1 l2 texts :
  codex_chat_model.stream_lines json_loads l1 = (texts, codex_chat_model.Ended) →
  codex_chat_model.stream_lines json_loads (l1 ++ l2)
  = (texts ++ (codex_chat_model.stream_lines json_loads l2).1,
     (codex_chat_model.stream_lines json_loads l2).2).
Proof.
  revert texts. induction l1 as [|line l1 IH]; intros texts H; simpl in *.
  - simplify_eq. by destruct (codex_chat_model.stream_lines _ l2).
  - destruct (String.prefix "data: " line); [|by apply IH].
    destruct (String.eqb _ "[DONE]"); [done|].
    destruct (json_loads _) as [chunk_data|]; [|by apply IH].
    destruct (codex_chat_model.decode_event chunk_data) as [ts|]; [|done].
    destruct (codex_chat_model.stream_lines json_loads l1) as [more how].
    simplify_eq. rewrite (IH more eq_refl). simpl. by rewrite app_assoc.
Qed.

(** X4.  The completion marker ends a stream: when the lines before the
    first "data: [DONE]" decode without an error, the call returns having
    yielded what those lines carry, whatever follows the marker and whether
    or not the connection breaks afterwards.  For Codex this is a success
    even when nothing was yielded. *)
Theorem marker_ends_stream :
  (∀ json_loads valid_content (response : chat_model.Response ()) l1 l2 chunks,
     chat_model.lines response = l1 ++ "data: [DONE]" :: l2 →
     chat_model.stream_lines json_loads valid_content l1 = (chunks, chat_model.Ended) →
     chat_model.stream_on_success json_loads valid_content response
     = (chunks, chat_model.HReturn ()))
  ∧ (∀ json_loads saw (response : codex_chat_model.Response) l1 l2 texts,
       codex_chat_model.lines response = l1 ++ "data: [DONE]" :: l2 →
       codex_chat_model.stream_lines json_loads l1 = (texts, codex_chat_model.Ended) →
       codex_chat_model.consume json_loads saw response = (texts, Return ())).
Proof.
  split.
  - intros json_loads valid_content response l1 l2 chunks Hl H.
    unfold chat_model.stream_on_success.
    rewrite Hl, (antigravity_stream_app _ _ _ _ _ H). simpl. by rewrite app_nil_r.
  - intros json_loads saw response l1 l2 texts Hl H.
    unfold codex_chat_model.consume.
    rewrite Hl, (codex_stream_app _ _ _ _ H). simpl. by rewrite app_nil_r.
Qed.

Lemma marker_ends_stream_witness :
  chat_model.stream_on_success hi_loads any_content
    (chat_model.mkResponse 200 None "" None [hi_line; "data: [DONE]"; hi_line] true)
  = ([JStr "hi"], chat_model.HReturn ()).
Proof.
  destruct marker_ends_stream as [H _].
  exact (H hi_loads any_content
           (chat_model.mkResponse 200 None "" None [hi_line; "data: [DONE]"; hi_line] true)
           [hi_line] [hi_line] [JStr "hi"] eq_refl eq_refl).
Defined.

(** Whether a line of the stream carries something: a data line that is the
    marker or that decodes. *)
Definition carries (json_loads : string → option JSON) (line : string) : bool :=
  String.prefix "data: " line
  && (String.eqb (chat_model.after_prefix line) "[DONE]"
      || bool_decide (is_Some (json_loads (chat_model.after_prefix line)))).

(** X5.  Lines that are no data lines (blank lines, comments, event names)
    and data lines whose payload is not JSON are skipped: a stream and the
    stream without these lines yield the same and end the same way, for
    both providers. *)
Theorem stream_skips_noise :
  (∀ json_loads valid_content (l : list string),
     chat_model.stream_lines json_loads valid_content (List.filter (carries json_loads) l)
     = chat_model.stream_lines json_loads valid_content l)
  ∧ (∀ json_loads (l : list string),
       codex_chat_model.stream_lines json_loads (List.filter (carries json_loads) l)
       = codex_chat_model.stream_lines json_loads l).
Proof.
  split.
  - intros json_loads valid_content l. induction l as [|line l IH]; [done|].
    assert (Hc : carries json_loads line
                 = String.prefix "data: " line
                   && (String.eqb (chat_model.after_prefix line) "[DONE]"
                       || bool_decide (is_Some (json_loads (chat_model.after_prefix line)))))
      by done.
    cbn [List.filter]. rewrite Hc. clear Hc. cbn [chat_model.stream_lines].
    destruct (String.prefix "data: " line) eqn:Hp; cbn [andb]; [|done].
    destruct (String.eqb _ "[DONE]") eqn:Hd; cbn [orb].
    { cbn [chat_model.stream_lines]. by rewrite Hp, Hd. }
    destruct (json_loads _) as [chunk_data|] eqn:Hj; [|by rewrite bool_decide_eq_false_2 by by intros [??]].
    rewrite bool_decide_eq_true_2 by eauto. cbn [chat_model.stream_lines]. rewrite Hp, Hd, Hj.
    destruct (chat_model.decode_chunk valid_content chunk_data) as [cs [|]]; [done|].
    by rewrite IH.
  - intros json_loads l. induction l as [|line l IH]; [done|].
    assert (Hc : carries json_loads line
                 = String.prefix "data: " line
                   && (String.eqb (chat_model.after_prefix line) "[DONE]"
                       || bool_decide (is_Some (json_loads (chat_model.after_prefix line)))))
      by done.
    cbn [List.filter]. rewrite Hc. clear Hc. cbn [codex_chat_model.stream_lines].
    destruct (String.prefix "data: " line) eqn:Hp; cbn [andb]; [|done].
    destruct (String.eqb _ "[DONE]") eqn:Hd; cbn [orb].
    { cbn [codex_chat_model.stream_lines]. by rewrite Hp, Hd. }
    destruct (json_loads _) as [chunk_data|] eqn:Hj; [|by rewrite bool_decide_eq_false_2 by by intros [??]].
    rewrite bool_decide_eq_true_2 by eauto. cbn [codex_chat_model.stream_lines]. rewrite Hp, Hd, Hj.
    destruct (codex_chat_model.decode_event chunk_data) as [ts|]; [|done].
    by rewrite IH.
Qed.

(** ** The Codex streaming call: its two attempts *)

(** X6.  [ChatCodex._astream] sends at most two requests, the second only
    after a 401 on the first and a successful recovery.  A 401 on the
    second request ends the call like any other error status: with the API
    error of status 401, or with the [TypeError] of an error body that is
    JSON and no object.  So the error "unauthorized after token refresh"
    below the loop is never raised.  A recovery that raises ends the call
    with that error, and the error "stream ended unexpectedly" is raised
    only when nothing was yielded. *)
Theorem codex_stream_second_attempt :
  (∀ json_loads ensured respond recover,
     (codex_chat_model._astream json_loads ensured respond recover).2
     ≠ Raise codex_chat_model.UnauthorizedAfterRefresh)
  ∧ (∀ json_loads respond respond' ensured recover,
       respond 0%nat = respond' 0%nat → respond 1%nat = respond' 1%nat →
       codex_chat_model._astream json_loads ensured respond recover
       = codex_chat_model._astream json_loads ensured respond' recover)
  ∧ (∀ json_loads respond respond' ensured recover,
       codex_chat_model.status_code (respond 0%nat) ≠ 401 →
       respond 0%nat = respond' 0%nat →
       codex_chat_model._astream json_loads ensured respond recover
       = codex_chat_model._astream json_loads ensured respond' recover)
  ∧ (∀ json_loads respond,
       codex_chat_model.status_code (respond 0%nat) = 401 →
       codex_chat_model.status_code (respond 1%nat) = 401 →
       codex_chat_model._astream json_loads (Return ()) respond (Return ())
       = ([], Raise (if codex_chat_model.error_body_raises json_loads
                          (codex_chat_model.text (respond 1%nat))
                     then codex_chat_model.ErrorBodyRaised
                     else codex_chat_model.ApiError 401)))
  ∧ (∀ json_loads respond e,
       codex_chat_model.status_code (respond 0%nat) = 401 →
       codex_chat_model._astream json_loads (Return ()) respond (Raise e)
       = ([], Raise (codex_chat_model.AuthError e)))
  ∧ (∀ json_loads ensured respond recover,
       (codex_chat_model._astream json_loads ensured respond recover).2
       = Raise codex_chat_model.EndedBeforeCompletion →
       (codex_chat_model._astream json_loads ensured respond recover).1 = []).
Proof.
  assert (Hconsume : ∀ json_loads saw response,
    (codex_chat_model.consume json_loads saw response).2
    = Raise codex_chat_model.EndedBeforeCompletion →
    (codex_chat_model.consume json_loads saw response).1 = []).
  { intros json_loads saw response. unfold codex_chat_model.consume.
    destruct (codex_chat_model.stream_lines _ _) as [texts [| |]]; simpl; try done.
    destruct texts; [done|]. by rewrite orb_true_r. }
  assert (Hne : ∀ json_loads saw response,
    (codex_chat_model.consume json_loads saw response).2
    ≠ Raise codex_chat_model.UnauthorizedAfterRefresh).
  { intros json_loads saw response. unfold codex_chat_model.consume.
    destruct (codex_chat_model.stream_lines _ _) as [texts [| |]]; simpl; try done.
    by destruct (_ || _). }
  split; [|split; [|split; [|split; [|split]]]].
  - intros json_loads [|e] respond recover; [|done].
    unfold codex_chat_model._astream. cbn [codex_chat_model.stream_attempts Nat.eqb].
    rewrite andb_false_r.
    repeat (case_match; try done); simpl; try apply Hne.
  - intros json_loads respond respond' [|e] recover H0 H1; [|done].
    unfold codex_chat_model._astream. cbn [codex_chat_model.stream_attempts].
    by rewrite H0, H1.
  - intros json_loads respond respond' [|e] recover Hn H0; [|done].
    unfold codex_chat_model._astream. cbn [codex_chat_model.stream_attempts].
    rewrite <- H0. apply Z.eqb_neq in Hn. rewrite Hn. simpl.
    by repeat case_match.
  - intros json_loads respond H0 H1.
    unfold codex_chat_model._astream. cbn [codex_chat_model.stream_attempts].
    rewrite H0, H1. simpl. by destruct (codex_chat_model.error_body_raises _ _).
  - intros json_loads respond e H0.
    unfold codex_chat_model._astream. cbn [codex_chat_model.stream_attempts].
    by rewrite H0.
  - intros json_loads [|e] respond recover; [|done].
    unfold codex_chat_model._astream. cbn [codex_chat_model.stream_attempts Nat.eqb].
    rewrite andb_false_r.
    repeat (case_match; try done); simpl; try apply Hconsume.
Qed.

Lemma codex_stream_second_attempt_witness :
  codex_chat_model._astream invalid_grant_loads (Return ())
    (λ _, codex_chat_model.mkResponse 401 "denied" []) (Return ())
  = ([], Raise (codex_chat_model.ApiError 401)).
Proof.
  destruct codex_stream_second_attempt as (_ & _ & _ & H & _).
  exact (H invalid_grant_loads (λ _, codex_chat_model.mkResponse 401 "denied" [])
           eq_refl eq_refl).
Defined.

(** ** The account store: selecting, removing and listing *)

Definition set_active (p : Provider) : string → Store p → bool * Store p :=
  match p with
  | Antigravity => auth.set_active_account
  | Codex => codex_auth.set_active_codex_account
  | Copilot => copilot_auth.set_active_copilot_account
  end.

Lemma storage_set_active_Some key ident s s' :
  storage_set_active key ident s = Some s' →
  ∃ i acc, accounts s !! i = Some acc
    ∧ dget key acc = JStr ident
    ∧ (∀ j acc', accounts s !! j = Some acc' → (j < i)%nat → dget key acc' ≠ JStr ident)
    ∧ s' = mkStorage (version s) (accounts s) (Z.of_nat i).
Proof.
  unfold storage_set_active. intros H.
  destruct (index_where _ _) as [i|] eqn:E; [|done].
  apply index_where_Some in E as (acc & Hacc & HP & Hfirst).
  apply py_eq_str_true in HP. simplify_eq/=.
  exists i, acc. split; [done|]. split; [done|]. split; [|done].
  intros j acc' Hj Hlt Heq. specialize (Hfirst j acc' Hj Hlt). simpl in Hfirst.
  apply py_eq_str_true in Heq. congruence.
Qed.

Lemma storage_set_active_is_Some key ident s :
  is_Some (storage_set_active key ident s)
  ↔ ∃ acc, acc ∈ accounts s ∧ dget key acc = JStr ident.
Proof.
  unfold storage_set_active.
  destruct (index_where _ _) as [i|] eqn:E.
  - split; [|eauto]. intros _.
    apply index_where_Some in E as (acc & Hacc & HP & _).
    exists acc. split; [by eapply list_elem_of_lookup_2|by apply py_eq_str_true].
  - split; [by intros [? ?]|]. intros (acc & Hin & Hk).
    rewrite index_where_None in E. specialize (E acc Hin).
    apply py_eq_str_true in Hk. congruence.
Qed.

(** Each [set_active_*] is [storage_set_active] between a load and a save. *)
Lemma set_active_unfold p ident d :
  set_active p ident d =
  match load p d with
  | None => (false, d)
  | Some s =>
      match storage_set_active (identity_key p) ident s with
      | Some s' => (true, snd (set_active p ident d))
      | None => (false, d)
      end
  end
  ∧ ∀ s s', load p d = Some s → storage_set_active (identity_key p) ident s = Some s' →
      load p (snd (set_active p ident d)) = Some s'.
Proof.
  destruct p; simpl;
    unfold auth.set_active_account, codex_auth.set_active_codex_account,
      copilot_auth.set_active_copilot_account;
    (split; [|intros s s' Hs Hr; rewrite Hs, Hr; reflexivity]);
    destruct (_ d) as [s|]; try done;
    destruct (storage_set_active _ ident s); done.
Qed.

(** X7.  [set_active_account], [set_active_codex_account] and
    [set_active_copilot_account] return true exactly when the store has an
    account with the identity; they then change nothing but [activeIndex],
    which becomes the index of the first such account, so that account is
    the active one.  When they return false the files are untouched. *)
Theorem set_active_selects (p : Provider) (ident : string) (d : Store p) :
  (fst (set_active p ident d) = true
   ↔ ∃ s acc, load p d = Some s ∧ acc ∈ accounts s
              ∧ dget (identity_key p) acc = JStr ident)
  ∧ (fst (set_active p ident d) = false → snd (set_active p ident d) = d)
  ∧ (∀ s, load p d = Some s → fst (set_active p ident d) = true →
       ∃ s' i acc,
         load p (snd (set_active p ident d)) = Some s'
         ∧ accounts s' = accounts s ∧ version s' = version s
         ∧ active_index s' = Z.of_nat i
         ∧ get_active_account s' = Some acc
         ∧ accounts s !! i = Some acc
         ∧ dget (identity_key p) acc = JStr ident
         ∧ ∀ j acc', accounts s !! j = Some acc' → (j < i)%nat →
             dget (identity_key p) acc' ≠ JStr ident).
Proof.
  destruct (set_active_unfold p ident d) as [Hun Hload]. split; [|split].
  - rewrite Hun. destruct (load p d) as [s|] eqn:Hs.
    + destruct (storage_set_active (identity_key p) ident s) as [s'|] eqn:Hr; simpl.
      * split; [|done]. intros _.
        destruct (proj1 (storage_set_active_is_Some _ _ _) (mk_is_Some _ _ Hr))
          as (acc & ? & ?). eauto.
      * split; [done|]. intros (s0 & acc & [= <-] & Hin & Hk).
        assert (is_Some (storage_set_active (identity_key p) ident s)) as [? ?]
          by (apply storage_set_active_is_Some; eauto).
        congruence.
    + simpl. split; [done|]. intros (? & ? & ? & _). done.
  - rewrite Hun. destruct (load p d) as [s|]; [|done].
    by destruct (storage_set_active (identity_key p) ident s).
  - intros s Hs Hok. rewrite Hun, Hs in Hok.
    destruct (storage_set_active (identity_key p) ident s) as [s'|] eqn:Hr; [|done].
    destruct (storage_set_active_Some _ _ _ _ Hr) as (i & acc & Hacc & Hk & Hfirst & ->).
    eexists _, i, acc. split; [by eapply Hload|]. simpl.
    do 3 (split; [done|]). split; [|done].
    unfold get_active_account, index_in_range. simpl.
    apply lookup_lt_Some in Hacc as Hlt. unfold len.
    rewrite (proj2 (Z.leb_le _ _)) by lia. rewrite (proj2 (Z.ltb_lt _ _)) by lia.
    simpl. by rewrite Nat2Z.id.
Qed.

Lemma set_active_selects_witness :
  ∃ s', auth.load_accounts
          (snd (auth.set_active_account "b@x"
                  (auth.mkDisk (GoodFile (mkStorage 3 [stored "a@x"; stored "b@x"] 0))
                     NoFile))) = Some s'
    ∧ get_active_account s' = Some (stored "b@x").
Proof.
  destruct (set_active_selects Antigravity "b@x"
              (auth.mkDisk (GoodFile (mkStorage 3 [stored "a@x"; stored "b@x"] 0)) NoFile))
    as (_ & _ & H).
  destruct (H _ eq_refl eq_refl) as (s' & i & acc & Hs' & _ & _ & Hi & Hact & Hacc & Hk & _).
  exists s'. split; [exact Hs'|]. rewrite Hact. f_equal.
  destruct i as [|[|i]]; simpl in Hacc; [|congruence|discriminate].
  injection Hacc as <-. vm_compute in Hk. discriminate.
Defined.

(** What is left of a list when the element at [i] is deleted. *)
Lemma elem_of_delete_lookup {A} (l : list A) i x :
  x ∈ delete i l → ∃ j, j ≠ i ∧ l !! j = Some x.
Proof.
  intros (j & Hj)%list_elem_of_lookup_1.
  destruct (decide (j < i)%nat) as [Hlt|Hge].
  - rewrite list_lookup_delete_lt in Hj by done. exists j. split; [lia|done].
  - rewrite list_lookup_delete_ge in Hj by lia. exists (S j). split; [lia|done].
Qed.

(** X8.  A removal drops the first account with the identity and keeps the
    others in their order.  When the identity was stored once, no account
    has it afterwards: a second [remove] and a [set_active] for it both
    return false and leave the files as they are. *)
Theorem remove_then_absent (p : Provider) (ident : string) (d : Store p) (s : AccountStorage) :
  load p d = Some s →
  fst (remove p ident d) = true →
  ∃ s' i acc,
    load p (snd (remove p ident d)) = Some s'
    ∧ accounts s !! i = Some acc
    ∧ dget (identity_key p) acc = JStr ident
    ∧ (∀ j acc', accounts s !! j = Some acc' → (j < i)%nat →
         dget (identity_key p) acc' ≠ JStr ident)
    ∧ accounts s' = delete i (accounts s)
    ∧ ((∀ j acc', accounts s !! j = Some acc' →
          dget (identity_key p) acc' = JStr ident → j = i) →
       (∀ acc', acc' ∈ accounts s' → dget (identity_key p) acc' ≠ JStr ident)
       ∧ remove p ident (snd (remove p ident d)) = (false, snd (remove p ident d))
       ∧ set_active p ident (snd (remove p ident d)) = (false, snd (remove p ident d))).
Proof.
  intros Hs Hok.
  destruct (remove_unfold p ident d) as [Hun Hload]. rewrite Hun, Hs in Hok.
  destruct (storage_remove (identity_key p) ident s) as [s'|] eqn:Hr; [|done].
  destruct (storage_remove_first _ _ _ _ Hr) as (i & [(acc & Hacc & Hk) Hbefore] & Heq).
  assert (Haccs : accounts s' = delete i (accounts s)) by by rewrite Heq.
  specialize (Hload s s' Hs Hr).
  exists s', i, acc. do 5 (split; [done|]). intros Huniq.
  assert (Habsent : ∀ acc', acc' ∈ accounts s' → dget (identity_key p) acc' ≠ JStr ident).
  { intros acc' Hin Hk'. rewrite Haccs in Hin.
    apply elem_of_delete_lookup in Hin as (j & Hne & Hj). apply Hne. by eapply Huniq. }
  split; [done|]. split.
  - destruct (remove_unfold p ident (snd (remove p ident d))) as [Hun' _].
    rewrite Hun', Hload.
    destruct (storage_remove (identity_key p) ident s') as [s''|] eqn:Hr'; [|done].
    destruct (proj1 (storage_remove_is_Some _ _ _) (mk_is_Some _ _ Hr')) as (acc' & Hin & Hk').
    by destruct (Habsent acc' Hin).
  - destruct (set_active_unfold p ident (snd (remove p ident d))) as [Hun' _].
    rewrite Hun', Hload.
    destruct (storage_set_active (identity_key p) ident s') as [s''|] eqn:Hr'; [|done].
    destruct (proj1 (storage_set_active_is_Some _ _ _) (mk_is_Some _ _ Hr'))
      as (acc' & Hin & Hk').
    by destruct (Habsent acc' Hin).
Qed.

Lemma remove_then_absent_witness :
  fst (remove Antigravity "a@x"
         (snd (remove Antigravity "a@x"
                 (auth.mkDisk (GoodFile (mkStorage 3 [stored "a@x"; stored "b@x"] 1))
                    NoFile)))) = false.
Proof.
  destruct (remove_then_absent Antigravity "a@x"
              (auth.mkDisk (GoodFile (mkStorage 3 [stored "a@x"; stored "b@x"] 1)) NoFile)
              _ eq_refl eq_refl)
    as (s' & i & acc & _ & Hacc & Hk & _ & _ & H).
  assert (Hi : i = 0%nat).
  { destruct i as [|[|i]]; simpl in Hacc; [done| |discriminate].
    injection Hacc as <-. vm_compute in Hk. discriminate. }
  destruct H as (_ & -> & _); [|reflexivity].
  intros j acc' Hj Hk'. rewrite Hi.
  destruct j as [|[|j]]; simpl in Hj; [done| |discriminate].
  injection Hj as <-. vm_compute in Hk'. discriminate.
Defined.

(** The three listing functions behind one name. *)
Definition list_stored (p : Provider) : Store p → list dict :=
  match p with
  | Antigravity => auth.list_accounts
  | Codex => codex_auth.list_codex_accounts
  | Copilot => copilot_auth.list_copilot_accounts
  end.

Lemma list_stored_lookup p d s i e :
  load p d = Some s → list_stored p d !! i = Some e →
  ∃ acc, accounts s !! i = Some acc
    ∧ dget "active" e = JBool (Z.of_nat i =? active_index s)
    ∧ dget "email" e = dget "email" acc.
Proof.
  intros Hs He.
  destruct p; simpl in *;
    unfold auth.list_accounts, codex_auth.list_codex_accounts,
      copilot_auth.list_copilot_accounts in He;
    rewrite Hs in He; rewrite list_lookup_imap in He;
    destruct (accounts s !! i) as [acc|]; simplify_eq/=; eauto.
Qed.

(** X9.  The listing functions return one entry per stored account, in
    order, with the account's email, and flag as active the entry whose
    position is [activeIndex], so at most one.  When [activeIndex] is out
    of range no entry is flagged, although [get_active_account] still
    returns the first account. *)
Theorem list_flags_active_index (p : Provider) (d : Store p) :
  (load p d = None → list_stored p d = [])
  ∧ (∀ s, load p d = Some s →
       length (list_stored p d) = length (accounts s)
       ∧ (∀ i e, list_stored p d !! i = Some e →
            ∃ acc, accounts s !! i = Some acc
              ∧ dget "email" e = dget "email" acc
              ∧ dget "active" e = JBool (bool_decide (Z.of_nat i = active_index s)))
       ∧ (∀ i j ei ej, list_stored p d !! i = Some ei → list_stored p d !! j = Some ej →
            dget "active" ei = JBool true → dget "active" ej = JBool true → i = j)
       ∧ (index_in_range s = false →
          (∀ e, e ∈ list_stored p d → dget "active" e = JBool false)
          ∧ get_active_account s = head (accounts s))).
Proof.
  split.
  - intros Hnone. destruct p; simpl in *;
      unfold auth.list_accounts, codex_auth.list_codex_accounts,
        copilot_auth.list_copilot_accounts; by rewrite Hnone.
  - intros s Hs.
    assert (Hflag : ∀ i e, list_stored p d !! i = Some e →
              ∃ acc, accounts s !! i = Some acc
                ∧ dget "email" e = dget "email" acc
                ∧ dget "active" e = JBool (bool_decide (Z.of_nat i = active_index s))).
    { intros i e He. destruct (list_stored_lookup p d s i e Hs He) as (acc & Hacc & Ha & Hm).
      exists acc. split; [done|]. split; [done|]. rewrite Ha. f_equal.
      destruct (Z.eqb_spec (Z.of_nat i) (active_index s)).
      - by rewrite bool_decide_eq_true_2.
      - by rewrite bool_decide_eq_false_2. }
    split; [|split; [done|split]].
    + destruct p; simpl in *;
        unfold auth.list_accounts, codex_auth.list_codex_accounts,
          copilot_auth.list_copilot_accounts; rewrite Hs; apply length_imap.
    + intros i j ei ej Hi Hj Hai Haj.
      destruct (Hflag i ei Hi) as (_ & _ & _ & Hi').
      destruct (Hflag j ej Hj) as (_ & _ & _ & Hj').
      rewrite Hai in Hi'. rewrite Haj in Hj'.
      injection Hi' as Hi'. injection Hj' as Hj'.
      symmetry in Hi', Hj'. apply bool_decide_eq_true in Hi', Hj'. lia.
    + intros Hout. split.
      * intros e (i & He)%list_elem_of_lookup_1.
        destruct (Hflag i e He) as (acc & Hacc & _ & ->). f_equal.
        apply bool_decide_eq_false. intros Heq.
        apply lookup_lt_Some in Hacc.
        assert (index_in_range s = true); [|congruence].
        apply index_in_range_spec. unfold len. lia.
      * unfold get_active_account. rewrite Hout. by destruct (accounts s).
Qed.

Lemma list_flags_active_index_witness :
  ∃ e, auth.list_accounts
         (auth.mkDisk (GoodFile (mkStorage 3 [stored "a@x"; stored "b@x"] 5)) NoFile)
       !! 0%nat = Some e
    ∧ dget "active" e = JBool false.
Proof.
  destruct (list_flags_active_index Antigravity
              (auth.mkDisk (GoodFile (mkStorage 3 [stored "a@x"; stored "b@x"] 5)) NoFile))
    as [_ H].
  destruct (H _ eq_refl) as (_ & _ & _ & Hout).
  destruct (Hout eq_refl) as [Hnone _].
  eexists. split; [reflexivity|]. apply Hnone. apply list_elem_of_here.
Defined.

(** ** What the store gives back *)

Lemma opt_str_of_of_opt_str o : auth.opt_str_of (of_opt_str o) = o.
Proof. by destruct o. Qed.

Lemma nonempty_size (m : dict) k v : m !! k = Some v → Nat.eqb (size m) 0 = false.
Proof.
  intros H. apply Nat.eqb_neq. intros Hz. apply map_size_empty_inv in Hz.
  rewrite Hz in H. by rewrite lookup_empty in H.
Qed.

Lemma dget_or_of_dget k dflt (m : dict) s : dget k m = JStr s → dget_or k dflt m = JStr s.
Proof. unfold dget, dget_or. by destruct (m !! k). Qed.

Lemma dget_is_Some k (m : dict) s : dget k m = JStr s → m !! k = Some (JStr s).
Proof. unfold dget. by destruct (m !! k) as [v|]; simpl; [intros ->|]. Qed.

(** The account written at an index, or appended, by a function that makes
    it the active one. *)
Lemma get_active_account_insert v (l : list dict) i r :
  (i < length l)%nat →
  get_active_account (mkStorage v (<[i := r]> l) (Z.of_nat i)) = Some r.
Proof.
  intros Hlt. unfold get_active_account, index_in_range, len. simpl.
  rewrite length_insert.
  rewrite (proj2 (Z.leb_le _ _)) by lia. rewrite (proj2 (Z.ltb_lt _ _)) by lia.
  simpl. by rewrite Nat2Z.id, list_lookup_insert_eq.
Qed.

Lemma get_active_account_app v (l : list dict) r :
  get_active_account (mkStorage v (l ++ [r]) (len (l ++ [r]) - 1)) = Some r.
Proof.
  unfold get_active_account, index_in_range, len. simpl. rewrite length_app. simpl.
  rewrite (proj2 (Z.leb_le _ _)) by lia. rewrite (proj2 (Z.ltb_lt _ _)) by lia.
  simpl. replace (Z.to_nat (Z.of_nat (length l + 1) - 1)) with (length l) by lia.
  by rewrite lookup_app_r, Nat.sub_diag.
Qed.

(** What [load_auth_from_storage] makes of a credential: the access token
    and the expiry are not stored. *)
Definition stored_part (a : auth.AntigravityAuth) : auth.AntigravityAuth :=
  auth.mkAuth "" (auth.refresh_token a) 0 (auth.email a) (auth.project_id a)
    (auth.managed_project_id a).

(** Reading back an active account that holds the four fields of [a]. *)
Lemma load_auth_of_active d s r a :
  auth.load_accounts d = Some s →
  get_active_account s = Some r →
  dget "refreshToken" r = JStr (auth.refresh_token a) →
  dget "email" r = of_opt_str (auth.email a) →
  dget "projectId" r = of_opt_str (auth.project_id a) →
  dget "managedProjectId" r = of_opt_str (auth.managed_project_id a) →
  auth.load_auth_from_storage d = Some (stored_part a).
Proof.
  intros Hs Hr Htok Hem Hp Hm. unfold auth.load_auth_from_storage.
  rewrite Hs, Hr, (nonempty_size r _ _ (dget_is_Some _ _ _ Htok)).
  rewrite (dget_or_of_dget _ _ _ _ Htok), Hem, Hp, Hm, !opt_str_of_of_opt_str. done.
Qed.

Lemma auth_update_account_fields a t acc :
  truthy_opt (auth.email a) = true →
  dget "refreshToken" (auth.update_account a t acc) = JStr (auth.refresh_token a)
  ∧ dget "email" (auth.update_account a t acc) = of_opt_str (auth.email a)
  ∧ dget "projectId" (auth.update_account a t acc) = of_opt_str (auth.project_id a)
  ∧ dget "managedProjectId" (auth.update_account a t acc)
    = of_opt_str (auth.managed_project_id a).
Proof.
  intros Ht. split; [apply auth_update_account_token|].
  split; [by apply auth_update_account_email|].
  unfold auth.update_account, dget.
  split; rewrite !lookup_insert_ne by done; by rewrite lookup_insert_eq.
Qed.

(** X10.  What is written for a credential is what is read back: after
    [_upsert_account_from_auth], after a successful [refresh_access_token]
    and after a successful [interactive_login], [load_auth_from_storage]
    returns the credential with its refresh token, email and project ids,
    an empty access token and the expiry 0. *)
Theorem stored_credential_round_trip :
  (∀ a t d,
     auth.load_auth_from_storage (auth._upsert_account_from_auth a t d)
     = Some (stored_part a))
  ∧ (∀ json_loads repr w a d refreshed d',
       auth.refresh_access_token json_loads repr w a d = (Return refreshed, d') →
       auth.load_auth_from_storage d' = Some (stored_part refreshed))
  ∧ (∀ code state exchanged t1 t2 d a d',
       auth.interactive_login code state exchanged t1 t2 d = (Return a, d') →
       auth.load_auth_from_storage d' = Some (stored_part a)).
Proof.
  assert (Hupsert : ∀ a t d,
    auth.load_auth_from_storage (auth._upsert_account_from_auth a t d)
    = Some (stored_part a)).
  { intros a t d. unfold auth._upsert_account_from_auth.
    destruct (auth.existing_account a _) as [[i acc]|] eqn:E.
    - assert (Ht : truthy_opt (auth.email a) = true).
      { unfold auth.existing_account in E. by destruct (truthy_opt (auth.email a)). }
      assert (Hlt : (i < length (accounts (default auth.empty_storage (auth.load_accounts d))))%nat).
      { unfold auth.existing_account in E. rewrite Ht in E.
        apply find_where_Some in E as (Hl & _). by eapply lookup_lt_Some. }
      destruct (auth_update_account_fields a t acc Ht) as (H1 & H2 & H3 & H4).
      eapply load_auth_of_active;
        [apply auth_load_save|by apply get_active_account_insert|done..].
    - eapply load_auth_of_active;
        [apply auth_load_save|apply get_active_account_app|done..]. }
  split; [done|]. split.
  - intros json_loads repr w a d refreshed d'. unfold auth.refresh_access_token.
    destruct (String.eqb (auth.refresh_token a) ""); [done|].
    destruct (auth.token_reply w) as [|status text| |td]; try done.
    + destruct (auth._parse_oauth_error_payload _ _ _).
      repeat (destruct (_ : bool); try done).
    + intros [= <- <-]. apply Hupsert.
  - intros code state exchanged t1 t2 d a d'. unfold auth.interactive_login.
    destruct (_ || _); [done|]. destruct exchanged as [a0|e]; [|done].
    destruct (find_where _ _) as [[i acc]|] eqn:E; intros [= <- <-].
    + apply find_where_Some in E as (Hl & _). apply lookup_lt_Some in Hl.
      eapply load_auth_of_active;
        [apply auth_load_save|by apply get_active_account_insert|done..].
    + eapply load_auth_of_active;
        [apply auth_load_save|apply get_active_account_app|done..].
Qed.

Lemma stored_credential_round_trip_witness :
  ∃ refreshed d',
    auth.refresh_access_token invalid_grant_loads no_repr
      (auth.mkRefreshInput 100 (auth.TokenReplyOk (auth.mkTokenData (Some "fresh") None None))
         "p1" 1)
      known_auth one_account_disk = (Return refreshed, d')
    ∧ auth.load_auth_from_storage d'
      = Some (auth.mkAuth "" "new" 0 (Some "a@x") (Some "p1") None).
Proof.
  destruct stored_credential_round_trip as (_ & H & _).
  do 2 eexists. split; [reflexivity|].
  exact (H invalid_grant_loads no_repr
           (auth.mkRefreshInput 100
              (auth.TokenReplyOk (auth.mkTokenData (Some "fresh") None None)) "p1" 1)
           known_auth one_account_disk
           (auth.mkAuth "fresh" "new" (100 + 3600) (Some "a@x") (Some "p1") None)
           _ eq_refl).
Defined.

Lemma py_eq_opt_self o : py_eq_opt (of_opt_str o) o = true.
Proof. destruct o as [s|]; simpl; [apply String.eqb_refl|done]. Qed.

(** X11.  [interactive_login] touches the store only when it succeeds, and
    logging in again with the same credential rewrites the record of the
    first login instead of adding one: the number of accounts and the
    active index stay, and no other record changes.  This holds for every
    credential, also for one without an email, which takes the place of
    the first stored account that has none. *)
Theorem interactive_login_idempotent :
  (∀ code state exchanged t1 t2 d e d',
     auth.interactive_login code state exchanged t1 t2 d = (Raise e, d') → d' = d)
  ∧ (∀ code state code' state' a t1 t2 t3 t4 d d1 d2,
       auth.interactive_login code state (Return a) t1 t2 d = (Return a, d1) →
       auth.interactive_login code' state' (Return a) t3 t4 d1 = (Return a, d2) →
       ∃ s1 s2,
         auth.load_accounts d1 = Some s1 ∧ auth.load_accounts d2 = Some s2
         ∧ active_index s2 = active_index s1
         ∧ only_changes_at (active_index s1) (accounts s1) (accounts s2)).
Proof.
  split.
  - intros code state exchanged t1 t2 d e d'. unfold auth.interactive_login.
    destruct (_ || _); [by intros [= _ <-]|].
    destruct exchanged as [a|e0]; [|by intros [= _ <-]].
    by destruct (find_where _ _) as [[i acc]|].
  - intros code state code' state' a t1 t2 t3 t4 d d1 d2.
    unfold auth.interactive_login.
    destruct (_ || _); [done|]. destruct (_ || _); [done|].
    set (P := λ acc : dict, py_eq_opt (dget "email" acc) (auth.email a)).
    assert (HP : ∀ ta tu prev, P (auth.login_account a ta tu prev) = true).
    { intros ta tu prev. unfold P.
      change (dget "email" (auth.login_account a ta tu prev))
        with (of_opt_str (auth.email a)).
      apply py_eq_opt_self. }
    set (l := accounts (default auth.empty_storage (auth.load_accounts d))).
    destruct (find_where P l) as [[i acc]|] eqn:E; intros [= <-].
    + rewrite auth_load_save. simpl.
      rewrite (find_where_insert P l i acc _ E (HP t1 t2 (Some acc))).
      intros [= <-]. do 2 eexists. split; [reflexivity|].
      split; [apply auth_load_save|]. simpl. split; [done|].
      split; [by rewrite length_insert|].
      intros j Hj. apply list_lookup_insert_ne. lia.
    + rewrite auth_load_save. simpl.
      rewrite (find_where_app_fresh P l _ E (HP t1 t2 None)).
      intros [= <-]. do 2 eexists. split; [reflexivity|].
      split; [apply auth_load_save|]. simpl. unfold len. rewrite length_app. simpl.
      split; [lia|]. split; [by rewrite length_insert|].
      intros j Hj. apply list_lookup_insert_ne. lia.
Qed.

(** Logging in twice without an email on a store with one account. *)
Lemma interactive_login_idempotent_witness :
  ∃ s2, auth.load_accounts
          (snd (auth.interactive_login (Some "c") (Some "s") (Return anonymous_auth) 3 4
                  (snd (auth.interactive_login (Some "c") (Some "s") (Return anonymous_auth)
                          1 2 one_account_disk)))) = Some s2
    ∧ length (accounts s2) = 2%nat.
Proof.
  destruct interactive_login_idempotent as [_ H].
  destruct (H (Some "c") (Some "s") (Some "c") (Some "s") anonymous_auth 1 2 3 4
              one_account_disk _ _ eq_refl eq_refl)
    as (s1 & s2 & Hs1 & Hs2 & _ & Hlen & _).
  exists s2. split; [exact Hs2|]. rewrite Hlen.
  injection Hs1 as <-. reflexivity.
Defined.

(** ** Looking the project up *)

(** The project an endpoint's reply carries, if the loop would return it. *)
Definition project_at (load : string → auth.LoadReply) (endpoint : string) : option JSON :=
  match load endpoint with
  | auth.LoadData data => auth.project_of data
  | _ => None
  end.

Lemma project_of_truthy data project :
  auth.project_of data = Some project → truthy project = true.
Proof.
  unfold auth.project_of. destruct data as [| | | | |l|m]; try done.
  destruct (dget "cloudaicompanionProject" m) as [| | | |s|l|p]; try done.
  - destruct (String.eqb s "") eqn:E; simpl; [done|]. intros [= <-]. simpl. by rewrite E.
  - destruct (truthy (dget "id" p)) eqn:E; [|done]. by intros [= <-].
Qed.

(** X12.  [fetch_project_id] asks the load endpoints in order and returns
    the project of the first reply that carries one, without asking the
    endpoints after it; a request that fails, is rejected or carries no
    project moves on to the next endpoint.  When no endpoint has a project
    it has asked all of them and returns the empty string.  What it returns
    is never a falsy value other than the empty string. *)
Theorem fetch_project_first_found (load : string → auth.LoadReply) (todo : list string) :
  (∀ pre e rest project,
     todo = pre ++ e :: rest →
     (∀ x, x ∈ pre → project_at load x = None) →
     project_at load e = Some project →
     auth.fetch_project_loop load todo = (project, pre ++ [e]))
  ∧ ((∀ x, x ∈ todo → project_at load x = None) →
     auth.fetch_project_loop load todo = (JStr "", todo))
  ∧ (auth.fetch_project_loop load todo).2 `prefix_of` todo
  ∧ ((auth.fetch_project_loop load todo).1 = JStr ""
     ∨ truthy (auth.fetch_project_loop load todo).1 = true).
Proof.
  split; [|split; [|split]].
  - intros pre. revert todo. induction pre as [|x pre IH]; intros todo e rest project -> Hpre He.
    + simpl. unfold project_at in He. by rewrite He.
    + simpl. pose proof (Hpre x (list_elem_of_here _ _)) as Hx. unfold project_at in Hx.
      rewrite Hx.
      by rewrite (IH _ e rest project eq_refl
                    (λ y Hy, Hpre y (list_elem_of_further _ _ _ Hy)) He).
  - induction todo as [|x todo IH]; intros Hnone; [done|]. simpl.
    pose proof (Hnone x (list_elem_of_here _ _)) as Hx. unfold project_at in Hx. rewrite Hx.
    by rewrite (IH (λ y Hy, Hnone y (list_elem_of_further _ _ _ Hy))).
  - induction todo as [|x todo IH]; [done|]. simpl.
    destruct (match load x with auth.LoadData data => _ | _ => None end) as [project|].
    + apply prefix_cons, prefix_nil.
    + destruct (auth.fetch_project_loop load todo) as [project requested].
      by apply prefix_cons.
  - induction todo as [|x todo IH]; [by left|]. simpl.
    destruct (match load x with auth.LoadData data => _ | _ => None end) as [project|] eqn:E.
    + right. simpl. destruct (load x) as [| |data]; try done. by eapply project_of_truthy.
    + by destruct (auth.fetch_project_loop load todo) as [project requested].
Qed.

(** The first endpoint is down, the second names a project. *)
Definition load_replies (endpoint : string) : auth.LoadReply :=
  if String.eqb endpoint "https://cloudcode-pa.googleapis.com" then auth.LoadRaised
  else auth.LoadData (JObj {[ "cloudaicompanionProject" := JStr "my-project" ]}).

Lemma fetch_project_first_found_witness :
  auth.fetch_project_id load_replies
  = (JStr "my-project",
     ["https://cloudcode-pa.googleapis.com";
      "https://daily-cloudcode-pa.sandbox.googleapis.com"]).
Proof.
  destruct (fetch_project_first_found load_replies auth.ANTIGRAVITY_LOAD_ENDPOINTS) as [H _].
  apply (H ["https://cloudcode-pa.googleapis.com"]
           "https://daily-cloudcode-pa.sandbox.googleapis.com"
           ["https://autopush-cloudcode-pa.sandbox.googleapis.com"]
           (JStr "my-project") eq_refl); [|reflexivity].
  intros x ->%list_elem_of_singleton. reflexivity.
Defined.

(** ** Credentials as dicts *)

Lemma as_opt_str_of_opt_str o : as_opt_str (of_opt_str o) = Some o.
Proof. by destruct o. Qed.

(** X13.  [from_dict] undoes [to_dict] for an Antigravity and a Codex
    credential, and for a Copilot credential whose enterprise URL is not
    the empty string; an empty enterprise URL comes back as [None].
    [from_dict] of the empty dict is the credential of the defaults. *)
Theorem from_dict_to_dict :
  (∀ a, auth.from_dict (auth.to_dict a) = Some a)
  ∧ (∀ a, codex_auth.from_dict (codex_auth.to_dict a) = Some a)
  ∧ (∀ a, copilot_auth.from_dict (copilot_auth.to_dict a)
          = Some (copilot_auth.mkCopilotAuth
                    (copilot_auth.access_token a) (copilot_auth.expires_at a)
                    (copilot_auth.account_id a) (copilot_auth.login a)
                    (copilot_auth.email a) (copilot_auth.provider a)
                    (if truthy_opt (copilot_auth.enterprise_url a)
                     then copilot_auth.enterprise_url a else None)))
  ∧ auth.from_dict ∅ = Some (auth.mkAuth "" "" 0 None None None)
  ∧ codex_auth.from_dict ∅ = Some (codex_auth.mkCodexAuth "" "" 0 None None)
  ∧ copilot_auth.from_dict ∅
    = Some (copilot_auth.mkCopilotAuth "" 0 None None None None None).
Proof.
  split; [|split; [|split; [|done]]].
  - intros [access refresh expires email project managed].
    unfold auth.from_dict, auth.to_dict. simpl.
    change (dget "email" _) with (of_opt_str email).
    change (dget "project_id" _) with (of_opt_str project).
    change (dget "managed_project_id" _) with (of_opt_str managed).
    by rewrite !as_opt_str_of_opt_str.
  - intros [access refresh expires account email].
    unfold codex_auth.from_dict, codex_auth.to_dict. simpl.
    change (dget "email" _) with (of_opt_str email).
    change (dget "account_id" _) with (of_opt_str account).
    by rewrite !as_opt_str_of_opt_str.
  - intros [access expires account login email provider enterprise].
    unfold copilot_auth.from_dict, copilot_auth.to_dict. simpl.
    change (dget "account_id" _) with (of_opt_str account).
    change (dget "login" _) with (of_opt_str login).
    change (dget "email" _) with (of_opt_str email).
    change (dget "provider" _) with (of_opt_str provider).
    change (dget "enterprise_url" _) with (of_opt_str enterprise).
    change (dget "enterpriseUrl" _) with JNull.
    rewrite !as_opt_str_of_opt_str. simpl.
    unfold py_or, truthy_opt.
    destruct (truthy (of_opt_str enterprise)); [by rewrite as_opt_str_of_opt_str|done].
Qed.

(** ** Refresh: what a failure leaves, what a success builds *)

Lemma prefix_app_l s s' t :
  String.prefix s s' = true → String.prefix s (s' +:+ t) = true.
Proof.
  revert s'. induction s as [|c s IH]; intros s' H.
  - by destruct (s' +:+ t).
  - destruct s' as [|c' s']; [done|].
    change (String c' s' +:+ t) with (String c' (s' +:+ t)). simpl in *.
    destruct (ascii_dec c c'); [by apply IH|done].
Qed.

(** X14.  A refresh that fails writes to the store only when the failure
    is a revocation: every other failure leaves the files as they were.
    Without a refresh token it raises "Missing refresh token" whatever the
    token endpoint would answer.  An error reply that is no revocation
    raises, for Antigravity, a message that starts with "Token refresh
    failed".  For Codex it raises "Token refresh failed: " and the body
    when the decoded body is a dict; a JSON reply whose body does not
    decode raises the decoding error, and a body that is no dict the
    [AttributeError] of [data.get]. *)
Theorem refresh_failure_frame :
  (∀ json_loads repr w a d e d',
     auth.refresh_access_token json_loads repr w a d = (Raise e, d') →
     d' = d
     ∨ (e = auth.ValueError (auth.revoked_message a)
        ∧ d' = auth._clear_stored_refresh_token a (auth.now_ms w) d))
  ∧ (∀ repr xid xem w a f e f',
       codex_auth.refresh_codex_token repr xid xem w a f = (Raise e, f') →
       f' = f
       ∨ (e = auth.ValueError (codex_auth._build_reauth_message a)
          ∧ f' = codex_auth._clear_stored_refresh_token a (codex_auth.now_ms w) f))
  ∧ (∀ json_loads repr w a d,
       auth.refresh_token a = "" →
       auth.refresh_access_token json_loads repr w a d
       = (Raise (auth.ValueError "Missing refresh token"), d))
  ∧ (∀ repr xid xem w a f,
       codex_auth.refresh_token a = "" →
       codex_auth.refresh_codex_token repr xid xem w a f
       = (Raise (auth.ValueError "Missing refresh token"), f))
  ∧ (∀ json_loads repr w a d status text,
       auth.refresh_token a ≠ "" →
       auth.token_reply w = auth.ErrorReply status text →
       ∃ m, (auth.refresh_access_token json_loads repr w a d).1 = Raise (auth.ValueError m)
         ∧ (String.prefix "Refresh token revoked" m = true
            ∨ (String.prefix "Token refresh failed" m = true
               ∧ (auth.refresh_access_token json_loads repr w a d).2 = d)))
  ∧ (∀ repr xid xem w a f status text data,
       codex_auth.refresh_token a ≠ "" →
       codex_auth.token_reply w = codex_auth.ErrorReply status text data →
       match data with
       | None =>
           codex_auth.refresh_codex_token repr xid xem w a f
           = (Raise auth.JSONDecodeError, f)
       | Some data =>
           match codex_auth.error_fields repr text data with
           | None =>
               (∀ m, data ≠ JObj m)
               ∧ codex_auth.refresh_codex_token repr xid xem w a f
                 = (Raise auth.AttributeError, f)
           | Some (code, msg) =>
               (∃ m, data = JObj m)
               ∧ (codex_auth._is_revoked_refresh_error code msg = false →
                  codex_auth.refresh_codex_token repr xid xem w a f
                  = (Raise (auth.ValueError ("Token refresh failed: " +:+ text)), f))
           end
       end).
Proof.
  split; [|split; [|split; [|split; [|split]]]].
  - intros json_loads repr w a d e d'. unfold auth.refresh_access_token.
    destruct (String.eqb (auth.refresh_token a) ""); [intros [= _ <-]; by left|].
    destruct (auth.token_reply w) as [|status text| |td];
      try (intros [= _ <-]; by left); try done.
    destruct (auth._parse_oauth_error_payload _ _ _) as [code descr].
    destruct (String.eqb (lower code) "invalid_grant").
    + intros [= <- <-]. by right.
    + destruct (_ || _); intros [= _ <-]; by left.
  - intros repr xid xem w a f e f'. unfold codex_auth.refresh_codex_token.
    destruct (String.eqb (codex_auth.refresh_token a) ""); [intros [= _ <-]; by left|].
    destruct (codex_auth.token_reply w) as [|status text [data|]| |td];
      try (intros [= _ <-]; by left); try done.
    destruct (codex_auth.error_fields repr text data) as [[code msg]|];
      [|intros [= _ <-]; by left].
    destruct (codex_auth._is_revoked_refresh_error code msg).
    + intros [= <- <-]. by right.
    + intros [= _ <-]. by left.
  - intros json_loads repr w a d H. unfold auth.refresh_access_token. by rewrite H.
  - intros repr xid xem w a f H. unfold codex_auth.refresh_codex_token. by rewrite H.
  - intros json_loads repr w a d status text Hne%String.eqb_neq Hreply.
    unfold auth.refresh_access_token. rewrite Hne, Hreply.
    destruct (auth._parse_oauth_error_payload _ _ _) as [code descr].
    destruct (String.eqb (lower code) "invalid_grant").
    + eexists. split; [reflexivity|]. left. apply prefix_app.
    + destruct (_ || _); (eexists; split; [reflexivity|]; right; split; [|done]).
      * by apply prefix_app_l.
      * by apply prefix_app_l.
  - intros repr xid xem w a f status text data Hne%String.eqb_neq Hreply.
    unfold codex_auth.refresh_codex_token. rewrite Hne, Hreply.
    destruct data as [data|]; [|done].
    destruct (codex_auth.error_fields repr text data) as [[code msg]|] eqn:Hf.
    + split; [|by intros ->].
      unfold codex_auth.error_fields in Hf. destruct data; try done. eauto.
    + split; [|done]. intros m ->. unfold codex_auth.error_fields in Hf.
      by repeat case_match.
Qed.

(** A token endpoint that answers 500 with a text that is no JSON. *)
Definition no_json (text : string) : option JSON := None.

Lemma refresh_failure_frame_witness :
  auth.refresh_access_token no_json no_repr
    (auth.mkRefreshInput 0 (auth.ErrorReply 500 "oops") "" 1) known_auth one_account_disk
  = (Raise (auth.ValueError "Token refresh failed (500): oops"), one_account_disk).
Proof.
  destruct refresh_failure_frame as (H & _).
  destruct (H no_json no_repr (auth.mkRefreshInput 0 (auth.ErrorReply 500 "oops") "" 1)
              known_auth one_account_disk
              (auth.ValueError "Token refresh failed (500): oops") one_account_disk eq_refl)
    as [_|[Habs _]]; [reflexivity|discriminate Habs].
Defined.

(** X15.  The project id of a refreshed credential: a project id of the old
    credential that is neither empty nor the default one is kept and the
    look-up result is not used; in every other case it is the project
    looked up with the new access token, and none when the look-up finds
    nothing.  So the default project id is never carried over from the old
    credential.  The email and the managed project id are carried over. *)
Theorem refresh_project_id json_loads repr (w : auth.RefreshInput)
    (a : auth.AntigravityAuth) (d : auth.Disk) td :
  auth.refresh_token a ≠ "" →
  auth.token_reply w = auth.TokenReplyOk td →
  ∃ refreshed d',
    auth.refresh_access_token json_loads repr w a d = (Return refreshed, d')
    ∧ auth.access_token refreshed = default "" (auth.td_access_token td)
    ∧ auth.email refreshed = auth.email a
    ∧ auth.managed_project_id refreshed = auth.managed_project_id a
    ∧ (∀ p, auth.project_id a = Some p → p ≠ "" →
            p ≠ auth.ANTIGRAVITY_DEFAULT_PROJECT_ID →
            auth.project_id refreshed = Some p)
    ∧ ((auth.project_id a = None ∨ auth.project_id a = Some ""
        ∨ auth.project_id a = Some auth.ANTIGRAVITY_DEFAULT_PROJECT_ID) →
       auth.project_id refreshed
       = if String.eqb (auth.fetched_project w) "" then None
         else Some (auth.fetched_project w))
    ∧ (auth.project_id refreshed = Some auth.ANTIGRAVITY_DEFAULT_PROJECT_ID →
       auth.fetched_project w = auth.ANTIGRAVITY_DEFAULT_PROJECT_ID).
Proof.
  intros Hne%String.eqb_neq Hreply. unfold auth.refresh_access_token.
  rewrite Hne, Hreply. do 2 eexists. split; [reflexivity|]. simpl.
  do 3 (split; [done|]).
  assert (Hdef : ∀ p, auth._is_default_project_id (Some p)
                      = String.eqb p auth.ANTIGRAVITY_DEFAULT_PROJECT_ID).
  { intros p. unfold auth._is_default_project_id, truthy_opt. simpl.
    destruct (String.eqb p "") eqn:E; [|done].
    apply String.eqb_eq in E. by subst. }
  match goal with
  | |- ?A ∧ ?B ∧ ?C =>
      assert (Hkeep : A); [|assert (Hother : B); [|split; [exact Hkeep|split; [exact Hother|]]]]
  end.
  { intros p Hp Hp1 Hp2. rewrite Hp. simpl. rewrite Hdef.
    apply String.eqb_neq in Hp1, Hp2. rewrite Hp1, Hp2. simpl. by rewrite Hp1. }
  { intros [H|[H|H]]; rewrite H; cbn;
      destruct (String.eqb (auth.fetched_project w) "") eqn:E; cbn; by rewrite ?E. }
  intros Hres.
  destruct (auth.project_id a) as [p|] eqn:Hp.
  - destruct (String.eqb_spec p "") as [->|Hp1].
    + rewrite Hother in Hres by auto.
      destruct (String.eqb (auth.fetched_project w) ""); by simplify_eq.
    + destruct (String.eqb_spec p auth.ANTIGRAVITY_DEFAULT_PROJECT_ID) as [->|Hp2].
      * rewrite Hother in Hres by auto.
        destruct (String.eqb (auth.fetched_project w) ""); by simplify_eq.
      * rewrite (Hkeep p eq_refl Hp1 Hp2) in Hres. by simplify_eq.
  - rewrite Hother in Hres by auto.
    destruct (String.eqb (auth.fetched_project w) ""); by simplify_eq.
Qed.

Lemma refresh_project_id_witness :
  ∃ refreshed d',
    auth.refresh_access_token invalid_grant_loads no_repr
      (auth.mkRefreshInput 100 (auth.TokenReplyOk (auth.mkTokenData (Some "fresh") None None))
         "" 1)
      (auth.mkAuth "old" "r" 0 None (Some auth.ANTIGRAVITY_DEFAULT_PROJECT_ID) None)
      one_account_disk = (Return refreshed, d')
    ∧ auth.project_id refreshed = None.
Proof.
  destruct (refresh_project_id invalid_grant_loads no_repr
              (auth.mkRefreshInput 100
                 (auth.TokenReplyOk (auth.mkTokenData (Some "fresh") None None)) "" 1)
              (auth.mkAuth "old" "r" 0 None (Some auth.ANTIGRAVITY_DEFAULT_PROJECT_ID) None)
              one_account_disk _ ltac:(discriminate) eq_refl)
    as (refreshed & d' & Hres & _ & _ & _ & _ & Hother & _).
  exists refreshed, d'. split; [exact Hres|].
  rewrite Hother; [reflexivity|]. right. right. reflexivity.
Defined.

(** ** Stored and refreshed credentials in [_ensure_auth] *)

(** X16.  A credential read from the store has no access token and the
    expiry 0, so [_ensure_auth] never uses it as it is: starting without a
    credential in memory it refreshes the stored one first, and fails if
    the refresh fails.  A credential that [refresh_access_token] returns
    expires [expires_in] seconds (3600 when the reply has none) after the
    refresh started, and [_ensure_auth] returns it without a refresh as
    long as more than 60 seconds are left. *)
Theorem ensure_auth_refreshes_stored {R} (w : chat_model.World R) (k : nat) :
  (∀ d a,
     auth.load_auth_from_storage d = Some a →
     chat_model.load_auth_from_storage w = Some a →
     (0 <= chat_model.now w k)%Q →
     auth.access_token a = "" ∧ auth.expires_at a = 0%Q
     ∧ chat_model._ensure_auth w k None
       = match chat_model.refresh_access_token w k a with
         | Return a' => (Return a', Some a')
         | Raise e => (Raise (chat_model.AuthError e), Some a)
         end)
  ∧ (∀ json_loads repr rw a d refreshed d' td,
       auth.refresh_access_token json_loads repr rw a d = (Return refreshed, d') →
       auth.token_reply rw = auth.TokenReplyOk td →
       auth.expires_at refreshed
       = (auth.start_time rw + default 3600 (auth.td_expires_in td))%Q
       ∧ ((chat_model.now w k
           < auth.start_time rw + default 3600 (auth.td_expires_in td) - 60)%Q →
          chat_model._ensure_auth w k (Some refreshed) = (Return refreshed, Some refreshed))).
Proof.
  split.
  - intros d a Hload Hw Hnow.
    assert (Hfields : auth.access_token a = "" ∧ auth.expires_at a = 0%Q).
    { unfold auth.load_auth_from_storage in Hload.
      destruct (auth.load_accounts d) as [s|]; [|done].
      destruct (get_active_account s) as [account|]; [|done].
      destruct (Nat.eqb _ _); [done|]. by simplify_eq. }
    destruct Hfields as [Hacc Hexp]. do 2 (split; [done|]).
    unfold chat_model._ensure_auth. rewrite Hw.
    assert (Hx : auth.is_expired a 60 (chat_model.now w k) = true).
    { unfold auth.is_expired. rewrite Hexp. apply Qle_bool_iff.
      eapply Qle_trans; [|exact Hnow]. done. }
    by rewrite Hx.
  - intros json_loads repr rw a d refreshed d' td Hres Hreply.
    unfold auth.refresh_access_token in Hres. rewrite Hreply in Hres.
    destruct (String.eqb (auth.refresh_token a) ""); [done|].
    injection Hres as <- _. simpl. split; [done|]. intros Hnow.
    unfold chat_model._ensure_auth, auth.is_expired. simpl.
    rewrite (proj2 (Qle_bool_false _ _)); [done|].
    change (inject_Z 60) with 60%Q. exact Hnow.
Qed.

(** A world whose store holds one account, at time 100. *)
Definition stored_world : chat_model.World nat :=
  chat_model.mkWorld ["A"] None (auth.load_auth_from_storage one_account_disk)
    (λ _, 100%Q) (λ _ a, Raise auth.RequestError)
    (λ _ _, chat_model.Responded (reply 200 (Some 1%nat)))
    (λ a, Return a) (λ _, Return "").

Lemma ensure_auth_refreshes_stored_witness :
  ∃ a, chat_model._ensure_auth stored_world 0 None
       = (Raise (chat_model.AuthError auth.RequestError), Some a).
Proof.
  destruct (ensure_auth_refreshes_stored stored_world 0) as [H _].
  destruct (H one_account_disk _ eq_refl eq_refl) as (_ & _ & Hens); [done|].
  eexists. exact Hens.
Defined.

(** X17.  After a revocation that emptied the refresh token of the active
    account, the credential read from the store has no refresh token, and
    refreshing it raises "Missing refresh token" without asking the token
    endpoint and without touching the store. *)
Theorem revoked_then_missing_token json_loads repr (w : auth.RefreshInput)
    (a : auth.AntigravityAuth) (d : auth.Disk) status text s :
  auth.refresh_token a ≠ "" →
  auth.token_reply w = auth.ErrorReply status text →
  lower (fst (auth._parse_oauth_error_payload json_loads repr text)) = "invalid_grant" →
  auth.load_accounts d = Some s →
  index_in_range s = true →
  auth.clear_target a s = Some (Z.to_nat (active_index s)) →
  ∃ stale,
    auth.load_auth_from_storage (auth.refresh_access_token json_loads repr w a d).2
    = Some stale
    ∧ auth.refresh_token stale = ""
    ∧ ∀ json_loads' repr' w' d',
        auth.refresh_access_token json_loads' repr' w' stale d'
        = (Raise (auth.ValueError "Missing refresh token"), d').
Proof.
  intros Hne Hreply Hcode Hs Hr Ht.
  rewrite (auth_refresh_revoked json_loads repr w a d status text Hne Hreply Hcode). simpl.
  pose proof (auth_clear_spec a (auth.now_ms w) d) as Hclear.
  rewrite Hs, Ht in Hclear. destruct Hclear as (acc & Hacc & Hload).
  unfold auth.load_auth_from_storage. rewrite Hload.
  assert (Hact : get_active_account
                   (mkStorage (version s)
                      (<[Z.to_nat (active_index s) := auth.scrub "refreshToken" (auth.now_ms w) acc]>
                         (accounts s)) (active_index s))
                 = Some (auth.scrub "refreshToken" (auth.now_ms w) acc)).
  { apply index_in_range_spec in Hr as Hr'.
    rewrite <- (Z2Nat.id (active_index s)) at 2 by lia.
    apply get_active_account_insert. by eapply lookup_lt_Some. }
  rewrite Hact.
  assert (Htok : auth.scrub "refreshToken" (auth.now_ms w) acc !! "refreshToken"
                 = Some (JStr "")).
  { unfold auth.scrub. rewrite lookup_insert_ne by done. by rewrite lookup_insert_eq. }
  rewrite (nonempty_size _ _ _ Htok).
  eexists. split; [reflexivity|]. simpl.
  assert (Hempty : default "" (auth.opt_str_of
                     (dget_or "refreshToken" (JStr "")
                        (auth.scrub "refreshToken" (auth.now_ms w) acc))) = "").
  { unfold dget_or. by rewrite Htok. }
  split; [exact Hempty|].
  intros json_loads' repr' w' d'. unfold auth.refresh_access_token. simpl.
  by rewrite Hempty.
Qed.

Lemma revoked_then_missing_token_witness :
  ∃ stale,
    auth.load_auth_from_storage
      (auth.refresh_access_token invalid_grant_loads no_repr invalid_grant_reply
         known_auth one_account_disk).2 = Some stale
    ∧ auth.refresh_token stale = "".
Proof.
  destruct (revoked_then_missing_token invalid_grant_loads no_repr invalid_grant_reply
              known_auth one_account_disk 400 invalid_grant_body _
              ltac:(discriminate) eq_refl eq_refl eq_refl eq_refl eq_refl)
    as (stale & Hload & Htok & _).
  exists stale. split; [exact Hload|exact Htok].
Defined.


(** ** Device-code polling: the pace of the loop *)

(** The sleeps of a run of the polling loop. *)
Definition sleeps_of (r : copilot_auth.PollResult) : list Q :=
  match r with
  | copilot_auth.Polled slept _ => slept
  | copilot_auth.StillPolling slept _ => slept
  end.

Lemma sleep_time_ge i : 1 <= i → (4 <= copilot_auth.sleep_time i)%Q.
Proof.
  intros Hi. rewrite sleep_time_margin.
  assert (H : (inject_Z 1 <= inject_Z i)%Q) by by rewrite <- Zle_Qle.
  change (inject_Z 1) with 1%Q in H. lra.
Qed.

Lemma slow_down_interval_ge i payload : 1 <= copilot_auth.slow_down_interval i payload.
Proof. unfold copilot_auth.slow_down_interval. lia. Qed.

Lemma poll_step_interval repr i reply t i' :
  1 <= i → copilot_auth.poll_step repr i reply = copilot_auth.PollSleep t i' →
  1 <= i' ∧ t = copilot_auth.sleep_time i'.
Proof.
  intros Hi H. split; [|by eapply poll_step_sleep].
  unfold copilot_auth.poll_step in H. destruct reply as [|text|payload]; try done.
  repeat (case_match; try done); simplify_eq; try done; apply slow_down_interval_ge.
Qed.

Lemma poll_loop_pace repr replies :
  ∀ i slept,
    1 <= i → Forall (λ t, (4 <= t)%Q) slept →
    Forall (λ t, (4 <= t)%Q) (sleeps_of (copilot_auth.poll_loop repr replies i slept))
    ∧ (length (sleeps_of (copilot_auth.poll_loop repr replies i slept))
       ≤ length slept + length replies)%nat
    ∧ ∀ slept' i', copilot_auth.poll_loop repr replies i slept
                   = copilot_auth.StillPolling slept' i' →
        1 <= i' ∧ length slept' = (length slept + length replies)%nat.
Proof.
  induction replies as [|reply replies IH]; intros i slept Hi Hs.
  - simpl. split; [done|]. split; [lia|]. intros slept' i' [= <- <-]. split; [done|lia].
  - cbn [copilot_auth.poll_loop].
    destruct (copilot_auth.poll_step repr i reply) as [e|payload|t i'] eqn:E.
    + simpl. split; [done|]. split; [lia|]. done.
    + simpl. split; [done|]. split; [lia|]. done.
    + destruct (poll_step_interval repr i reply t i' Hi E) as [Hi' ->].
      destruct (IH i' (slept ++ [copilot_auth.sleep_time i']) Hi') as (H1 & H2 & H3).
      { apply Forall_app. split; [done|]. repeat constructor. by apply sleep_time_ge. }
      rewrite length_app in H2, H3. simpl in *. split; [done|]. split; [lia|].
      intros slept' i'' Heq. destruct (H3 _ _ Heq). split; [done|lia].
Qed.

(** X18.  Whatever the token endpoint answers, the device-code polling loop
    never polls faster than once in 4 seconds: the interval stays at 1
    second or more and every sleep is the interval plus 3 seconds.  It
    sleeps at most once per reply, and exactly once per reply as long as it
    is still polling. *)
Theorem polling_pace repr (interval : Z) (replies : list copilot_auth.PollReply) :
  Forall (λ t, (4 <= t)%Q)
    (sleeps_of (copilot_auth.exchange_copilot_device_code repr interval replies))
  ∧ (length (sleeps_of (copilot_auth.exchange_copilot_device_code repr interval replies))
     ≤ length replies)%nat
  ∧ ∀ slept i,
      copilot_auth.exchange_copilot_device_code repr interval replies
      = copilot_auth.StillPolling slept i →
      1 <= i ∧ length slept = length replies.
Proof.
  unfold copilot_auth.exchange_copilot_device_code.
  destruct (poll_loop_pace repr replies (copilot_auth.initial_interval interval) [])
    as (H1 & H2 & H3); [unfold copilot_auth.initial_interval; lia|constructor|].
  split; [done|]. split; [done|]. intros slept i Heq. by destruct (H3 _ _ Heq).
Qed.

(** A reply that asks to go on waiting: no token, and the error
    [authorization_pending] or none. *)
Definition waiting (reply : copilot_auth.PollReply) : Prop :=
  match reply with
  | copilot_auth.PollPayload payload =>
      truthy (dget "access_token" payload) = false
      ∧ (dget "error" payload = JStr "authorization_pending"
         ∨ truthy (dget "error" payload) = false)
  | _ => False
  end.

Lemma poll_step_waiting repr i reply :
  waiting reply →
  copilot_auth.poll_step repr i reply = copilot_auth.PollSleep (copilot_auth.sleep_time i) i.
Proof.
  destruct reply as [|text|payload]; try done. intros [Htok Herr].
  unfold copilot_auth.poll_step. rewrite Htok.
  destruct Herr as [->|Herr]; [done|].
  destruct (dget "error" payload) as [|b|z|q|s|l|m]; simpl in *; rewrite ?Herr; try done.
  apply negb_false_iff, String.eqb_eq in Herr. by subst.
Qed.

(** X19.  Replies that ask to go on waiting leave the polling interval as
    it is: after [n] of them the loop has slept [n] times the interval plus
    3 seconds and goes on with the same interval.  An HTTP error after
    them ends the loop with "Token polling failed" and without a further
    sleep, whatever would follow. *)
Theorem polling_waits repr (pending : list copilot_auth.PollReply) :
  Forall waiting pending →
  ∀ rest i slept,
    copilot_auth.poll_loop repr (pending ++ rest) i slept
    = copilot_auth.poll_loop repr rest i
        (slept ++ replicate (length pending) (copilot_auth.sleep_time i))
    ∧ ∀ text,
        copilot_auth.poll_loop repr (pending ++ copilot_auth.PollHttpError text :: rest) i slept
        = copilot_auth.Polled
            (slept ++ replicate (length pending) (copilot_auth.sleep_time i))
            (copilot_auth.PollRaise (auth.ValueError ("Token polling failed: " +:+ text))).
Proof.
  intros Hw.
  assert (Hgo : ∀ rest i slept,
    copilot_auth.poll_loop repr (pending ++ rest) i slept
    = copilot_auth.poll_loop repr rest i
        (slept ++ replicate (length pending) (copilot_auth.sleep_time i))).
  { induction Hw as [|reply pending Hreply _ IH]; intros rest i slept.
    - simpl. by rewrite app_nil_r.
    - change ((reply :: pending) ++ rest) with (reply :: (pending ++ rest)).
      cbn [copilot_auth.poll_loop]. rewrite (poll_step_waiting repr i reply Hreply).
      rewrite IH. simpl. by rewrite <- app_assoc. }
  intros rest i slept. split; [apply Hgo|]. intros text. by rewrite Hgo.
Qed.

Definition pending_reply : copilot_auth.PollReply :=
  copilot_auth.PollPayload {[ "error" := JStr "authorization_pending" ]}.

Lemma polling_waits_witness :
  copilot_auth.poll_loop no_repr [pending_reply; pending_reply] 5 []
  = copilot_auth.StillPolling [copilot_auth.sleep_time 5; copilot_auth.sleep_time 5] 5.
Proof.
  assert (H : Forall waiting [pending_reply; pending_reply]).
  { repeat constructor; by left. }
  exact (proj1 (polling_waits no_repr [pending_reply; pending_reply] H [] 5 [])).
Defined.

(** ** Copilot credentials *)

Lemma opt_or_truthy a b :
  truthy_opt b = true → truthy_opt (copilot_auth.opt_or a b) = true.
Proof. intros Hb. unfold copilot_auth.opt_or. by destruct (truthy_opt a) eqn:E. Qed.

Lemma pat_account_id_truthy sha token :
  truthy_opt (Some (copilot_auth._pat_account_id sha token)) = true.
Proof.
  unfold copilot_auth._pat_account_id.
  change ("pat-" +:+ ?x) with (String "p" ("at-" +:+ x)). done.
Qed.

Lemma enterprise_iff_provider domain :
  (copilot_auth.enterprise_of domain = None
   ↔ copilot_auth.provider_of domain = "github-copilot")
  ∧ (copilot_auth.enterprise_of domain = Some domain
     ↔ copilot_auth.provider_of domain = "github-copilot-enterprise").
Proof.
  unfold copilot_auth.enterprise_of, copilot_auth.provider_of.
  by destruct (copilot_auth._is_enterprise_domain domain).
Qed.

(** X20.  [copilot_auth_from_pat] raises "Missing PAT token" exactly when
    the token is missing or blank.  Otherwise the credential holds the
    stripped token, never expires, and always has an account id that is a
    non-empty string: the profile's id, else its login, else its email,
    else "pat-" and a digest of the token.  Its enterprise URL is set
    exactly when its provider is "github-copilot-enterprise". *)
Theorem pat_credential repr sha (token enterprise_url : option string) (profile : dict) :
  (strip (default "" token) = "" →
   copilot_auth.copilot_auth_from_pat repr sha token enterprise_url profile
   = Raise (auth.ValueError "Missing PAT token"))
  ∧ (strip (default "" token) ≠ "" →
     ∃ a, copilot_auth.copilot_auth_from_pat repr sha token enterprise_url profile = Return a
       ∧ copilot_auth.access_token a = strip (default "" token)
       ∧ (∀ buffer now, copilot_auth.is_expired a buffer now = false)
       ∧ truthy_opt (copilot_auth.account_id a) = true
       ∧ (∃ domain,
            copilot_auth.provider a = Some (copilot_auth.provider_of domain)
            ∧ copilot_auth.enterprise_url a = copilot_auth.enterprise_of domain
            ∧ (copilot_auth.enterprise_url a = None
               ↔ copilot_auth.provider a = Some "github-copilot")
            ∧ (copilot_auth.enterprise_url a = Some domain
               ↔ copilot_auth.provider a = Some "github-copilot-enterprise"))).
Proof.
  unfold copilot_auth.copilot_auth_from_pat. split.
  - intros H. by rewrite H.
  - intros H%String.eqb_neq. rewrite H. eexists. split; [reflexivity|]. simpl.
    split; [done|]. split; [done|]. split.
    + destruct (truthy_opt (copilot_auth.profile_account_id repr profile)) eqn:E; [done|].
      apply opt_or_truthy, opt_or_truthy, pat_account_id_truthy.
    + exists (copilot_auth._resolve_copilot_domain enterprise_url).
      do 2 (split; [done|]).
      destruct (enterprise_iff_provider (copilot_auth._resolve_copilot_domain enterprise_url))
        as [H1 H2].
      split.
      * rewrite H1. split; [by intros ->|by intros [= ->]].
      * rewrite H2. split; [by intros ->|by intros [= ->]].
Qed.

Definition no_sha (token : string) : string := "0123456789abcdef".

Lemma pat_credential_witness :
  ∃ a, copilot_auth.copilot_auth_from_pat no_repr no_sha (Some " ghp_1 ") None ∅ = Return a
    ∧ copilot_auth.account_id a = Some "pat-0123456789ab".
Proof.
  destruct (pat_credential no_repr no_sha (Some " ghp_1 ") None ∅) as [_ H].
  destruct H as (a & Ha & _); [discriminate|].
  exists a. split; [exact Ha|]. injection Ha as <-. reflexivity.
Defined.

(** X21.  The credential [exchange_copilot_device_code] builds from a token
    payload: with an [expires_in] that is missing, zero or not a number it
    has the expiry 0 and never expires; with a non-zero number it expires
    that many seconds after the polling started. *)
Theorem device_code_expiry repr float_of_str (start_time : Q) (domain : string)
    (profile token_payload : dict) (a : copilot_auth.CopilotAuth) :
  copilot_auth.device_code_auth repr float_of_str start_time domain profile token_payload
  = Some a →
  dget_or "access_token" (JStr "") token_payload = JStr (copilot_auth.access_token a)
  ∧ (copilot_auth.py_float float_of_str (py_or (dget "expires_in" token_payload) (JInt 0))
     = None →
     copilot_auth.expires_at a = 0%Q
     ∧ ∀ buffer now, copilot_auth.is_expired a buffer now = false)
  ∧ (truthy (dget "expires_in" token_payload) = false →
     copilot_auth.expires_at a = 0%Q
     ∧ ∀ buffer now, copilot_auth.is_expired a buffer now = false)
  ∧ (∀ q, copilot_auth.py_float float_of_str (dget "expires_in" token_payload) = Some q →
          truthy (dget "expires_in" token_payload) = true →
          ¬ (q == 0)%Q →
          copilot_auth.expires_at a = (start_time + q)%Q).
Proof.
  unfold copilot_auth.device_code_auth, copilot_auth._parse_token_payload.
  destruct (as_str (dget_or "access_token" (JStr "") token_payload)) as [tok|] eqn:Htok;
    [|done].
  simpl. intros [= <-]. simpl. split.
  { destruct (dget_or "access_token" (JStr "") token_payload); by simplify_eq/=. }
  split; [|split].
  - intros ->. simpl. done.
  - intros Hf. unfold py_or. rewrite Hf. simpl. done.
  - intros q Hq Ht Hz. unfold py_or. rewrite Ht, Hq. simpl.
    by rewrite (proj2 (Qeq_bool_false_iff q 0) Hz).
Qed.

Lemma device_code_expiry_witness :
  ∃ a, copilot_auth.device_code_auth no_repr (λ _, None) 100 "github.com" ∅
         {[ "access_token" := JStr "gho_1" ]} = Some a
    ∧ ∀ buffer now, copilot_auth.is_expired a buffer now = false.
Proof.
  eexists. split; [reflexivity|].
  match goal with
  | |- ∀ _ _, copilot_auth.is_expired ?a _ _ = false =>
      assert (Heq : copilot_auth.device_code_auth no_repr (λ _, None) 100 "github.com" ∅
                      {[ "access_token" := JStr "gho_1" ]} = Some a) by reflexivity;
      destruct (device_code_expiry no_repr (λ _, None) 100 "github.com" ∅
                  {[ "access_token" := JStr "gho_1" ]} a Heq) as (_ & _ & H & _)
  end.
  destruct (H eq_refl) as [_ Hnever]. exact Hnever.
Defined.

(** The account id [copilot_interactive_login] stores a credential under. *)
Definition stored_account_id (a : copilot_auth.CopilotAuth) : string :=
  default "unknown"
    (copilot_auth.opt_or (copilot_auth.account_id a)
       (copilot_auth.opt_or (copilot_auth.login a)
          (copilot_auth.opt_or (copilot_auth.email a) (Some "unknown")))).

Lemma as_str_of_opt_str o : as_str (of_opt_str o) = o.
Proof. by destruct o. Qed.

Lemma copilot_load_of_active f s r (a : copilot_auth.CopilotAuth) id t1 t2 :
  copilot_auth.load_copilot_accounts f = Some s →
  get_active_account s = Some r →
  r = copilot_auth.login_account id a t1 t2 →
  copilot_auth.load_copilot_auth_from_storage f
  = Some (copilot_auth.mkCopilotAuth
            (copilot_auth.access_token a) (copilot_auth.expires_at a) (Some id)
            (copilot_auth.login a) (copilot_auth.email a) (copilot_auth.provider a)
            (if truthy_opt (copilot_auth.enterprise_url a)
             then copilot_auth.enterprise_url a else None)).
Proof.
  intros Hs Hr ->. unfold copilot_auth.load_copilot_auth_from_storage.
  rewrite Hs, Hr.
  rewrite (nonempty_size _ "lastUsed" (JInt t2)) by done.
  change (dget_or "access_token" _ _) with (JStr (copilot_auth.access_token a)).
  change (dget_or "expires_at" _ _) with (JFloat (copilot_auth.expires_at a)).
  change (dget "account_id" _) with (JStr id).
  change (dget "login" _) with (of_opt_str (copilot_auth.login a)).
  change (dget "email" _) with (of_opt_str (copilot_auth.email a)).
  change (dget "provider" _) with (of_opt_str (copilot_auth.provider a)).
  change (dget "enterprise_url" _) with (of_opt_str (copilot_auth.enterprise_url a)).
  change (dget "enterpriseUrl" _) with JNull.
  rewrite !as_str_of_opt_str. simpl. f_equal. f_equal.
  unfold py_or, truthy_opt.
  destruct (truthy (of_opt_str (copilot_auth.enterprise_url a)));
    [apply as_str_of_opt_str|done].
Qed.

(** X22.  [copilot_interactive_login] stores the credential under its
    account id, else its login, else its email, else "unknown", replacing
    the first account stored under that id or appending a new one, and
    makes it active.  [load_copilot_auth_from_storage] then returns the
    credential with that id (an empty enterprise URL read back as none),
    and a second login with the same credential adds no account. *)
Theorem copilot_login_round_trip (a : copilot_auth.CopilotAuth) (t1 t2 t3 t4 : Z) (f : File) :
  copilot_auth.load_copilot_auth_from_storage
    (copilot_auth.copilot_interactive_login a t1 t2 f).2
  = Some (copilot_auth.mkCopilotAuth
            (copilot_auth.access_token a) (copilot_auth.expires_at a)
            (Some (stored_account_id a))
            (copilot_auth.login a) (copilot_auth.email a) (copilot_auth.provider a)
            (if truthy_opt (copilot_auth.enterprise_url a)
             then copilot_auth.enterprise_url a else None))
  ∧ ∃ s1 s2,
      copilot_auth.load_copilot_accounts (copilot_auth.copilot_interactive_login a t1 t2 f).2
      = Some s1
      ∧ copilot_auth.load_copilot_accounts
          (copilot_auth.copilot_interactive_login a t3 t4
             (copilot_auth.copilot_interactive_login a t1 t2 f).2).2 = Some s2
      ∧ active_index s2 = active_index s1
      ∧ only_changes_at (active_index s1) (accounts s1) (accounts s2).
Proof.
  unfold copilot_auth.copilot_interactive_login. fold (stored_account_id a).
  set (P := λ acc : dict, py_eq_str (dget "account_id" acc) (stored_account_id a)).
  assert (HP : ∀ ta tu, P (copilot_auth.login_account (stored_account_id a) a ta tu) = true).
  { intros ta tu. unfold P.
    change (dget "account_id" _) with (JStr (stored_account_id a)).
    simpl. apply String.eqb_refl. }
  set (l := accounts (default (mkStorage 1 [] 0) (copilot_auth.load_copilot_accounts f))).
  unfold index_where.
  destruct (find_where P l) as [[i acc]|] eqn:E; simpl.
  - apply find_where_Some in E as HE. destruct HE as (Hl & _).
    apply lookup_lt_Some in Hl. split.
    + eapply copilot_load_of_active; [reflexivity| |reflexivity].
      by apply get_active_account_insert.
    + do 2 eexists. split; [reflexivity|].
      rewrite (find_where_insert P l i acc _ E (HP t1 t2)). simpl.
      split; [reflexivity|]. simpl. split; [done|].
      split; [by rewrite length_insert|].
      intros j Hj. apply list_lookup_insert_ne. lia.
  - split.
    + eapply copilot_load_of_active; [reflexivity| |reflexivity].
      apply get_active_account_app.
    + do 2 eexists. split; [reflexivity|].
      rewrite (find_where_app_fresh P l _ E (HP t1 t2)). simpl.
      split; [reflexivity|]. simpl. unfold len. rewrite length_app. simpl.
      split; [lia|]. split; [by rewrite length_insert|].
      intros j Hj. apply list_lookup_insert_ne. lia.
Qed.

(** ** Codex: model names and the token's claims *)

Lemma codex_mappings_fixed model backend :
  codex_auth.CODEX_MODEL_MAPPINGS !! model = Some backend →
  codex_auth.CODEX_MODEL_MAPPINGS !! backend = Some backend.
Proof.
  unfold codex_auth.CODEX_MODEL_MAPPINGS at 1. intros H%elem_of_list_to_map_2.
  do 41 (apply elem_of_cons in H as [H|H]; [injection H as _ ->; reflexivity|]).
  by apply elem_of_nil in H.
Qed.

(** X23.  [normalize_codex_model] is idempotent: a name is mapped to a
    backend name that the table maps to itself, and a name the table does
    not know is returned as it is. *)
Theorem normalize_codex_model_idempotent (model : string) :
  codex_auth.normalize_codex_model (codex_auth.normalize_codex_model model)
  = codex_auth.normalize_codex_model model
  ∧ (codex_auth.CODEX_MODEL_MAPPINGS !! model = None →
     codex_auth.normalize_codex_model model = model)
  ∧ (∀ backend, codex_auth.CODEX_MODEL_MAPPINGS !! model = Some backend →
       codex_auth.normalize_codex_model model = backend
       ∧ codex_auth.CODEX_MODEL_MAPPINGS !! backend = Some backend).
Proof.
  unfold codex_auth.normalize_codex_model.
  destruct (codex_auth.CODEX_MODEL_MAPPINGS !! model) as [backend|] eqn:E;
    cbn [default from_option id].
  - rewrite (codex_mappings_fixed model backend E). cbn [default from_option id].
    split; [done|]. split; [done|]. intros ? [= <-].
    split; [done|]. exact (codex_mappings_fixed model backend E).
  - rewrite E. cbn [default from_option id]. split; [done|]. split; [done|]. done.
Qed.

Lemma first_email_Some candidates e :
  codex_auth.first_email candidates = Some e →
  ∃ s, JStr s ∈ candidates ∧ e = strip s ∧ e ≠ "" ∧ str_contains "@" e = true.
Proof.
  induction candidates as [|value candidates IH]; [done|]. simpl.
  destruct value as [|b|z|q|s|l|m];
    try (intros H; destruct (IH H) as (s' & Hin & ?); exists s';
         split; [by apply list_elem_of_further|done]).
  destruct (negb (String.eqb (strip s) "") && str_contains "@" (strip s)) eqn:E.
  - intros [= <-]. apply andb_true_iff in E as [E1 E2].
    exists s. split; [apply list_elem_of_here|]. split; [done|].
    split; [|done]. by apply String.eqb_neq, negb_true_iff.
  - intros H. destruct (IH H) as (s' & Hin & ?). exists s'.
    split; [by apply list_elem_of_further|done].
Qed.

(** X24.  [extract_account_email] returns only what looks like an address:
    the result is the stripped text of one of the token's email claims, is
    not empty and contains an at sign.  The [email] claim of the payload is
    preferred to every other claim, and a token that does not decode gives
    no email. *)
Theorem extract_account_email_usable (decode_jwt : string → option JSON) (token : string) :
  (∀ e, codex_auth.extract_account_email decode_jwt token = Some e →
     e ≠ "" ∧ str_contains "@" e = true
     ∧ ∃ payload s, decode_jwt token = Some (JObj payload)
         ∧ JStr s ∈ codex_auth.email_candidates payload ∧ e = strip s)
  ∧ (decode_jwt token = None → codex_auth.extract_account_email decode_jwt token = None)
  ∧ (∀ payload s,
       decode_jwt token = Some (JObj payload) →
       dget "email" payload = JStr s →
       strip s ≠ "" → str_contains "@" (strip s) = true →
       codex_auth.extract_account_email decode_jwt token = Some (strip s)).
Proof.
  unfold codex_auth.extract_account_email. split; [|split].
  - intros e. destruct (decode_jwt token) as [payload|]; [|done].
    destruct (negb (truthy payload)); [done|].
    destruct payload as [|b|z|q|s|l|m]; try done.
    intros (s & Hin & -> & Hne & Hat)%first_email_Some. eauto 10.
  - by intros ->.
  - intros payload s -> Hem Hne Hat.
    assert (Hnonempty : truthy (JObj payload) = true).
    { simpl. apply negb_true_iff, Nat.eqb_neq. intros Hz.
      apply map_size_empty_inv in Hz. subst. done. }
    rewrite Hnonempty. simpl. unfold codex_auth.email_candidates. rewrite Hem. simpl.
    apply String.eqb_neq in Hne. by rewrite Hne, Hat.
Qed.

(** A token whose payload has a padded address in its [email] claim. *)
Definition padded_email_jwt (token : string) : option JSON :=
  Some (JObj {[ "email" := JStr " a@x " ]}).

Lemma extract_account_email_usable_witness :
  codex_auth.extract_account_email padded_email_jwt "token" = Some "a@x".
Proof.
  destruct (extract_account_email_usable padded_email_jwt "token") as (_ & _ & H).
  exact (H {[ "email" := JStr " a@x " ]} " a@x " eq_refl eq_refl
           ltac:(discriminate) eq_refl).
Defined.

(** ** What the model name decides *)

(** X25.  The functions that read the model name agree with each other: a
    model that gets a thinking configuration is a thinking model; the
    configuration with a thinking budget is given exactly to the models
    whose name has both "claude" and "thinking", with a budget of 8000,
    16000 or 32000, "low" in the name winning over "high" and "max"; the
    models for which the interleaved-thinking header is sent (thinking and
    Claude) all get a thinking configuration; and every Claude model uses
    the "antigravity" header style. *)
Theorem model_name_consistency (model : string) :
  (is_Some (chat_model_helpers.get_thinking_config model) →
   chat_model_helpers.is_thinking_model model = true)
  ∧ (chat_model_helpers.is_thinking_model model
     && chat_model_helpers.is_claude_model model = true →
     is_Some (chat_model_helpers.get_thinking_config model))
  ∧ ((∃ config, chat_model_helpers.get_thinking_config model = Some config
                ∧ is_Some (config !! "thinking_budget"))
     ↔ chat_model_helpers.is_claude_model model
       && str_contains "thinking" (lower model) = true)
  ∧ (∀ config, chat_model_helpers.get_thinking_config model = Some config →
       is_Some (config !! "thinking_budget") →
       config !! "thinking_budget"
       = Some (JInt (if str_contains "low" (lower model) then 8000
                     else if str_contains "high" (lower model)
                             || str_contains "max" (lower model)
                          then 32000 else 16000)))
  ∧ (chat_model_helpers.is_claude_model model = true →
     chat_model_helpers.get_header_style model = "antigravity").
Proof.
  unfold chat_model_helpers.get_thinking_config, chat_model_helpers.is_thinking_model,
    chat_model_helpers.is_claude_model, chat_model_helpers.get_header_style.
  destruct (str_contains "claude" (lower model)) eqn:Hc;
    destruct (str_contains "thinking" (lower model)) eqn:Ht;
    destruct (str_contains "gemini-3" (lower model)) eqn:Hg; cbn [andb orb].
  all: split; [by intros [? ?]|].
  all: split; [by eauto|].
  all: split;
    [split; [intros (config & Hcfg & [v Hv]); simplify_eq; try done;
             try (by vm_compute in Hv)
            |intros Htrue;
             first [done|eexists; split; [reflexivity|]; eexists; reflexivity]]|].
  all: split; [|by rewrite ?orb_true_r].
  all: intros config Hcfg [v Hv]; simplify_eq; try (by vm_compute in Hv).
  all: by repeat case_match.
Qed.

Lemma model_name_consistency_witness :
  chat_model_helpers.get_header_style "Claude-Sonnet-4-5-Thinking-Low" = "antigravity"
  ∧ ∃ config,
      chat_model_helpers.get_thinking_config "Claude-Sonnet-4-5-Thinking-Low" = Some config
      ∧ config !! "thinking_budget" = Some (JInt 8000).
Proof.
  destruct (model_name_consistency "Claude-Sonnet-4-5-Thinking-Low") as (_ & _ & _ & Hb & Hs).
  split; [exact (Hs eq_refl)|].
  eexists. split; [reflexivity|].
  exact (Hb _ eq_refl ltac:(by eexists)).
Defined.

(** ** Token counts *)

Lemma int_or_self z : usage_helpers.int_or (Some z) (usage_helpers.int_or (Some z) 0) = z.
Proof. unfold usage_helpers.int_or. destruct (Z.eqb_spec z 0); by subst. Qed.

Lemma normalize_usage_counts p c t :
  usage_helpers._normalize_token_usage (usage_helpers.usage_counts p c t)
  = usage_helpers.token_usage p c (if t =? 0 then p + c else t).
Proof.
  unfold usage_helpers._normalize_token_usage.
  change (usage_helpers.usage_counts p c t !! "prompt_tokens") with (Some p).
  change (usage_helpers.usage_counts p c t !! "input_tokens") with (Some p).
  change (usage_helpers.usage_counts p c t !! "completion_tokens") with (Some c).
  change (usage_helpers.usage_counts p c t !! "output_tokens") with (Some c).
  change (usage_helpers.usage_counts p c t !! "total_tokens") with (Some t).
  by rewrite !int_or_self.
Qed.

(** X26.  What [_extract_usage_metadata] returns is either no count at all
    or the five counts, with [input_tokens] equal to [prompt_tokens] and
    [output_tokens] equal to [completion_tokens].  [_normalize_token_usage]
    keeps the prompt and completion counts of such a result and its total,
    except that a total of 0 is replaced by their sum.  When the response
    names no total that is a number, the total returned is the sum of the
    two other counts returned. *)
Theorem usage_counts_consistent int_of_str (response_data : dict) counts usage :
  usage_helpers._extract_usage_metadata int_of_str response_data = Return (counts, usage) →
  counts = ∅
  ∨ ∃ p c t,
      counts = usage_helpers.usage_counts p c t
      ∧ counts !! "input_tokens" = counts !! "prompt_tokens"
      ∧ counts !! "output_tokens" = counts !! "completion_tokens"
      ∧ usage_helpers._normalize_token_usage counts
        = usage_helpers.token_usage p c (if t =? 0 then p + c else t)
      ∧ (usage_helpers._coerce_int int_of_str
           (py_or (dget "totalTokenCount" usage)
              (py_or (dget "total_tokens" usage) (dget "totalTokenCount" usage))) = None →
         t = p + c).
Proof.
  unfold usage_helpers._extract_usage_metadata.
  destruct (dget_or "response" _ _) as [|b|z|q|s|l|inner]; try done.
  destruct (py_or (dget "usageMetadata" inner) _) as [|b|z|q|s|l|usage0];
    try (intros [= <- <-]; by left).
  set (prompt := usage_helpers._coerce_int int_of_str
                   (py_or (dget "promptTokenCount" usage0) _)).
  set (completion := usage_helpers._coerce_int int_of_str
                       (py_or (dget "candidatesTokenCount" usage0) _)).
  set (total := usage_helpers._coerce_int int_of_str
                  (py_or (dget "totalTokenCount" usage0) _)).
  destruct prompt as [p|], completion as [c|], total as [t|] eqn:Ht;
    cbv beta iota zeta; intros [= <- <-]; try (by left); right;
    eexists _, _, _; (split; [reflexivity|]); (split; [done|]); (split; [done|]);
    (split; [apply normalize_usage_counts|]); subst total; rewrite Ht;
    intros; simplify_eq/=; lia.
Qed.

Lemma usage_counts_consistent_witness :
  usage_helpers._extract_usage_metadata (λ _, None)
    {[ "usageMetadata" := JObj {[ "promptTokenCount" := JInt 3;
                                   "candidatesTokenCount" := JInt 4 ]} ]}
  = Return (usage_helpers.usage_counts 3 4 7,
            {[ "promptTokenCount" := JInt 3; "candidatesTokenCount" := JInt 4 ]})
  ∧ (usage_helpers.usage_counts 3 4 7 = ∅
     ∨ ∃ p c t,
         usage_helpers.usage_counts 3 4 7 = usage_helpers.usage_counts p c t
         ∧ usage_helpers.usage_counts 3 4 7 !! "input_tokens"
           = usage_helpers.usage_counts 3 4 7 !! "prompt_tokens"
         ∧ usage_helpers.usage_counts 3 4 7 !! "output_tokens"
           = usage_helpers.usage_counts 3 4 7 !! "completion_tokens"
         ∧ usage_helpers._normalize_token_usage (usage_helpers.usage_counts 3 4 7)
           = usage_helpers.token_usage p c (if t =? 0 then p + c else t)
         ∧ (usage_helpers._coerce_int (λ _, None)
              (py_or (dget "totalTokenCount"
                        ({[ "promptTokenCount" := JInt 3;
                            "candidatesTokenCount" := JInt 4 ]} : dict))
                 (py_or (dget "total_tokens"
                           ({[ "promptTokenCount" := JInt 3;
                               "candidatesTokenCount" := JInt 4 ]} : dict))
                    (dget "totalTokenCount"
                       ({[ "promptTokenCount" := JInt 3;
                           "candidatesTokenCount" := JInt 4 ]} : dict)))) = None →
            t = p + c)).
Proof.
  assert (Hrun : usage_helpers._extract_usage_metadata (λ _, None)
                   {[ "usageMetadata" := JObj {[ "promptTokenCount" := JInt 3;
                                                  "candidatesTokenCount" := JInt 4 ]} ]}
                 = Return (usage_helpers.usage_counts 3 4 7,
                           {[ "promptTokenCount" := JInt 3;
                              "candidatesTokenCount" := JInt 4 ]}))
    by (vm_compute; reflexivity).
  split; [exact Hrun|].
  exact (usage_counts_consistent _ _ _ _ Hrun).
Defined.

(** ** Message conversion *)

(** A part [convert_content] builds. *)
Definition content_part (part : JSON) : Prop :=
  (∃ v, part = chat_message_utils.text_part v)
  ∨ (∃ mime_type data, part = chat_message_utils.inline_data_part mime_type data).

(** An item of the kind whose conversion can fail. *)
Definition image_item (item : JSON) : Prop :=
  ∃ m, item = JObj m ∧ py_eq_str (dget "type" m) "image_url" = true.

Lemma convert_item_parts item added :
  chat_message_utils.convert_item item = Return added →
  Forall content_part added ∧ (length added ≤ 1)%nat.
Proof.
  unfold chat_message_utils.convert_item. intros Hrun.
  repeat case_match; simplify_eq; (split; [|simpl; lia]);
    repeat first [apply Forall_nil_2|apply Forall_cons_2];
    unfold content_part; first [left; by eauto|right; by eauto].
Qed.

Lemma convert_item_raises item e :
  chat_message_utils.convert_item item = Raise e → image_item item.
Proof.
  unfold chat_message_utils.convert_item, image_item. intros Hrun.
  repeat case_match; simplify_eq; eauto.
Qed.

Lemma convert_items_parts items : ∀ parts parts',
  chat_message_utils.convert_items items parts = Return parts' →
  Forall content_part parts →
  Forall content_part parts' ∧ (length parts' ≤ length parts + length items)%nat.
Proof.
  induction items as [|item items IH]; intros parts parts' Hrun Hparts; simpl in Hrun.
  - simplify_eq. split; [done|simpl; lia].
  - destruct (chat_message_utils.convert_item item) as [added|e] eqn:Hitem; [|done].
    apply convert_item_parts in Hitem as [Hadded Hlen].
    apply IH in Hrun as [Hall Hle]; [|by apply Forall_app].
    split; [done|]. rewrite length_app in Hle. simpl. lia.
Qed.

Lemma convert_items_raises items : ∀ parts e,
  chat_message_utils.convert_items items parts = Raise e →
  ∃ item, item ∈ items ∧ image_item item.
Proof.
  induction items as [|item items IH]; intros parts e Hrun; simpl in Hrun; [done|].
  destruct (chat_message_utils.convert_item item) as [added|e'] eqn:Hitem.
  - apply IH in Hrun as (item' & Hin & Himg). exists item'. split; [by right|done].
  - exists item. split; [by left|]. by eapply convert_item_raises.
Qed.

(** X27.  [convert_content] never returns an empty list: a string is one
    text part, and a list gives at most one part per item, each a text
    part or an inline-data part, or the single empty text part when no item
    gave one.  It raises only on a list that holds an item of type
    [image_url]. *)
Theorem convert_content_parts (content : chat_message_utils.Content) :
  (∀ parts, chat_message_utils.convert_content content = Return parts →
     parts ≠ []
     ∧ Forall content_part parts
     ∧ (length parts
        ≤ match content with
          | chat_message_utils.Text _ => 1
          | chat_message_utils.Items items => Nat.max 1 (length items)
          end)%nat
     ∧ (∀ items, content = chat_message_utils.Items items →
          chat_message_utils.convert_items items [] = Return [] →
          parts = [chat_message_utils.text_part (JStr "")]))
  ∧ (∀ e, chat_message_utils.convert_content content = Raise e →
       ∃ items item, content = chat_message_utils.Items items
                     ∧ item ∈ items ∧ image_item item).
Proof.
  destruct content as [s|items]; simpl.
  - split; [|done]. intros parts [= <-]. split_and!; [done| |simpl; lia|done].
    apply Forall_cons_2; [|done]. left. eauto.
  - destruct (chat_message_utils.convert_items items []) as [parts0|e0] eqn:Hrun.
    + split; [|done]. intros parts [= <-].
      destruct (convert_items_parts _ _ _ Hrun) as [Hall Hlen]; [done|]. simpl in Hlen.
      destruct parts0 as [|part parts0].
      * split_and!; [done| |simpl; lia|done]. apply Forall_cons_2; [|done]. left. eauto.
      * split_and!; [done|done|lia|]. intros ? [= <-] ?. congruence.
    + split; [done|]. intros e [= <-].
      apply convert_items_raises in Hrun as (item & Hin & Himg). eauto.
Qed.

(** The role of the entry a message adds to [contents], if it adds one. *)
Definition turn_role (msg : chat_message_utils.Message) : option JSON :=
  match msg with
  | chat_message_utils.HumanMessage _ => Some (JStr "user")
  | chat_message_utils.AIMessage _ _ => Some (JStr "model")
  | chat_message_utils.ToolMessage _ _ _ => Some (JStr "user")
  | _ => None
  end.

(** The content of a system message. *)
Definition system_content (msg : chat_message_utils.Message)
  : option chat_message_utils.Content :=
  match msg with
  | chat_message_utils.SystemMessage content => Some content
  | _ => None
  end.

(** [entry["role"]] *)
Definition entry_role (entry : JSON) : JSON :=
  match entry with
  | JObj m => dget "role" m
  | _ => JNull
  end.

(** A human message whose content is a list. *)
Definition human_list (msg : chat_message_utils.Message) : Prop :=
  ∃ items, msg = chat_message_utils.HumanMessage (chat_message_utils.Items items).

Lemma entry_role_turn role parts :
  entry_role (chat_message_utils.turn role parts) = JStr role.
Proof. reflexivity. Qed.

Lemma convert_message_shape msg contents sys contents' sys' :
  chat_message_utils.convert_message msg contents sys = Return (contents', sys') →
  map entry_role contents' = map entry_role contents ++ option_list (turn_role msg)
  ∧ sys' = match system_content msg with
           | Some content =>
               Some (JObj {[ "parts" :=
                               JArr [chat_message_utils.text_part
                                       (chat_message_utils.content_value content)] ]})
           | None => sys
           end.
Proof.
  destruct msg; simpl; intros Hrun; repeat case_match; simplify_eq;
    rewrite ?map_app, ?app_nil_r; done.
Qed.

Lemma convert_messages_from_shape messages : ∀ contents sys contents' sys',
  chat_message_utils.convert_messages_from messages contents sys = Return (contents', sys') →
  map entry_role contents' = map entry_role contents ++ omap turn_role messages
  ∧ sys' = match last (omap system_content messages) with
           | Some content =>
               Some (JObj {[ "parts" :=
                               JArr [chat_message_utils.text_part
                                       (chat_message_utils.content_value content)] ]})
           | None => sys
           end.
Proof.
  induction messages as [|msg messages IH]; intros contents sys contents' sys' Hrun;
    simpl in Hrun.
  - simplify_eq. by rewrite app_nil_r.
  - destruct (chat_message_utils.convert_message msg contents sys)
      as [[contents1 sys1]|e] eqn:Hmsg; [|done].
    apply convert_message_shape in Hmsg as [Hroles Hsys].
    apply IH in Hrun as [Hroles' Hsys']. split.
    + rewrite Hroles', Hroles, <- app_assoc. f_equal.
      cbn [omap list_omap]. by destruct (turn_role msg).
    + rewrite Hsys', Hsys. cbn [omap list_omap].
      destruct (system_content msg) as [content|]; [|done].
      rewrite last_cons. by destruct (last (omap system_content messages)).
Qed.

Lemma convert_messages_from_returns messages : ∀ contents sys,
  Forall (λ msg, ¬ human_list msg) messages →
  ∃ result, chat_message_utils.convert_messages_from messages contents sys = Return result.
Proof.
  induction messages as [|msg messages IH]; intros contents sys Hall; simpl; [eauto|].
  apply Forall_cons in Hall as [Hmsg Hall].
  destruct msg as [content|content|content tool_calls|content name tool_call_id|]; simpl;
    try by apply IH.
  destruct content as [s|items]; simpl; [by apply IH|].
  destruct Hmsg. by eexists.
Qed.

(** X28.  [convert_messages] adds one entry to [contents] for each human,
    AI and tool message, in the order of the messages, with the role
    [user], [model] and [user]; system messages and messages of other
    kinds add none.  The system instruction is built from the last system
    message alone, and is [None] when there is none.  The conversion
    returns whenever no human message has a list as content. *)
Theorem convert_messages_roles (messages : list chat_message_utils.Message) :
  (∀ contents system_instruction,
     chat_message_utils.convert_messages messages = Return (contents, system_instruction) →
     map entry_role contents = omap turn_role messages
     ∧ length contents = length (omap turn_role messages)
     ∧ system_instruction
       = (content ← last (omap system_content messages);
          Some (JObj {[ "parts" :=
                          JArr [chat_message_utils.text_part
                                  (chat_message_utils.content_value content)] ]})))
  ∧ (Forall (λ msg, ¬ human_list msg) messages →
     ∃ result, chat_message_utils.convert_messages messages = Return result).
Proof.
  split; [|apply convert_messages_from_returns].
  intros contents sys Hrun.
  apply convert_messages_from_shape in Hrun as [Hroles Hsys]. simpl in Hroles.
  split_and!; [done| |].
  - by rewrite <- Hroles, length_map.
  - rewrite Hsys. by destruct (last _).
Qed.
